(** * ClearPipe: the ClearML dataset wrapper (scripts/clearml_wrapper.py)

    A shallow embedding of the command-line wrapper and the properties of
    its observable contract: the JSON envelope, the marker lines on
    standard output, the exit code and the calls made to the wrapped SDK.

    The wrapped SDK (clearml.Dataset) and the filesystem (pathlib.Path) are
    libraries whose behaviour the wrapper does not control: they appear
    here as interfaces, and every theorem is proved for all their
    instances.  The parser (argparse) is followed in two steps: how it
    splits [sys.argv] into positional arguments and options with their
    values, and how it reads the command line so split.  A small concrete
    world at the end of the definitions serves the examples.

    The test suite of the wrapper (scripts/test_clearml_wrapper.py) follows
    the wrapper: what it finds around it (the import of the SDK, the source
    of the wrapper, the run of the wrapper in a subprocess) is a record of
    outcomes, and its theorems hold for every such record. *)

From Stdlib Require Import ZArith String Ascii List Lia Bool DecimalString.
From stdpp Require Import base option list strings gmap.

Local Open Scope Z_scope.
Local Open Scope string_scope.
Local Open Scope list_scope.

(** ** Python values that reach the envelope *)

(** The values the wrapper stores in a result envelope.  A Python [dict]
    keeps its insertion order, which [json.dumps] follows, hence the
    association list.  A [str] is a sequence of code points; here every
    character is a code point below 256. *)
#[local] Unset Elimination Schemes.
Inductive json : Type :=
| JNull
| JBool (b : bool)
| JInt (n : Z)
| JStr (s : string)
| JList (items : list json)
| JDict (fields : list (string * json)).
#[local] Set Elimination Schemes.

(** [d.get(key)] on an envelope. *)
Fixpoint assoc_get (key : string) (fields : list (string * json)) : option json :=
  match fields with
  | [] => None
  | (k, v) :: rest => if String.eqb k key then Some v else assoc_get key rest
  end.

Definition dict_get (key : string) (d : json) : option json :=
  match d with
  | JDict fields => assoc_get key fields
  | _ => None
  end.

Definition dict_keys (d : json) : list string :=
  match d with
  | JDict fields => map fst fields
  | _ => []
  end.

(** Python truthiness of the values the wrapper tests. *)
Definition truthy (v : option json) : bool :=
  match v with
  | None | Some JNull => false
  | Some (JBool b) => b
  | Some (JInt n) => negb (Z.eqb n 0)
  | Some (JStr s) => negb (String.eqb s "")
  | Some (JList l) => match l with [] => false | _ => true end
  | Some (JDict l) => match l with [] => false | _ => true end
  end.

(** [if s:] for an [Optional[str]]. *)
Definition truthy_str (o : option string) : bool :=
  match o with
  | None => false
  | Some s => negb (String.eqb s "")
  end.

(** [if l:] for an [Optional[List[str]]]. *)
Definition truthy_list {A} (o : option (list A)) : bool :=
  match o with
  | None | Some [] => false
  | Some (_ :: _) => true
  end.

(** [s or d] for an [Optional[str]]. *)
Definition str_or (o : option string) (d : string) : string :=
  match o with
  | Some s => if String.eqb s "" then d else s
  | None => d
  end.

(** [l or []] for an [Optional[List[str]]]. *)
Definition list_or_empty {A} (o : option (list A)) : list A :=
  match o with
  | Some l => l
  | None => []
  end.

(** ** json.dumps *)

Definition nl : ascii := ascii_of_nat 10.
Definition nls : string := String nl "".

Definition dquote : ascii := ascii_of_nat 34.

Definition hex_digit (n : nat) : ascii :=
  match get n "0123456789abcdef" with
  | Some c => c
  | None => "0"%char
  end.

(** One character of a string literal, as [json.dumps] writes it with
    [ensure_ascii=True]: everything outside [' '..'~'] is escaped. *)
Definition escape_char (c : ascii) : string :=
  let n := nat_of_ascii c in
  if Nat.eqb n 34 then String "\" (String dquote "")
  else if Nat.eqb n 92 then "\\"
  else if Nat.eqb n 10 then "\n"
  else if Nat.eqb n 13 then "\r"
  else if Nat.eqb n 9 then "\t"
  else if Nat.eqb n 8 then "\b"
  else if Nat.eqb n 12 then "\f"
  else if (Nat.leb 32 n && Nat.leb n 126)%bool then String c ""
  else "\u00" +:+ String (hex_digit (Nat.div n 16)) (String (hex_digit (Nat.modulo n 16)) "").

Fixpoint escape (s : string) : string :=
  match s with
  | EmptyString => ""
  | String c rest => escape_char c +:+ escape rest
  end.

Definition quote (s : string) : string :=
  String dquote (escape s +:+ String dquote "").

Definition dec (n : Z) : string := NilZero.string_of_int (Z.to_int n).

Fixpoint join (sep : string) (parts : list string) : string :=
  match parts with
  | [] => ""
  | [p] => p
  | p :: rest => p +:+ sep +:+ join sep rest
  end.

(** [json.dumps(v)]: one line, items separated by a comma and a space. *)
Fixpoint dumps (v : json) : string :=
  match v with
  | JNull => "null"
  | JBool true => "true"
  | JBool false => "false"
  | JInt n => dec n
  | JStr s => quote s
  | JList items => "[" +:+ join ", " (List.map dumps items) +:+ "]"
  | JDict fields =>
      "{" +:+ join ", " (List.map (fun kv => quote (fst kv) +:+ ": " +:+ dumps (snd kv)) fields)
          +:+ "}"
  end.

Fixpoint spaces (n : nat) : string :=
  match n with
  | O => ""
  | S k => String " " (spaces k)
  end.

(** A line break followed by the indentation of nesting level [lvl]. *)
Definition newline_indent (lvl : nat) : string := nls +:+ spaces (2 * lvl).

(** [json.dumps(v, indent=2)] for a value nested [lvl] containers deep: the
    items of a container go one per line at level [lvl + 1] and its closing
    bracket at level [lvl]; an empty container stays on its line. *)
Fixpoint dumps_at (lvl : nat) (v : json) : string :=
  match v with
  | JNull => "null"
  | JBool true => "true"
  | JBool false => "false"
  | JInt n => dec n
  | JStr s => quote s
  | JList [] => "[]"
  | JList items =>
      "[" +:+ newline_indent (S lvl)
          +:+ join ("," +:+ newline_indent (S lvl)) (List.map (dumps_at (S lvl)) items)
          +:+ newline_indent lvl +:+ "]"
  | JDict [] => "{}"
  | JDict fields =>
      "{" +:+ newline_indent (S lvl)
          +:+ join ("," +:+ newline_indent (S lvl))
                (List.map (fun kv => quote (fst kv) +:+ ": " +:+ dumps_at (S lvl) (snd kv)) fields)
          +:+ newline_indent lvl +:+ "}"
  end.

Definition dumps_indent2 (v : json) : string := dumps_at 0 v.

(** The lines of a text: the pieces between line breaks. *)
Fixpoint lines (s : string) : list string :=
  match s with
  | EmptyString => [""]
  | String c rest =>
      if Ascii.eqb c nl then "" :: lines rest
      else match lines rest with
           | l :: ls => String c l :: ls
           | [] => [String c ""]
           end
  end.

(** No line break in a text. *)
Fixpoint one_line (s : string) : bool :=
  match s with
  | EmptyString => true
  | String c rest => negb (Ascii.eqb c nl) && one_line rest
  end.

(** Every line break of a text is followed by a space. *)
Fixpoint breaks_indented (s : string) : bool :=
  match s with
  | EmptyString => true
  | String c rest =>
      if Ascii.eqb c nl
      then match rest with
           | String c' _ => Ascii.eqb c' " " && breaks_indented rest
           | EmptyString => false
           end
      else breaks_indented rest
  end.

Definition starts_with_space (s : string) : Prop :=
  exists rest, s = String " " rest.

(** ** Exceptions *)

(** A raised Python exception: what [str(e)] gives, and whether its class
    derives from [Exception].  [KeyboardInterrupt], [SystemExit] and
    [GeneratorExit] derive from [BaseException] only. *)
Record exn : Type := Exn {
  exn_is_Exception : bool;
  exn_str : string
}.

(** ** The filesystem, as [pathlib.Path] shows it *)

(** [F] is a state of the filesystem and [P] the type of [Path] objects.
    A query returns its value or raises.  [rglob] is a generator: it yields
    the entries it found and may then raise. *)
Class FileSystem (F P : Type) : Type := {
  Path : string -> P;
  path_str : P -> string;
  path_name : P -> string;
  path_div : P -> string -> P;
  relative_to : P -> P -> exn + P;
  cwd : F -> exn + P;
  path_exists : F -> P -> exn + bool;
  is_file : F -> P -> exn + bool;
  is_dir : F -> P -> exn + bool;
  st_size : F -> P -> exn + Z;
  rglob : F -> P -> list P * option exn
}.

(** ** The wrapped SDK *)

(** A dataset handle: the attributes the wrapper reads, and whether the
    object has a [get_file_size] method. *)
Record Dataset : Type := {
  ds_id : string;
  ds_name : string;
  ds_project : string;
  ds_tags : list string;
  ds_has_get_file_size : bool
}.

(** The keyword arguments of [Dataset.create]; [None] is an argument left
    at its default. *)
Record create_kwargs : Type := {
  kw_dataset_name : string;
  kw_dataset_project : string;
  kw_parent_datasets : option (list string);
  kw_dataset_tags : list string;
  kw_description : string;
  kw_output_uri : option string
}.

(** The two ways [Dataset.get] is called. *)
Inductive get_kwargs : Type :=
| ById (dataset_id : string)
| ByName (dataset_name : string) (dataset_project : option string).

(** What a call to the SDK does: it returns or raises, it may write lines
    to standard output, and it leaves the service in a new state. *)
Record reply (S A : Type) : Type := Reply {
  r_result : exn + A;
  r_log : list string;
  r_next : S
}.
Arguments Reply {S A}.
Arguments r_result {S A}.
Arguments r_log {S A}.
Arguments r_next {S A}.

(** [S] is a state of the SDK and of the service behind it.  The local
    filesystem changes only when [get_local_copy] materialises a dataset. *)
Class SDK (S F : Type) : Type := {
  Dataset_create : create_kwargs -> S -> reply S Dataset;
  Dataset_get : get_kwargs -> S -> reply S (option Dataset);
  Dataset_list_datasets :
    option string -> option (list string) -> bool -> S -> reply S (list (gmap string json));
  add_files : Dataset -> string -> S -> reply S unit;
  upload : Dataset -> S -> reply S unit;
  finalize : Dataset -> S -> reply S unit;
  get_local_copy : Dataset -> string -> F -> S -> reply S (string * F);
  list_files : Dataset -> S -> reply S (list string);
  get_file_size : Dataset -> string -> S -> reply S json;
  is_final : Dataset -> S -> reply S bool
}.

(** The SDK operations, as the trace of a run records them. *)
Inductive sdk_call : Type :=
| CallCreate (kw : create_kwargs)
| CallGet (kw : get_kwargs)
| CallListDatasets (project : option string) (tags : option (list string)) (only_completed : bool)
| CallAddFiles (d : Dataset) (path : string)
| CallUpload (d : Dataset)
| CallFinalize (d : Dataset)
| CallGetLocalCopy (d : Dataset) (target_folder : string)
| CallListFiles (d : Dataset)
| CallGetFileSize (d : Dataset) (entry : string)
| CallIsFinal (d : Dataset).

Definition is_upload (c : sdk_call) : bool :=
  match c with
  | CallUpload _ => true
  | _ => false
  end.

(** ** The command line *)

(** What [argparse] makes of [sys.argv[1:]] before it interprets it: the
    positional arguments and the option strings, each option string with
    the argument that goes with it, if any. *)
Inductive arg : Type :=
| Positional (value : string)
| Flag (name : string)
| FlagValue (name value : string).

Module argparse.

(** The attributes of the namespace [parser.parse_args()] returns. *)
Record Namespace : Type := {
  action : string;
  api_host : string;
  web_host : string;
  files_host : string;
  access_key : string;
  secret_key : string;
  dataset_id : option string;
  dataset_name : option string;
  dataset_project : option string;
  input_paths : option (list string);
  tags : option (list string);
  description : option string;
  output_uri : option string;
  output_path : option string;
  only_completed : bool
}.

End argparse.

(** The namespace while the arguments are read: the positional and the two
    required options are not there yet, and [unrecognized] collects what no
    argument of the parser takes. *)
Record parsing : Type := {
  p_action : option string;
  p_api_host : string;
  p_web_host : string;
  p_files_host : string;
  p_access_key : option string;
  p_secret_key : option string;
  p_dataset_id : option string;
  p_dataset_name : option string;
  p_dataset_project : option string;
  p_input_paths : option (list string);
  p_tags : option (list string);
  p_description : option string;
  p_output_uri : option string;
  p_output_path : option string;
  p_only_completed : bool;
  p_unrecognized : list string
}.

(** The defaults of lines 379-412. *)
Definition parser_defaults : parsing :=
  {| p_action := None;
     p_api_host := "https://api.clear.ml";
     p_web_host := "https://app.clear.ml";
     p_files_host := "https://files.clear.ml";
     p_access_key := None;
     p_secret_key := None;
     p_dataset_id := None;
     p_dataset_name := None;
     p_dataset_project := None;
     p_input_paths := None;
     p_tags := None;
     p_description := None;
     p_output_uri := None;
     p_output_path := None;
     p_only_completed := true;
     p_unrecognized := [] |}.

Definition action_choices : list string := ["create"; "version"; "download"; "list"; "info"].

(** The option strings of the parser; [argparse] adds [-h] and [--help]. *)
Definition option_strings : list string :=
  ["-h"; "--help"; "--api-host"; "--web-host"; "--files-host"; "--access-key"; "--secret-key";
   "--dataset-id"; "--dataset-name"; "--dataset-project"; "--input-path"; "--tags";
   "--description"; "--output-uri"; "--output-path"; "--only-completed"].

Definition mem (s : string) (l : list string) : bool := existsb (String.eqb s) l.

Inductive resolved : Type :=
| Known (option_string : string)
| Unknown
| Ambiguous.

(** An option string is one of the parser, or an unambiguous prefix of a
    long one ([allow_abbrev] is left at its default). *)
Definition resolve (name : string) : resolved :=
  if mem name option_strings then Known name
  else if String.prefix "--" name then
    match List.filter (String.prefix name) option_strings with
    | [] => Unknown
    | [o] => Known o
    | _ => Ambiguous
    end
  else Unknown.

Inductive step : Type :=
| Continue (p : parsing)
| Help
| Error.

(** [action="append"] *)
Definition append_to (o : option (list string)) (v : string) : option (list string) :=
  Some (list_or_empty o ++ [v]).

Definition set_action (p : parsing) (v : string) : parsing :=
  {| p_action := Some v; p_api_host := p_api_host p; p_web_host := p_web_host p;
     p_files_host := p_files_host p; p_access_key := p_access_key p;
     p_secret_key := p_secret_key p; p_dataset_id := p_dataset_id p;
     p_dataset_name := p_dataset_name p; p_dataset_project := p_dataset_project p;
     p_input_paths := p_input_paths p; p_tags := p_tags p; p_description := p_description p;
     p_output_uri := p_output_uri p; p_output_path := p_output_path p;
     p_only_completed := p_only_completed p; p_unrecognized := p_unrecognized p |}.

Definition add_unrecognized (p : parsing) (v : string) : parsing :=
  {| p_action := p_action p; p_api_host := p_api_host p; p_web_host := p_web_host p;
     p_files_host := p_files_host p; p_access_key := p_access_key p;
     p_secret_key := p_secret_key p; p_dataset_id := p_dataset_id p;
     p_dataset_name := p_dataset_name p; p_dataset_project := p_dataset_project p;
     p_input_paths := p_input_paths p; p_tags := p_tags p; p_description := p_description p;
     p_output_uri := p_output_uri p; p_output_path := p_output_path p;
     p_only_completed := p_only_completed p; p_unrecognized := p_unrecognized p ++ [v] |}.

(** An option that takes one argument (line by line, 383-408). *)
Definition store (p : parsing) (option_string value : string) : parsing :=
  {| p_action := p_action p;
     p_api_host := if String.eqb option_string "--api-host" then value else p_api_host p;
     p_web_host := if String.eqb option_string "--web-host" then value else p_web_host p;
     p_files_host := if String.eqb option_string "--files-host" then value else p_files_host p;
     p_access_key :=
       if String.eqb option_string "--access-key" then Some value else p_access_key p;
     p_secret_key :=
       if String.eqb option_string "--secret-key" then Some value else p_secret_key p;
     p_dataset_id :=
       if String.eqb option_string "--dataset-id" then Some value else p_dataset_id p;
     p_dataset_name :=
       if String.eqb option_string "--dataset-name" then Some value else p_dataset_name p;
     p_dataset_project :=
       if String.eqb option_string "--dataset-project" then Some value
       else p_dataset_project p;
     p_input_paths :=
       if String.eqb option_string "--input-path" then append_to (p_input_paths p) value
       else p_input_paths p;
     p_tags :=
       if String.eqb option_string "--tags" then append_to (p_tags p) value else p_tags p;
     p_description :=
       if String.eqb option_string "--description" then Some value else p_description p;
     p_output_uri :=
       if String.eqb option_string "--output-uri" then Some value else p_output_uri p;
     p_output_path :=
       if String.eqb option_string "--output-path" then Some value else p_output_path p;
     p_only_completed := p_only_completed p;
     p_unrecognized := p_unrecognized p |}.

(** [--only-completed], [action="store_true"] (lines 411-412): the
    attribute becomes [True]. *)
Definition store_true_only_completed (p : parsing) : parsing :=
  {| p_action := p_action p; p_api_host := p_api_host p; p_web_host := p_web_host p;
     p_files_host := p_files_host p; p_access_key := p_access_key p;
     p_secret_key := p_secret_key p; p_dataset_id := p_dataset_id p;
     p_dataset_name := p_dataset_name p; p_dataset_project := p_dataset_project p;
     p_input_paths := p_input_paths p; p_tags := p_tags p; p_description := p_description p;
     p_output_uri := p_output_uri p; p_output_path := p_output_path p;
     p_only_completed := true; p_unrecognized := p_unrecognized p |}.

Definition is_help (option_string : string) : bool :=
  String.eqb option_string "-h" || String.eqb option_string "--help".

Definition is_store_true (option_string : string) : bool :=
  String.eqb option_string "--only-completed".

(** One argument of the command line. *)
Definition parse_arg (p : parsing) (a : arg) : step :=
  match a with
  | Positional v =>
      match p_action p with
      | None => if mem v action_choices then Continue (set_action p v) else Error
      | Some _ => Continue (add_unrecognized p v)
      end
  | Flag name =>
      match resolve name with
      | Known o =>
          if is_help o then Help
          else if is_store_true o then Continue (store_true_only_completed p)
          else Error
      | Unknown => Continue (add_unrecognized p name)
      | Ambiguous => Error
      end
  | FlagValue name v =>
      match resolve name with
      | Known o => if is_help o || is_store_true o then Error else Continue (store p o v)
      | Unknown => Continue (add_unrecognized p name)
      | Ambiguous => Error
      end
  end.

Inductive parsed : Type :=
| ParseOk (args : argparse.Namespace)
| ParseHelp
| ParseError.

(** The end of [parse_args]: the required arguments are there and nothing
    is left over. *)
Definition finish (p : parsing) : parsed :=
  match p_action p, p_access_key p, p_secret_key p, p_unrecognized p with
  | Some a, Some ak, Some sk, [] =>
      ParseOk {| argparse.action := a;
                 argparse.api_host := p_api_host p;
                 argparse.web_host := p_web_host p;
                 argparse.files_host := p_files_host p;
                 argparse.access_key := ak;
                 argparse.secret_key := sk;
                 argparse.dataset_id := p_dataset_id p;
                 argparse.dataset_name := p_dataset_name p;
                 argparse.dataset_project := p_dataset_project p;
                 argparse.input_paths := p_input_paths p;
                 argparse.tags := p_tags p;
                 argparse.description := p_description p;
                 argparse.output_uri := p_output_uri p;
                 argparse.output_path := p_output_path p;
                 argparse.only_completed := p_only_completed p |}
  | _, _, _, _ => ParseError
  end.

Fixpoint parse_from (p : parsing) (argv : list arg) : parsed :=
  match argv with
  | [] => finish p
  | a :: rest =>
      match parse_arg p a with
      | Continue p' => parse_from p' rest
      | Help => ParseHelp
      | Error => ParseError
      end
  end.

(** [parser.parse_args()] (line 414), on a command line that is split
    already; [read_argv] below splits it. *)
Definition parse_args (argv : list arg) : parsed := parse_from parser_defaults argv.



(** Lines 24-28: whether [from clearml import Dataset, Task] succeeded. *)
Inductive import_result : Type :=
| Imported
| ImportErrorRaised.

Definition CLEARML_AVAILABLE (r : import_result) : bool :=
  match r with
  | Imported => true
  | ImportErrorRaised => false
  end.

(** What the import of line 25 does: it succeeds, or raises [ImportError]
    (or a subclass, as [ModuleNotFoundError]), or raises an exception of
    another class. *)
Inductive import_attempt : Type :=
| ImportSucceeds
| ImportRaisesImportError
| ImportRaises (e : exn).

(** Lines 24-28: [except ImportError] catches that class only; another
    exception leaves the module. *)
Definition import_guard (attempt : import_attempt) : exn + import_result :=
  match attempt with
  | ImportSucceeds => inr Imported
  | ImportRaisesImportError => inr ImportErrorRaised
  | ImportRaises e => inl e
  end.

(** How the process ends: [sys.exit(code)], or an exception nothing
    catches. *)
Inductive exit_status : Type :=
| Exit (code : Z)
| Uncaught (e : exn).

Definition START_MARKER : string := "---CLEARML_JSON_START---".
Definition END_MARKER : string := "---CLEARML_JSON_END---".

Definition sum_sizes (sizes : list Z) : Z := fold_right Z.add 0 sizes.

(** The six fields [list_datasets] keeps from a record of the SDK. *)
Definition projected_fields : list string :=
  ["id"; "name"; "project"; "tags"; "created"; "version"].

(** [sub in s] *)
Fixpoint contains (sub s : string) : bool :=
  String.prefix sub s
  || match s with
     | EmptyString => false
     | String _ rest => contains sub rest
     end.

(** ** sys.argv *)

(** What [argparse] does to [sys.argv[1:]] before it interprets it
    ([ArgumentParser._parse_known_args], Python 3.11).  It first tells, for
    each string, whether it is an option string or an argument; then it
    reads the strings from left to right, and gives each option that takes
    a value the argument that follows it. *)

(** [s.split('=', 1)] *)
Fixpoint split_eq (s : string) : string * option string :=
  match s with
  | EmptyString => (EmptyString, None)
  | String c rest =>
      if Ascii.eqb c "=" then (EmptyString, Some rest)
      else let (name, explicit_arg) := split_eq rest in (String c name, explicit_arg)
  end.

(** [s[n:]] *)
Fixpoint string_from (n : nat) (s : string) : string :=
  match n, s with
  | O, _ => s
  | Datatypes.S n', String _ rest => string_from n' rest
  | Datatypes.S _, EmptyString => EmptyString
  end.

(** [s[:n]] *)
Fixpoint string_upto (n : nat) (s : string) : string :=
  match n, s with
  | O, _ => EmptyString
  | Datatypes.S n', String c rest => String c (string_upto n' rest)
  | Datatypes.S _, EmptyString => EmptyString
  end.

(** [\d], on code points below 256 *)
Definition is_digit (c : ascii) : bool :=
  Nat.leb 48 (nat_of_ascii c) && Nat.leb (nat_of_ascii c) 57.

Fixpoint skip_digits (s : string) : string :=
  match s with
  | EmptyString => EmptyString
  | String c rest => if is_digit c then skip_digits rest else s
  end.

Definition starts_with_digit (s : string) : bool :=
  match s with
  | EmptyString => false
  | String c _ => is_digit c
  end.

(** [$]: the end of the string, or the newline that ends it *)
Definition at_end (s : string) : bool :=
  String.eqb s EmptyString || String.eqb s (String nl EmptyString).

(** [_negative_number_matcher], the expression [^-\d+$|^-\d*\.\d+$] *)
Definition negative_number (s : string) : bool :=
  match s with
  | String "-" digits =>
      (starts_with_digit digits && at_end (skip_digits digits))
      || match skip_digits digits with
         | String "." decimals => starts_with_digit decimals && at_end (skip_digits decimals)
         | _ => false
         end
  | _ => false
  end.

(** [_get_option_tuples]: the option strings an abbreviation may stand for,
    each with the explicit argument the string then carries.  A string that
    starts with two dashes is cut at its first [=]; of one that starts with
    a single dash, the first two characters may be the option and the rest
    its argument.  [_parse_optional] calls it on strings of two characters
    at least, the first a dash. *)
Definition get_option_tuples (arg_string : string) : list (string * option string) :=
  if String.prefix "--" arg_string then
    let (option_prefix, explicit_arg) := split_eq arg_string in
    List.map (fun option_string => (option_string, explicit_arg))
      (List.filter (String.prefix option_prefix) option_strings)
  else
    omap (fun option_string =>
            if String.eqb option_string (string_upto 2 arg_string)
            then Some (option_string, Some (string_from 2 arg_string))
            else if String.prefix arg_string option_string then Some (option_string, None)
            else None)
      option_strings.

Definition has_explicit_arg (explicit_arg : option string) : bool :=
  match explicit_arg with
  | Some _ => true
  | None => false
  end.

(** One string of the command line, once classified: an argument (['A'] in
    the pattern of [argparse]), an option string of the parser with the
    argument written after [=] or glued to [-h], or an option string the
    parser does not know (both ['O']), or the separator [--] (['-']). *)
Inductive word : Type :=
| Argument (arg_string : string)
| OptionString (option_string : string) (explicit_arg : option string)
| UnknownOption (arg_string : string)
| Dashes.

(** [_parse_optional]; [None] when the string is ambiguous, where
    [argparse] calls [parser.error]. *)
Definition parse_optional (arg_string : string) : option word :=
  match arg_string with
  | EmptyString => Some (Argument arg_string)
  | String c rest =>
      if negb (Ascii.eqb c "-") then Some (Argument arg_string)
      else if mem arg_string option_strings then Some (OptionString arg_string None)
      else if String.eqb rest EmptyString then Some (Argument arg_string)
      else
        let (option_string, explicit_arg) := split_eq arg_string in
        if has_explicit_arg explicit_arg && mem option_string option_strings
        then Some (OptionString option_string explicit_arg)
        else
          match get_option_tuples arg_string with
          | _ :: _ :: _ => None
          | [(option_string, explicit_arg)] => Some (OptionString option_string explicit_arg)
          | [] =>
              if negative_number arg_string then Some (Argument arg_string)
              else if contains " " arg_string then Some (Argument arg_string)
              else Some (UnknownOption arg_string)
          end
  end.

(** The pattern of the command line: every string after the first [--] is
    an argument. *)
Fixpoint classify (arg_strings : list string) : option (list word) :=
  match arg_strings with
  | [] => Some []
  | arg_string :: rest =>
      if String.eqb arg_string "--" then Some (Dashes :: List.map Argument rest)
      else
        match parse_optional arg_string, classify rest with
        | Some w, Some ws => Some (w :: ws)
        | _, _ => None
        end
  end.

(** An option that takes one argument ([nargs=None]). *)
Definition takes_value (option_string : string) : bool :=
  mem option_string option_strings
  && negb (is_help option_string) && negb (is_store_true option_string).

(** [-hh]: after an option of a single dash that takes no argument, the
    rest of the string is read as further such options, and [-h] is the
    only one. *)
Fixpoint only_h (explicit_arg : string) : bool :=
  match explicit_arg with
  | EmptyString => true
  | String c rest => Ascii.eqb c "h" && only_h rest
  end.

(** The option that still waits for its argument, when what follows is
    none: [argparse] reports [expected one argument]. *)
Definition unanswered (awaiting : option string) : list arg :=
  match awaiting with
  | Some option_string => [Flag option_string]
  | None => []
  end.

(** [consume_optional] and [consume_positionals], from left to right.
    [awaiting] is the option whose argument comes next, and [seen] tells
    that the positional [action] has taken its argument.  An option takes
    the next string when it is an argument; the positional takes the first
    argument no option has taken, together with a [--] that follows it at
    once or comes before it; a [--] nothing takes is left over, as is any
    other argument. *)
Fixpoint pair_from (awaiting : option string) (seen : bool) (ws : list word) : list arg :=
  match ws with
  | [] => unanswered awaiting
  | Argument arg_string :: rest =>
      match awaiting with
      | Some option_string => FlagValue option_string arg_string :: pair_from None seen rest
      | None =>
          Positional arg_string
          :: match seen, rest with
             | false, Dashes :: rest' => pair_from None true rest'
             | _, _ => pair_from None true rest
             end
      end
  | OptionString option_string None :: rest =>
      unanswered awaiting
      ++ (if takes_value option_string then pair_from (Some option_string) seen rest
          else Flag option_string :: pair_from None seen rest)
  | OptionString option_string (Some explicit_arg) :: rest =>
      unanswered awaiting
      ++ (if String.eqb option_string "-h" && negb (String.eqb explicit_arg EmptyString)
             && only_h explicit_arg
          then Flag option_string
          else FlagValue option_string explicit_arg)
         :: pair_from None seen rest
  | UnknownOption arg_string :: rest =>
      unanswered awaiting ++ Flag arg_string :: pair_from None seen rest
  | Dashes :: rest =>
      unanswered awaiting
      ++ match seen, rest with
         | false, _ :: _ => pair_from None seen rest
         | _, _ => Positional "--" :: pair_from None seen rest
         end
  end.

(** [--tags=--]: [_get_values] removes the [--] and stores what is left,
    the empty list, where the code expects a string. *)
Definition stores_a_list (w : word) : bool :=
  match w with
  | OptionString option_string (Some explicit_arg) =>
      takes_value option_string && String.eqb explicit_arg "--"
  | _ => false
  end.

(** What [argparse] makes of [sys.argv[1:]]: the command line as
    [parse_args] reads it; or an ambiguous option string, which ends the
    process with 2 before anything is read; or a namespace that holds a
    list for a string, which this development does not follow further. *)
Inductive command_line : Type :=
| Paired (argv : list arg)
| AmbiguousOption
| ListValued.

Definition read_argv (arg_strings : list string) : command_line :=
  match classify arg_strings with
  | None => AmbiguousOption
  | Some ws =>
      if existsb stores_a_list ws then ListValued else Paired (pair_from None false ws)
  end.




(** ** The process: state, effects and exceptions *)

Section Wrapper.

Context {S F P : Type} {FS : FileSystem F P} {Sdk : SDK S F}.

(** The state of a run.  [calls] is the trace of the SDK operations invoked
    so far, oldest first; [stdout] holds the lines written so far. *)
Record state : Type := State {
  sdk_state : S;
  fs : F;
  environ : gmap string string;
  stdout : list string;
  calls : list sdk_call
}.

Inductive outcome (A : Type) : Type :=
| Returned (a : A)
| Raised (e : exn).
Arguments Returned {A}.
Arguments Raised {A}.

(** A piece of Python code: from a state it returns a value or raises, and
    leaves a state. *)
Definition M (A : Type) : Type := state -> outcome A * state.

#[local] Instance M_ret : MRet M := fun A a st => (Returned a, st).

#[local] Instance M_bind : MBind M := fun A B k m st =>
  match m st with
  | (Returned a, st') => k a st'
  | (Raised e, st') => (Raised e, st')
  end.

Definition raise {A} (e : exn) : M A := fun st => (Raised e, st).

Definition lift {A} (r : exn + A) : M A :=
  match r with
  | inl e => raise e
  | inr a => mret a
  end.

(** A call to the SDK: recorded in the trace, its output lines reach
    standard output, and the service moves to its next state. *)
Definition call {A} (c : sdk_call) (op : S -> reply S A) : M A := fun st =>
  let r := op (sdk_state st) in
  lift (r_result r)
       {| sdk_state := r_next r; fs := fs st; environ := environ st;
          stdout := stdout st ++ r_log r; calls := calls st ++ [c] |}.

(** [dataset.get_local_copy(target_folder=...)], which also writes the files. *)
Definition call_get_local_copy (d : Dataset) (target_folder : string) : M string := fun st =>
  let r := get_local_copy d target_folder (fs st) (sdk_state st) in
  let st' f := {| sdk_state := r_next r; fs := f; environ := environ st;
                  stdout := stdout st ++ r_log r;
                  calls := calls st ++ [CallGetLocalCopy d target_folder] |} in
  match r_result r with
  | inl e => (Raised e, st' (fs st))
  | inr (local_path, f) => (Returned local_path, st' f)
  end.

(** A query of the filesystem. *)
Definition query {A} (q : F -> exn + A) : M A := fun st => lift (q (fs st)) st.

(** Iterating the generator [path.rglob("*")]. *)
Definition query_rglob (path : P) : M (list P * option exn) := fun st =>
  (Returned (rglob (fs st) path), st).

(** [os.environ.get(key, default)] *)
Definition environ_get (key fallback : string) : M string := fun st =>
  (Returned (default fallback (environ st !! key)), st).

(** [os.environ[key] = value] *)
Definition environ_set (key value : string) (st : state) : state :=
  {| sdk_state := sdk_state st; fs := fs st; environ := <[key := value]> (environ st);
     stdout := stdout st; calls := calls st |}.

(** [print(text, flush=True)] *)
Definition print (text : string) (st : state) : state :=
  {| sdk_state := sdk_state st; fs := fs st; environ := environ st;
     stdout := stdout st ++ lines text; calls := calls st |}.

(** The envelope of a failure. *)
Definition error_envelope (msg : string) : json :=
  JDict [("success", JBool false); ("error", JStr msg)].

(** [try: body  except Exception as e: return {"success": False, "error": str(e)}] *)
Definition try_except (body : M json) : M json := fun st =>
  match body st with
  | (Raised e, st') =>
      if exn_is_Exception e then (Returned (error_envelope (exn_str e)), st')
      else (Raised e, st')
  | (Returned v, st') => (Returned v, st')
  end.

(** ** setup_credentials *)

Definition setup_credentials (api_host web_host files_host access_key secret_key : string)
    (st : state) : state :=
  environ_set "CLEARML_CONFIG_FILE" ""
    (environ_set "CLEARML_API_SECRET_KEY" secret_key
      (environ_set "CLEARML_API_ACCESS_KEY" access_key
        (environ_set "CLEARML_FILES_HOST" files_host
          (environ_set "CLEARML_WEB_HOST" web_host
            (environ_set "CLEARML_API_HOST" api_host st))))).

(** The record of one staged or downloaded file. *)
Definition file_record (path name : string) (size : Z) : json :=
  JDict [("path", JStr path); ("name", JStr name); ("size", JInt size)].

Definition web_url (host id : string) : string := host +:+ "/datasets/" +:+ id.

Definition default_web_host : string := "https://app.clear.ml".

(** ** create_dataset *)

(** The loop over [path.rglob("*")] (lines 89-97): every regular file found
    is recorded with its path relative to [path]. *)
Fixpoint create_dataset_add_dir (path : P) (entries : list P)
    (files_added : list json) (total_size : Z) : M (list json * Z) :=
  match entries with
  | [] => mret (files_added, total_size)
  | file_path :: rest =>
      regular ← query (fun f => is_file f file_path);
      if regular : bool then
        size ← query (fun f => st_size f file_path);
        rel ← lift (relative_to file_path path);
        create_dataset_add_dir path rest
          (files_added ++ [file_record (path_str file_path) (path_str rel) size])
          (total_size + size)
      else create_dataset_add_dir path rest files_added total_size
  end.

(** The loop over [input_paths] (lines 68-97).  [inl] is the early
    [return] of the path-does-not-exist envelope. *)
Fixpoint create_dataset_add_paths (dataset : Dataset) (input_paths : list string)
    (files_added : list json) (total_size : Z) : M (json + list json * Z) :=
  match input_paths with
  | [] => mret (inr (files_added, total_size))
  | input_path :: rest =>
      let path := Path input_path in
      found ← query (fun f => path_exists f path);
      if negb found then
        mret (inl (error_envelope ("Path does not exist: " +:+ input_path)))
      else
        regular ← query (fun f => is_file f path);
        if regular : bool then
          _ ← call (CallAddFiles dataset (path_str path)) (add_files dataset (path_str path));
          size ← query (fun f => st_size f path);
          create_dataset_add_paths dataset rest
            (files_added ++ [file_record (path_str path) (path_name path) size])
            (total_size + size)
        else
          directory ← query (fun f => is_dir f path);
          if directory : bool then
            _ ← call (CallAddFiles dataset (path_str path)) (add_files dataset (path_str path));
            found_entries ← query_rglob path;
            added ← create_dataset_add_dir path (fst found_entries) files_added total_size;
            _ ← match snd found_entries with Some e => raise e | None => mret tt end;
            create_dataset_add_paths dataset rest (fst added) (snd added)
          else create_dataset_add_paths dataset rest files_added total_size
  end.

(** Lines 63-97: [files_added = []], [total_size = 0], [if input_paths: ...]. *)
Definition create_dataset_stage (dataset : Dataset) (input_paths : option (list string))
    : M (json + list json * Z) :=
  if truthy_list input_paths
  then create_dataset_add_paths dataset (list_or_empty input_paths) [] 0
  else mret (inr ([], 0)).

Definition create_dataset_kwargs (name : string) (project : option string)
    (tags : option (list string)) (descr output : option string) : create_kwargs :=
  {| kw_dataset_name := name;
     kw_dataset_project := str_or project "datasets";
     kw_parent_datasets := None;
     kw_dataset_tags := list_or_empty tags;
     kw_description := str_or descr "Created by ClearPipe";
     kw_output_uri := output |}.

(** The body of the [try] of [create_dataset]. *)
Definition create_dataset_body (name : string) (project : option string)
    (input_paths : option (list string)) (tags : option (list string))
    (descr output : option string) : M json :=
  let kw := create_dataset_kwargs name project tags descr output in
  dataset ← call (CallCreate kw) (Dataset_create kw);
  staged ← create_dataset_stage dataset input_paths;
  match staged with
  | inl envelope => mret envelope
  | inr (files_added, total_size) =>
      _ ← call (CallUpload dataset) (upload dataset);
      _ ← call (CallFinalize dataset) (finalize dataset);
      host ← environ_get "CLEARML_WEB_HOST" default_web_host;
      mret (JDict [("success", JBool true);
                   ("datasetId", JStr (ds_id dataset));
                   ("datasetName", JStr name);
                   ("datasetProject", JStr (str_or project "datasets"));
                   ("filesAdded", JInt (Z.of_nat (length files_added)));
                   ("totalSize", JInt total_size);
                   ("files", JList (firstn 20 files_added));
                   ("webUrl", JStr (web_url host (ds_id dataset)))])
  end.

Definition create_dataset (name : string) (project : option string)
    (input_paths : option (list string)) (tags : option (list string))
    (descr output : option string) : M json :=
  try_except (create_dataset_body name project input_paths tags descr output).

(** ** create_version *)

(** Lines 184-192, the walk of a directory inside [create_version]. *)
Fixpoint create_version_add_dir (path : P) (entries : list P)
    (files_added : list json) (total_size : Z) : M (list json * Z) :=
  match entries with
  | [] => mret (files_added, total_size)
  | file_path :: rest =>
      regular ← query (fun f => is_file f file_path);
      if regular : bool then
        size ← query (fun f => st_size f file_path);
        rel ← lift (relative_to file_path path);
        create_version_add_dir path rest
          (files_added ++ [file_record (path_str file_path) (path_str rel) size])
          (total_size + size)
      else create_version_add_dir path rest files_added total_size
  end.

(** Lines 165-192, the loop over [input_paths] inside [create_version]. *)
Fixpoint create_version_add_paths (new_dataset : Dataset) (input_paths : list string)
    (files_added : list json) (total_size : Z) : M (json + list json * Z) :=
  match input_paths with
  | [] => mret (inr (files_added, total_size))
  | input_path :: rest =>
      let path := Path input_path in
      found ← query (fun f => path_exists f path);
      if negb found then
        mret (inl (error_envelope ("Path does not exist: " +:+ input_path)))
      else
        regular ← query (fun f => is_file f path);
        if regular : bool then
          _ ← call (CallAddFiles new_dataset (path_str path))
                   (add_files new_dataset (path_str path));
          size ← query (fun f => st_size f path);
          create_version_add_paths new_dataset rest
            (files_added ++ [file_record (path_str path) (path_name path) size])
            (total_size + size)
        else
          directory ← query (fun f => is_dir f path);
          if directory : bool then
            _ ← call (CallAddFiles new_dataset (path_str path))
                     (add_files new_dataset (path_str path));
            found_entries ← query_rglob path;
            added ← create_version_add_dir path (fst found_entries) files_added total_size;
            _ ← match snd found_entries with Some e => raise e | None => mret tt end;
            create_version_add_paths new_dataset rest (fst added) (snd added)
          else create_version_add_paths new_dataset rest files_added total_size
  end.

(** Lines 160-192. *)
Definition create_version_stage (new_dataset : Dataset) (input_paths : option (list string))
    : M (json + list json * Z) :=
  if truthy_list input_paths
  then create_version_add_paths new_dataset (list_or_empty input_paths) [] 0
  else mret (inr ([], 0)).

(** The [if id: ... elif name: ... else: return ...] that opens
    [create_version], [download_dataset] and [get_dataset_info]: the lookup
    to make, if any. *)
Definition lookup_kwargs (id name project : option string) : option get_kwargs :=
  if truthy_str id then Some (ById (default "" id))
  else if truthy_str name then Some (ByName (default "" name) project)
  else None.

Definition create_version_kwargs (parent : Dataset) (tags : option (list string))
    (descr : option string) : create_kwargs :=
  {| kw_dataset_name := ds_name parent;
     kw_dataset_project := ds_project parent;
     kw_parent_datasets := Some [ds_id parent];
     kw_dataset_tags := list_or_empty tags;
     kw_description := str_or descr "New version created by ClearPipe";
     kw_output_uri := None |}.

(** The body of the [try] of [create_version]. *)
Definition create_version_body (parent_id parent_name parent_project : option string)
    (input_paths : option (list string)) (tags : option (list string))
    (descr : option string) : M json :=
  match lookup_kwargs parent_id parent_name parent_project with
  | None => mret (error_envelope "Either parent_id or parent_name is required")
  | Some lookup =>
      found ← call (CallGet lookup) (Dataset_get lookup);
      match found with
      | None => mret (error_envelope "Parent dataset not found")
      | Some parent_dataset =>
          let kw := create_version_kwargs parent_dataset tags descr in
          new_dataset ← call (CallCreate kw) (Dataset_create kw);
          staged ← create_version_stage new_dataset input_paths;
          match staged with
          | inl envelope => mret envelope
          | inr (files_added, total_size) =>
              _ ← call (CallUpload new_dataset) (upload new_dataset);
              _ ← call (CallFinalize new_dataset) (finalize new_dataset);
              host ← environ_get "CLEARML_WEB_HOST" default_web_host;
              mret (JDict [("success", JBool true);
                           ("datasetId", JStr (ds_id new_dataset));
                           ("parentId", JStr (ds_id parent_dataset));
                           ("datasetName", JStr (ds_name new_dataset));
                           ("datasetProject", JStr (ds_project new_dataset));
                           ("filesAdded", JInt (Z.of_nat (length files_added)));
                           ("totalSize", JInt total_size);
                           ("files", JList (firstn 20 files_added));
                           ("webUrl", JStr (web_url host (ds_id new_dataset)))])
          end
      end
  end.

Definition create_version (parent_id parent_name parent_project : option string)
    (input_paths : option (list string)) (tags : option (list string))
    (descr : option string) : M json :=
  try_except (create_version_body parent_id parent_name parent_project input_paths tags descr).

(** ** download_dataset *)

(** Lines 253-259: the files of the local copy. *)
Fixpoint download_dataset_walk (path : P) (entries : list P) (files_downloaded : list json)
    : M (list json) :=
  match entries with
  | [] => mret files_downloaded
  | file_path :: rest =>
      regular ← query (fun f => is_file f file_path);
      if regular : bool then
        rel ← lift (relative_to file_path path);
        size ← query (fun f => st_size f file_path);
        download_dataset_walk path rest
          (files_downloaded ++ [file_record (path_str file_path) (path_str rel) size])
      else download_dataset_walk path rest files_downloaded
  end.

(** [output_path or str(Path.cwd() / "data" / "downloaded" / dataset.name)] *)
Definition download_target (output_path : option string) (dataset : Dataset) : M string :=
  if truthy_str output_path then mret (default "" output_path)
  else
    here ← query cwd;
    mret (path_str (path_div (path_div (path_div here "data") "downloaded") (ds_name dataset))).

(** The body of the [try] of [download_dataset]. *)
Definition download_dataset_body (dataset_id dataset_name dataset_project output_path
    : option string) : M json :=
  match lookup_kwargs dataset_id dataset_name dataset_project with
  | None => mret (error_envelope "Either dataset_id or dataset_name is required")
  | Some lookup =>
      found ← call (CallGet lookup) (Dataset_get lookup);
      match found with
      | None => mret (error_envelope "Dataset not found")
      | Some dataset =>
          target_path ← download_target output_path dataset;
          local_path ← call_get_local_copy dataset target_path;
          let path := Path local_path in
          found_path ← query (fun f => path_exists f path);
          files_downloaded ←
            (if found_path : bool then
               found_entries ← query_rglob path;
               files ← download_dataset_walk path (fst found_entries) [];
               _ ← match snd found_entries with Some e => raise e | None => mret tt end;
               mret files
             else mret []);
          mret (JDict [("success", JBool true);
                       ("datasetId", JStr (ds_id dataset));
                       ("datasetName", JStr (ds_name dataset));
                       ("localPath", JStr local_path);
                       ("filesDownloaded", JInt (Z.of_nat (length files_downloaded)));
                       ("files", JList (firstn 20 files_downloaded))])
      end
  end.

Definition download_dataset (dataset_id dataset_name dataset_project output_path
    : option string) : M json :=
  try_except (download_dataset_body dataset_id dataset_name dataset_project output_path).

(** ** list_datasets *)

(** [ds_info.get(key)] and [ds_info.get(key, [])] on a record of the SDK. *)
Definition record_get (ds_info : gmap string json) (key : string) : json :=
  default JNull (ds_info !! key).

Definition record_get_or (ds_info : gmap string json) (key : string) (d : json) : json :=
  default d (ds_info !! key).

(** Lines 292-299: the six fields kept from a record. *)
Definition project_record (ds_info : gmap string json) : json :=
  JDict [("id", record_get ds_info "id");
         ("name", record_get ds_info "name");
         ("project", record_get ds_info "project");
         ("tags", record_get_or ds_info "tags" (JList []));
         ("created", record_get ds_info "created");
         ("version", record_get ds_info "version")].

(** The body of the [try] of [list_datasets]. *)
Definition list_datasets_body (project : option string) (tags : option (list string))
    (only_completed : bool) : M json :=
  datasets ← call (CallListDatasets project tags only_completed)
                  (Dataset_list_datasets project tags only_completed);
  let dataset_list := List.map project_record datasets in
  mret (JDict [("success", JBool true);
               ("count", JInt (Z.of_nat (length dataset_list)));
               ("datasets", JList dataset_list)]).

Definition list_datasets (project : option string) (tags : option (list string))
    (only_completed : bool) : M json :=
  try_except (list_datasets_body project tags only_completed).

(** ** get_dataset_info *)

Definition tags_json (tags : list string) : json := JList (List.map JStr tags).

(** Lines 343-347: one record per listed entry. *)
Fixpoint get_dataset_info_files (dataset : Dataset) (entries : list string) (files : list json)
    : M (list json) :=
  match entries with
  | [] => mret files
  | entry :: rest =>
      size ← (if ds_has_get_file_size dataset
              then call (CallGetFileSize dataset entry) (get_file_size dataset entry)
              else mret JNull);
      get_dataset_info_files dataset rest
        (files ++ [JDict [("path", JStr entry); ("size", size)]])
  end.

(** The body of the [try] of [get_dataset_info]. *)
Definition get_dataset_info_body (dataset_id dataset_name dataset_project : option string)
    : M json :=
  match lookup_kwargs dataset_id dataset_name dataset_project with
  | None => mret (error_envelope "Either dataset_id or dataset_name is required")
  | Some lookup =>
      found ← call (CallGet lookup) (Dataset_get lookup);
      match found with
      | None => mret (error_envelope "Dataset not found")
      | Some dataset =>
          file_entries ← call (CallListFiles dataset) (list_files dataset);
          files ← get_dataset_info_files dataset (firstn 50 file_entries) [];
          final ← call (CallIsFinal dataset) (is_final dataset);
          host ← environ_get "CLEARML_WEB_HOST" default_web_host;
          mret (JDict [("success", JBool true);
                       ("datasetId", JStr (ds_id dataset));
                       ("datasetName", JStr (ds_name dataset));
                       ("project", JStr (ds_project dataset));
                       ("tags", tags_json (ds_tags dataset));
                       ("fileCount", JInt (Z.of_nat (length file_entries)));
                       ("files", JList files);
                       ("isFinalized", JBool final);
                       ("webUrl", JStr (web_url host (ds_id dataset)))])
      end
  end.

Definition get_dataset_info (dataset_id dataset_name dataset_project : option string)
    : M json :=
  try_except (get_dataset_info_body dataset_id dataset_name dataset_project).

(** ** The regular files of a directory *)

(** [file_path.is_file()] answered [True]. *)
Definition is_regular (f : F) (p : P) : bool :=
  match is_file f p with
  | inr true => true
  | _ => false
  end.

(** The regular files among the entries found under a directory. *)
Definition regular_files (f : F) (entries : list P) : list P :=
  List.filter (is_regular f) entries.

(** The regular files an input path stands for: the path itself when it
    is a regular file, the regular files found under it when it is a
    directory. *)
Definition staged_files (f : F) (input_path : string) : list P :=
  let path := Path input_path in
  match is_file f path with
  | inr true => [path]
  | _ => match is_dir f path with
         | inr true => regular_files f (fst (rglob f path))
         | _ => []
         end
  end.

(** [m] leaves the filesystem and the environment as they are, and the SDK
    operations it invokes are not [upload]. *)
Definition stages {A} (m : M A) : Prop :=
  forall st r st', m st = (r, st') ->
    fs st' = fs st /\ environ st' = environ st
    /\ exists new, calls st' = calls st ++ new /\ existsb is_upload new = false.


(** ** The vocabulary of the properties *)

(** Between two states of a run, [upload] was not invoked. *)
Definition no_upload_between (st st' : state) : Prop :=
  exists new, calls st' = calls st ++ new /\ existsb is_upload new = false.

(** The outcome reports no success: a failure envelope, or an exception
    that [except Exception] lets through. *)
Definition reports_failure (r : outcome json) : Prop :=
  match r with
  | Returned envelope => dict_get "success" envelope = Some (JBool false)
  | Raised e => exn_is_Exception e = false
  end.

(** [f] turns what its body does into an envelope: a returned envelope is
    returned, an exception that derives from [Exception] becomes the
    failure envelope of its message, and any other exception goes on to
    the caller. *)
Definition converts_exceptions (body f : M json) : Prop :=
  forall st r st', body st = (r, st') ->
    f st = (match r with
            | Returned envelope => Returned envelope
            | Raised e =>
                if exn_is_Exception e then Returned (error_envelope (exn_str e)) else Raised e
            end, st').

(** No exception that derives from [Exception] leaves [f]. *)
Definition propagates_no_Exception (f : M json) : Prop :=
  forall st e st', f st = (Raised e, st') -> exn_is_Exception e = false.

(** Whatever [m] returns is a JSON object. *)
Definition returns_envelope (m : M json) : Prop :=
  forall st v st', m st = (Returned v, st') -> exists fields, v = JDict fields.

(** ** main *)

(** The text [parser.print_help()] writes for [-h]; [argparse] formats it. *)
Variable help_message : string.

(** Lines 370-374. *)
Definition sdk_missing_envelope : json :=
  JDict [("success", JBool false);
         ("error", JStr "ClearML SDK not installed. Install with: pip install clearml");
         ("installCommand", JStr "pip install clearml")].

(** Lines 426-479: the checks of the arguments and the dispatch. *)
Definition execute_action (args : argparse.Namespace) : M json :=
  let action := argparse.action args in
  if String.eqb action "create" then
    if negb (truthy_str (argparse.dataset_name args)) then
      mret (error_envelope "Dataset name is required for create action")
    else if negb (truthy_list (argparse.input_paths args)) then
      mret (error_envelope "At least one input path is required for create action")
    else
      create_dataset (default "" (argparse.dataset_name args)) (argparse.dataset_project args)
        (argparse.input_paths args) (argparse.tags args) (argparse.description args)
        (argparse.output_uri args)
  else if String.eqb action "version" then
    if negb (truthy_str (argparse.dataset_id args))
       && negb (truthy_str (argparse.dataset_name args)) then
      mret (error_envelope "Dataset ID or name is required for version action")
    else if negb (truthy_list (argparse.input_paths args)) then
      mret (error_envelope "At least one input path is required for version action")
    else
      create_version (argparse.dataset_id args) (argparse.dataset_name args)
        (argparse.dataset_project args) (argparse.input_paths args) (argparse.tags args)
        (argparse.description args)
  else if String.eqb action "download" then
    download_dataset (argparse.dataset_id args) (argparse.dataset_name args)
      (argparse.dataset_project args) (argparse.output_path args)
  else if String.eqb action "list" then
    list_datasets (argparse.dataset_project args) (argparse.tags args)
      (argparse.only_completed args)
  else if String.eqb action "info" then
    get_dataset_info (argparse.dataset_id args) (argparse.dataset_name args)
      (argparse.dataset_project args)
  else mret (error_envelope ("Unknown action: " +:+ action)).

(** [0 if result.get("success") else 1] *)
Definition exit_code (result : json) : Z :=
  if truthy (dict_get "success" result) then 0 else 1.

(** Lines 483-485. *)
Definition print_result (result : json) (st : state) : state :=
  print END_MARKER (print (dumps_indent2 result) (print START_MARKER st)).

(** A run of the script on a command line.  A rejected command line makes
    [argparse] write its usage to standard error and exit with 2; [-h]
    makes it print the help and exit with 0. *)
Definition main (imported : import_result) (argv : list arg) (st : state)
    : exit_status * state :=
  if negb (CLEARML_AVAILABLE imported) then
    (Exit 1, print (dumps sdk_missing_envelope) st)
  else
    match parse_args argv with
    | ParseHelp => (Exit 0, print help_message st)
    | ParseError => (Exit 2, st)
    | ParseOk args =>
        let st1 := setup_credentials (argparse.api_host args) (argparse.web_host args)
                     (argparse.files_host args) (argparse.access_key args)
                     (argparse.secret_key args) st in
        match execute_action args st1 with
        | (Raised e, st2) => (Uncaught e, st2)
        | (Returned result, st2) => (Exit (exit_code result), print_result result st2)
        end
    end.

(** [main()] on [sys.argv[1:]]: line 369 comes before the parser.  [None]
    where the namespace would hold a list for a string. *)
Definition main_argv (imported : import_result) (arg_strings : list string) (st : state)
    : option (exit_status * state) :=
  if negb (CLEARML_AVAILABLE imported) then
    Some (Exit 1, print (dumps sdk_missing_envelope) st)
  else
    match read_argv arg_strings with
    | Paired argv => Some (main imported argv st)
    | AmbiguousOption => Some (Exit 2, st)
    | ListValued => None
    end.

(** The module run as a script: the import of lines 24-28, then [main()]
    (lines 489-490).  An exception the import lets through ends the
    process before [main] is called. *)
Definition clearml_wrapper (attempt : import_attempt) (arg_strings : list string) (st : state)
    : option (exit_status * state) :=
  match import_guard attempt with
  | inl e => Some (Uncaught e, st)
  | inr imported => main_argv imported arg_strings st
  end.

End Wrapper.

Arguments Returned {A}.
Arguments Raised {A}.
Arguments state : clear implicits.
Arguments State {S F}.

(** ** A small world for the examples *)

Module Toy.

(** A filesystem without links: a tree of named entries.  [Special] is an
    entry that exists and is neither a regular file nor a directory (a
    socket, a device). *)
#[local] Unset Elimination Schemes.
Inductive node : Type :=
| File (size : Z)
| Dir (entries : list (string * node))
| Special.
#[local] Set Elimination Schemes.

(** A [Path] object: whether it is absolute, and its components. *)
Record path : Type := MkPath {
  absolute : bool;
  parts : list string
}.

(** The pieces of a string between occurrences of [sep]. *)
Fixpoint split_on (sep : ascii) (s : string) : list string :=
  match s with
  | EmptyString => [""]
  | String c rest =>
      if Ascii.eqb c sep then "" :: split_on sep rest
      else match split_on sep rest with
           | l :: ls => String c l :: ls
           | [] => [String c ""]
           end
  end.

Definition is_component (s : string) : bool :=
  negb (String.eqb s "") && negb (String.eqb s ".").

Definition components (s : string) : list string :=
  List.filter is_component (split_on "/" s).

Definition toy_Path (s : string) : path :=
  {| absolute := String.prefix "/" s; parts := components s |}.

Definition toy_str (p : path) : string :=
  match absolute p, parts p with
  | false, [] => "."
  | false, ps => join "/" ps
  | true, ps => "/" +:+ join "/" ps
  end.

Definition toy_name (p : path) : string := List.last (parts p) "".

Definition toy_div (p : path) (s : string) : path :=
  if String.prefix "/" s then toy_Path s
  else {| absolute := absolute p; parts := parts p ++ components s |}.

Fixpoint strip_prefix (base l : list string) : option (list string) :=
  match base, l with
  | [], _ => Some l
  | b :: base', x :: l' => if String.eqb b x then strip_prefix base' l' else None
  | _ :: _, [] => None
  end.

Definition ValueError (msg : string) : exn := Exn true msg.
Definition FileNotFoundError (p : path) : exn :=
  Exn true ("[Errno 2] No such file or directory: '" +:+ toy_str p +:+ "'").

Definition toy_relative_to (p base : path) : exn + path :=
  match strip_prefix (parts base) (parts p) with
  | Some l =>
      if Bool.eqb (absolute p) (absolute base) then inr {| absolute := false; parts := l |}
      else inl (ValueError "path is not in the subpath of the other")
  | None => inl (ValueError "path is not in the subpath of the other")
  end.

Fixpoint find_entry (name : string) (entries : list (string * node)) : option node :=
  match entries with
  | [] => None
  | (n, child) :: rest => if String.eqb n name then Some child else find_entry name rest
  end.

(** Walking from the root; [above] holds the directories entered, nearest
    first, for the component [..]. *)
Fixpoint walk (above : list node) (here : node) (ps : list string) : option node :=
  match ps with
  | [] => Some here
  | p :: rest =>
      match here with
      | Dir entries =>
          if String.eqb p ".." then
            match above with
            | [] => walk [] here rest
            | up :: above' => walk above' up rest
            end
          else
            match find_entry p entries with
            | Some child => walk (here :: above) child rest
            | None => None
            end
      | _ => None
      end
  end.

(** The working directory is the root, so a relative and an absolute path
    with the same components name the same entry. *)
Definition lookup (root : node) (p : path) : option node := walk [] root (parts p).

Definition toy_exists (root : node) (p : path) : exn + bool :=
  inr (match lookup root p with Some _ => true | None => false end).

Definition toy_is_file (root : node) (p : path) : exn + bool :=
  inr (match lookup root p with Some (File _) => true | _ => false end).

Definition toy_is_dir (root : node) (p : path) : exn + bool :=
  inr (match lookup root p with Some (Dir _) => true | _ => false end).

Definition toy_st_size (root : node) (p : path) : exn + Z :=
  match lookup root p with
  | Some (File size) => inr size
  | Some _ => inr 4096
  | None => inl (FileNotFoundError p)
  end.

(** Everything below a node, in the order of [rglob("*")]: the entries of
    a directory, then what is below each of them in turn. *)
Fixpoint descendants (prefix : list string) (n : node) : list (list string) :=
  match n with
  | Dir entries =>
      List.map (fun e => prefix ++ [fst e]) entries
      ++ (fix each (l : list (string * node)) : list (list string) :=
            match l with
            | [] => []
            | (name, child) :: rest => descendants (prefix ++ [name]) child ++ each rest
            end) entries
  | _ => []
  end.

Definition toy_rglob (root : node) (p : path) : list path * option exn :=
  match lookup root p with
  | Some n => (List.map (MkPath (absolute p)) (descendants (parts p) n), None)
  | None => ([], None)
  end.

(** The regular files of a subtree, by the shape of the tree: how many,
    how many bytes, and which, each with its path below [prefix] and its
    size. *)
Fixpoint count_files (n : node) : nat :=
  match n with
  | File _ => 1%nat
  | Dir entries =>
      (fix each (l : list (string * node)) : nat :=
         match l with
         | [] => 0%nat
         | (_, child) :: rest => (count_files child + each rest)%nat
         end) entries
  | Special => 0%nat
  end.

Fixpoint total_bytes (n : node) : Z :=
  match n with
  | File size => size
  | Dir entries =>
      (fix each (l : list (string * node)) : Z :=
         match l with
         | [] => 0
         | (_, child) :: rest => total_bytes child + each rest
         end) entries
  | Special => 0
  end.

(** The regular files a directory holds itself. *)
Fixpoint files_here (prefix : list string) (entries : list (string * node))
    : list (list string * Z) :=
  match entries with
  | [] => []
  | (name, File size) :: rest => (prefix ++ [name], size) :: files_here prefix rest
  | _ :: rest => files_here prefix rest
  end.

Fixpoint files_below (prefix : list string) (n : node) : list (list string * Z) :=
  match n with
  | Dir entries =>
      files_here prefix entries
      ++ (fix each (l : list (string * node)) : list (list string * Z) :=
            match l with
            | [] => []
            | (name, child) :: rest => files_below (prefix ++ [name]) child ++ each rest
            end) entries
  | _ => []
  end.

(** The regular files among some paths, each with its size. *)
Fixpoint files_among (look : list string -> option node) (paths : list (list string))
    : list (list string * Z) :=
  match paths with
  | [] => []
  | q :: rest =>
      match look q with
      | Some (File size) => (q, size) :: files_among look rest
      | _ => files_among look rest
      end
  end.

(** A directory holds no two entries of one name, and none named [..]. *)
#[local] Unset Elimination Schemes.
Inductive well_formed : node -> Prop :=
| wf_file (size : Z) : well_formed (File size)
| wf_special : well_formed Special
| wf_dir (entries : list (string * node)) :
    NoDup (List.map fst entries) ->
    Forall (fun e => fst e <> "..") entries ->
    Forall (fun e => well_formed (snd e)) entries ->
    well_formed (Dir entries).
#[local] Set Elimination Schemes.

(** Components that name entries, none of them [..]. *)
Definition plain (rel : list string) : Prop := Forall (fun c => c <> "..") rel.

#[global] Instance toy_fs : FileSystem node path := {|
  Path := toy_Path;
  path_str := toy_str;
  path_name := toy_name;
  path_div := toy_div;
  relative_to := toy_relative_to;
  cwd := fun _ => inr {| absolute := true; parts := [] |};
  path_exists := toy_exists;
  is_file := toy_is_file;
  is_dir := toy_is_dir;
  st_size := toy_st_size;
  rglob := toy_rglob
|}.

(** A scripted SDK: what each operation answers, and the lines it logs.
    The service never changes state. *)
Record script : Type := {
  on_create : exn + Dataset;
  on_get : exn + option Dataset;
  on_list_datasets : exn + list (gmap string json);
  on_add_files : exn + unit;
  on_upload : exn + unit;
  on_list_files : exn + list string;
  noise : list string
}.

#[global] Instance toy_sdk : SDK script node := {|
  Dataset_create := fun _ s => Reply (on_create s) (noise s) s;
  Dataset_get := fun _ s => Reply (on_get s) [] s;
  Dataset_list_datasets := fun _ _ _ s => Reply (on_list_datasets s) [] s;
  add_files := fun _ _ s => Reply (on_add_files s) [] s;
  upload := fun _ s => Reply (on_upload s) (noise s) s;
  finalize := fun _ s => Reply (inr tt) [] s;
  get_local_copy := fun _ target f s => Reply (inr (target, f)) [] s;
  list_files := fun _ s => Reply (on_list_files s) [] s;
  get_file_size := fun _ _ s => Reply (inr JNull) [] s;
  is_final := fun _ s => Reply (inr true) [] s
|}.

Definition a_dataset : Dataset :=
  {| ds_id := "d1"; ds_name := "images"; ds_project := "datasets"; ds_tags := ["raw"];
     ds_has_get_file_size := false |}.

(** The handle of a new version of [a_dataset]. *)
Definition a_version : Dataset :=
  {| ds_id := "d2"; ds_name := "images"; ds_project := "datasets"; ds_tags := [];
     ds_has_get_file_size := false |}.

Definition KeyboardInterrupt : exn := Exn false "".
Definition ConnectionError : exn := Exn true "connection refused".

(** The SDK is installed and its import fails on one of its own modules. *)
Definition AttributeError : exn :=
  Exn true "module 'attr' has no attribute 's'".

(** A service that answers every call. *)
Definition friendly : script :=
  {| on_create := inr a_dataset;
     on_get := inr (Some a_dataset);
     on_list_datasets :=
       inr [ {[ "id" := JStr "d1"; "name" := JStr "images"; "version" := JStr "1.0.0" ]};
             {[ "id" := JStr "d2"; "tags" := JList [JStr "raw"] ]} ];
     on_add_files := inr tt;
     on_upload := inr tt;
     on_list_files := inr ["a.txt"; "sub/b.txt"];
     noise := ["ClearML results page: https://app.clear.ml/projects/1"] |}.

(** [a.txt] (3 bytes), [data/b.txt] (5), [data/sub/c.txt] (7) and a socket. *)
Definition tree : node :=
  Dir [("a.txt", File 3);
       ("data", Dir [("b.txt", File 5); ("sub", Dir [("c.txt", File 7)]); ("sock", Special)])].

Definition start (s : script) : state script node :=
  {| sdk_state := s; fs := tree; environ := ∅; stdout := []; calls := [] |}.

(** The upload is interrupted from the keyboard. *)
Definition interrupted : script :=
  {| on_create := on_create friendly; on_get := on_get friendly;
     on_list_datasets := on_list_datasets friendly; on_add_files := on_add_files friendly;
     on_upload := inl KeyboardInterrupt; on_list_files := on_list_files friendly;
     noise := noise friendly |}.

(** The SDK logs a line that reads like the start marker. *)
Definition echoing : script :=
  {| on_create := on_create friendly; on_get := on_get friendly;
     on_list_datasets := on_list_datasets friendly; on_add_files := on_add_files friendly;
     on_upload := on_upload friendly; on_list_files := on_list_files friendly;
     noise := [START_MARKER] |}.

(** The service knows no dataset. *)
Definition empty_service : script :=
  {| on_create := on_create friendly; on_get := inr None;
     on_list_datasets := inr []; on_add_files := on_add_files friendly;
     on_upload := on_upload friendly; on_list_files := inr [];
     noise := [] |}.

(** The service cannot be reached. *)
Definition offline : script :=
  {| on_create := inl ConnectionError; on_get := inl ConnectionError;
     on_list_datasets := inl ConnectionError; on_add_files := inl ConnectionError;
     on_upload := inl ConnectionError; on_list_files := inl ConnectionError;
     noise := [] |}.

Definition base_argv (action : string) : list arg :=
  [Positional action; FlagValue "--access-key" "AK"; FlagValue "--secret-key" "SK"].

Definition help_text : string := "usage: clearml_wrapper.py [-h] ...".

(** The script on a command line, from the start state. *)
Definition run (imported : import_result) (argv : list arg) (s : script)
    : exit_status * state script node :=
  main help_text imported argv (start s).

(** The namespace of a command line the parser accepts. *)
Definition parsed (argv : list arg) : argparse.Namespace :=
  match parse_args argv with
  | ParseOk args => args
  | _ =>
      {| argparse.action := ""; argparse.api_host := ""; argparse.web_host := "";
         argparse.files_host := ""; argparse.access_key := ""; argparse.secret_key := "";
         argparse.dataset_id := None; argparse.dataset_name := None;
         argparse.dataset_project := None; argparse.input_paths := None;
         argparse.tags := None; argparse.description := None; argparse.output_uri := None;
         argparse.output_path := None; argparse.only_completed := true |}
  end.

(** The state in which the action of a command line starts: the
    credentials are in the environment. *)
Definition ready (argv : list arg) (s : script) : state script node :=
  let args := parsed argv in
  setup_credentials (argparse.api_host args) (argparse.web_host args)
    (argparse.files_host args) (argparse.access_key args) (argparse.secret_key args)
    (start s).

(** The envelope an action returned. *)
Definition returned (r : outcome json * state script node) : json :=
  match fst r with
  | Returned envelope => envelope
  | Raised _ => JNull
  end.


(** [create] of a file and a directory, from the command line. *)
Definition create_two : list arg :=
  base_argv "create"
  ++ [FlagValue "--dataset-name" "x"; FlagValue "--input-path" "a.txt";
      FlagValue "--input-path" "data"].

(** [create] of a file and a directory. *)
Definition created : outcome json * state script node :=
  create_dataset "x" None (Some ["a.txt"; "data"]) None None None (start friendly).

(** [info] on a dataset id. *)
Definition informed : outcome json * state script node :=
  get_dataset_info (Some "d1") None None (start friendly).

(** [list] without filters. *)
Definition listed : outcome json * state script node :=
  list_datasets None None true (start friendly).


(** The service answers [Dataset.create] with the handle of the version. *)
Definition versioning : script :=
  {| on_create := inr a_version; on_get := on_get friendly;
     on_list_datasets := on_list_datasets friendly; on_add_files := on_add_files friendly;
     on_upload := on_upload friendly; on_list_files := on_list_files friendly;
     noise := noise friendly |}.

(** A new version of the dataset [d1], with one more file. *)
Definition versioned : outcome json * state script node :=
  create_version (Some "d1") None None (Some ["a.txt"]) None None (start versioning).

(** [download] of the dataset [d1] into [data]. *)
Definition downloaded : outcome json * state script node :=
  download_dataset (Some "d1") None None (Some "data") (start friendly).

(** The dispatch of [create_two], with the credentials in the environment. *)
Definition dispatched : outcome json * state script node :=
  execute_action (parsed create_two) (ready create_two friendly).

(** The script on [sys.argv[1:]], from the start state. *)
Definition run_argv (attempt : import_attempt) (arg_strings : list string) (s : script)
    : option (exit_status * state script node) :=
  clearml_wrapper help_text attempt arg_strings (start s).

(** [list] with a tag, as the shell hands it over. *)
Definition list_tagged : list string :=
  ["list"; "--access-key"; "AK"; "--secret-key"; "SK"; "--tags"; "x"].


End Toy.

(** ** More vocabulary: what an action calls and what it returns *)

(** The operations that create or change a dataset on the service. *)
Definition mutates (c : sdk_call) : bool :=
  match c with
  | CallCreate _ | CallAddFiles _ _ | CallUpload _ | CallFinalize _ => true
  | _ => false
  end.

Definition is_finalize (c : sdk_call) : bool :=
  match c with
  | CallFinalize _ => true
  | _ => false
  end.

Definition is_get_local_copy (c : sdk_call) : bool :=
  match c with
  | CallGetLocalCopy _ _ => true
  | _ => false
  end.

(** Neither [upload], nor [finalize], nor [get_local_copy]. *)
Definition prepares (c : sdk_call) : bool :=
  negb (is_upload c) && negb (is_finalize c) && negb (is_get_local_copy c).

(** [Dataset.get], [list_datasets], [list_files], [get_file_size] and
    [is_final]: the operations that ask the service and change nothing. *)
Definition asks (c : sdk_call) : bool := negb (mutates c) && negb (is_get_local_copy c).

(** An envelope is either the failure envelope of a message, or a success
    envelope, which holds no [error]. *)
Definition well_shaped (envelope : json) : Prop :=
  (exists msg, envelope = error_envelope msg)
  \/ (dict_get "success" envelope = Some (JBool true) /\ dict_get "error" envelope = None).

(** The calls [new] of a create or of a version, and its outcome [r]:
    [upload] is invoked at most once, [finalize] only directly after an
    [upload], on the same handle and as the last call, and without both
    there is no success. *)
Definition finalize_follows_upload (new : list sdk_call) (r : outcome json) : Prop :=
  exists before,
    existsb is_upload before = false /\ existsb is_finalize before = false
    /\ ((new = before /\ reports_failure r)
        \/ (exists d, new = before ++ [CallUpload d] /\ reports_failure r)
        \/ (exists d, new = before ++ [CallUpload d; CallFinalize d])).

Section MoreVocabulary.

Context {S F P : Type} {FS : FileSystem F P} {Sdk : SDK S F}.

(** [m] leaves the environment as it is, every SDK operation it invokes
    is one of [allowed], and the filesystem changes through
    [get_local_copy] only. *)
Definition only_calls {A} (allowed : sdk_call -> bool) (m : @M S F A) : Prop :=
  forall st r st', m st = (r, st') ->
    environ st' = environ st
    /\ exists new, calls st' = calls st ++ new
                   /\ forallb allowed new = true
                   /\ (existsb is_get_local_copy new = false -> fs st' = fs st).

(** Whatever [m] returns is a well-shaped envelope. *)
Definition returns_well_shaped (m : @M S F json) : Prop :=
  forall st v st', m st = (Returned v, st') -> well_shaped v.

(** [input_path] is a regular file or a directory: the loop over the input
    paths hands it to [add_files]. *)
Definition is_staged (f : F) (input_path : string) : bool :=
  match is_file f (Path input_path) with
  | inr true => true
  | _ => match is_dir f (Path input_path) with
         | inr true => true
         | _ => false
         end
  end.

(** The [add_files] calls of a loop over [input_paths] that completes. *)
Definition add_files_calls (f : F) (dataset : Dataset) (input_paths : list string)
    : list sdk_call :=
  List.map (fun p => CallAddFiles dataset (path_str (Path p)))
    (List.filter (is_staged f) input_paths).

(** The envelope counts every file staged from [input_paths] and lists the
    first 20 of their records, in the order of staging. *)
Definition reports_staged_files (f : F) (input_paths : list string) (envelope : json) : Prop :=
  exists records,
    List.map (dict_get "path") records
    = List.map (fun p => Some (JStr (path_str p)))
        (concat (List.map (staged_files f) input_paths))
    /\ dict_get "filesAdded" envelope = Some (JInt (Z.of_nat (length records)))
    /\ dict_get "files" envelope = Some (JList (firstn 20 records)).

(** The regular files found below [local_path], none when it is not there. *)
Definition files_found (f : F) (local_path : string) : list P :=
  match path_exists f (Path local_path) with
  | inr true => regular_files f (fst (rglob f (Path local_path)))
  | _ => []
  end.

End MoreVocabulary.

(** ** More vocabulary: what a command line gives *)

(** The value [a] gives to the option [option_string], if it does. *)
Definition given (option_string : string) (a : arg) : option string :=
  match a with
  | FlagValue name value =>
      match resolve name with
      | Known o => if String.eqb o option_string then Some value else None
      | _ => None
      end
  | _ => None
  end.

(** The values a command line gives to an option, in order. *)
Definition values_of (option_string : string) (argv : list arg) : list string :=
  omap (given option_string) argv.

(** The positional arguments of a command line, in order. *)
Definition positionals (argv : list arg) : list string :=
  omap (fun a => match a with Positional v => Some v | _ => None end) argv.

(** The option strings of a command line that are not options of the
    parser. *)
Definition unknown_options (argv : list arg) : list string :=
  omap (fun a => match a with
                 | Flag name | FlagValue name _ =>
                     match resolve name with Unknown => Some name | _ => None end
                 | Positional _ => None
                 end) argv.


(** What one argument does to the fields of the three kinds. *)
Definition keep_last (o : string) (old : option string) (a : arg) : option string :=
  match given o a with
  | Some v => Some v
  | None => old
  end.

Definition keep_last_or (o : string) (old : string) (a : arg) : string :=
  default old (given o a).

Definition keep_all (o : string) (old : option (list string)) (a : arg)
    : option (list string) :=
  match given o a with
  | Some v => Some (list_or_empty old ++ [v])
  | None => old
  end.

(** What one argument does to the action and to the arguments no one
    takes. *)
Definition seen (s : option string * list string) (a : arg) : option string * list string :=
  match a with
  | Positional v =>
      match fst s with
      | None => (Some v, snd s)
      | Some _ => (fst s, snd s ++ [v])
      end
  | Flag name | FlagValue name _ =>
      match resolve name with
      | Unknown => (fst s, snd s ++ [name])
      | _ => s
      end
  end.

(** * The test suite (scripts/test_clearml_wrapper.py) *)

(** The text of [lines], as a process that captures standard output
    reads it: every line ends with a line break. *)
Definition captured_text (out : list string) : string :=
  fold_right (fun line text => line +:+ nls +:+ text) "" out.

Module TestSuite.

(** The classes of exception the handlers of the suite tell apart; a
    class stands for its subclasses.  [OtherBaseException] is an exception
    outside [Exception], [OtherException] one inside that is none of the
    three named. *)
Inductive exn_class : Type :=
| ImportError
| SyntaxError
| FileNotFoundError
| OtherException
| OtherBaseException.

Record raised : Type := Raise {
  raised_class : exn_class;
  raised_str : string
}.

Definition is_Exception (e : raised) : bool :=
  match raised_class e with
  | OtherBaseException => false
  | _ => true
  end.

(** What the suite finds around it: whether [from clearml import Dataset,
    Task] raises; what lines 25-27 give ([import ast], opening and reading
    [scripts/clearml_wrapper.py]); what [ast.parse] makes of a source; and
    what [subprocess.run] gives for the wrapper run with [--help], the
    text of its standard output when it returns. *)
Record world : Type := {
  import_clearml : option raised;
  read_source : raised + string;
  ast_parse : string -> option raised;
  run_help : raised + string
}.

Inductive result (A : Type) : Type :=
| Ok (a : A)
| Throws (e : raised).
Arguments Ok {A}.
Arguments Throws {A}.

(** A piece of the suite: it appends lines to standard output, and returns
    or raises. *)
Definition T (A : Type) : Type := list string -> result A * list string.

#[local] Instance T_ret : MRet T := fun A a out => (Ok a, out).

#[local] Instance T_bind : MBind T := fun A B k m out =>
  match m out with
  | (Ok a, out') => k a out'
  | (Throws e, out') => (Throws e, out')
  end.

Definition throw {A} (e : raised) : T A := fun out => (Throws e, out).

(** [print(text)] *)
Definition say (text : string) : T unit := fun out => (Ok tt, out ++ lines text).

Definition utf8 (bytes : list nat) : string :=
  string_of_list_ascii (List.map ascii_of_nat bytes).

(** U+2705, U+274C, and U+26A0 followed by U+FE0F. *)
Definition CHECK_MARK : string := utf8 [226; 156; 133]%nat.
Definition CROSS_MARK : string := utf8 [226; 157; 140]%nat.
Definition WARNING_SIGN : string := utf8 [226; 154; 160; 239; 184; 143]%nat.

(** A byte that continues a character in UTF-8. *)
Definition is_continuation (c : ascii) : bool :=
  (Nat.leb 128 (nat_of_ascii c) && Nat.ltb (nat_of_ascii c) 192)%bool.

(** [s[:n]]: the first [n] characters of a text in UTF-8. *)
Fixpoint take_chars (n : nat) (s : string) : string :=
  match s with
  | EmptyString => ""
  | String c rest =>
      if is_continuation c then String c (take_chars n rest)
      else match n with
           | O => ""
           | Datatypes.S k => String c (take_chars k rest)
           end
  end.

(** [s * n] *)
Fixpoint times (s : string) (n : nat) : string :=
  match n with
  | O => ""
  | Datatypes.S k => s +:+ times s k
  end.

Definition TITLE : string := "ClearML Dataset Wrapper".

(** Lines 11-20. *)
Definition test_clearml_import (w : world) : T bool :=
  match import_clearml w with
  | None =>
      _ ← say (CHECK_MARK +:+ " ClearML SDK imported successfully");
      mret true
  | Some e =>
      match raised_class e with
      | ImportError =>
          _ ← say (CROSS_MARK +:+ " ClearML SDK not installed: " +:+ raised_str e);
          _ ← say (nls +:+ "   Install with: uv pip install clearml");
          mret false
      | _ => throw e
      end
  end.

(** The two handlers of [test_wrapper_syntax] (lines 31-36). *)
Definition syntax_handlers (e : raised) : T bool :=
  match raised_class e with
  | SyntaxError =>
      _ ← say (CROSS_MARK +:+ " Syntax error in clearml_wrapper.py: " +:+ raised_str e);
      mret false
  | FileNotFoundError =>
      _ ← say (CROSS_MARK +:+ " clearml_wrapper.py not found");
      mret false
  | _ => throw e
  end.

(** Lines 22-36. *)
Definition test_wrapper_syntax (w : world) : T bool :=
  match read_source w with
  | inl e => syntax_handlers e
  | inr source =>
      match ast_parse w source with
      | Some e => syntax_handlers e
      | None =>
          _ ← say (CHECK_MARK +:+ " clearml_wrapper.py has valid Python syntax");
          mret true
      end
  end.

(** Lines 38-54. *)
Definition test_wrapper_help (w : world) : T bool :=
  match run_help w with
  | inr text =>
      if contains TITLE text then
        _ ← say (CHECK_MARK +:+ " clearml_wrapper.py --help works correctly");
        mret true
      else
        _ ← say (WARNING_SIGN +:+ " Unexpected help output: " +:+ take_chars 200 text);
        mret false
  | inl e =>
      if is_Exception e then
        _ ← say (CROSS_MARK +:+ " Failed to run wrapper: " +:+ raised_str e);
        mret false
      else throw e
  end.

(** [sum(1 for _, result in results if result)] *)
Definition passed_count (results : list (string * bool)) : nat :=
  length (List.filter snd results).

(** Lines 56-92. *)
Definition main (w : world) : T Z :=
  _ ← say (times "=" 60);
  _ ← say "ClearML Wrapper Test Suite";
  _ ← say (times "=" 60);
  _ ← say "";
  imported ← test_clearml_import w;
  let results := [("ClearML SDK Import", imported)] in
  _ ← say "";
  valid ← test_wrapper_syntax w;
  let results := results ++ [("Wrapper Syntax", valid)] in
  _ ← say "";
  results ← (if imported : bool then
               shown ← test_wrapper_help w;
               _ ← say "";
               mret (results ++ [("Wrapper Help", shown)])
             else mret results);
  _ ← say (times "=" 60);
  _ ← say "Summary";
  _ ← say (times "=" 60);
  let passed := passed_count results in
  let total := length results in
  _ ← say (nls +:+ "Passed: " +:+ dec (Z.of_nat passed) +:+ "/" +:+ dec (Z.of_nat total));
  if Nat.eqb passed total then
    _ ← say (nls +:+ CHECK_MARK +:+ " All tests passed! ClearML wrapper is ready to use.");
    mret 0
  else
    _ ← say (nls +:+ WARNING_SIGN
             +:+ " Some tests failed. Please install missing dependencies.");
    _ ← say "   Run: uv pip install clearml";
    _ ← say "   Or:  uv sync";
    mret 1.

(** The SDK is not installed; the wrapper is there and well formed. *)
Definition no_sdk : world :=
  {| import_clearml := Some (Raise ImportError "No module named 'clearml'");
     read_source := inr "import sys";
     ast_parse := fun _ => None;
     run_help := inr "" |}.

(** What the wrapper prints for [--help], as far as it matters here. *)
Definition help_output : string :=
  "usage: clearml_wrapper.py [-h] ..." +:+ nls +:+ nls
  +:+ "ClearML Dataset Wrapper for ClearPipe".

(** The SDK is installed and the wrapper shows its help. *)
Definition all_fine : world :=
  {| import_clearml := None;
     read_source := inr "import sys";
     ast_parse := fun _ => None;
     run_help := inr (help_output +:+ nls) |}.

End TestSuite.

(** * Properties *)

(** ** Lines of a text *)

Lemma json_induction (P : json -> Prop) :
  P JNull ->
  (forall b, P (JBool b)) ->
  (forall n, P (JInt n)) ->
  (forall s, P (JStr s)) ->
  (forall items, Forall P items -> P (JList items)) ->
  (forall fields, Forall (fun kv => P (snd kv)) fields -> P (JDict fields)) ->
  forall v, P v.
Proof.
  intros Hnull Hbool Hint Hstr Hlist Hdict.
  fix IH 1. intros [ | b | n | s | items | fields ].
  - exact Hnull.
  - apply Hbool.
  - apply Hint.
  - apply Hstr.
  - apply Hlist.
    exact ((fix all (l : list json) : Forall P l :=
              match l with
              | [] => @List.Forall_nil _ P
              | x :: r => @List.Forall_cons _ P x r (IH x) (all r)
              end) items).
  - apply Hdict.
    exact ((fix all (l : list (string * json)) : Forall (fun kv => P (snd kv)) l :=
              match l with
              | [] => @List.Forall_nil _ _
              | kv :: r => @List.Forall_cons _ (fun kv => P (snd kv)) kv r (IH (snd kv)) (all r)
              end) fields).
Qed.

Lemma lines_nonempty s : lines s <> [].
Proof.
  destruct s as [ | c rest ]; simpl; [ discriminate | ].
  destruct (Ascii.eqb c nl); [ discriminate | ].
  destruct (lines rest); discriminate.
Qed.

Lemma lines_one_line s : one_line s = true -> lines s = [s].
Proof.
  induction s as [ | c rest IH ]; simpl; [ reflexivity | ].
  intros [Hc Hrest]%andb_true_iff.
  apply negb_true_iff in Hc. rewrite Hc, (IH Hrest). reflexivity.
Qed.

Lemma lines_break a b : lines (a +:+ String nl b) = lines a ++ lines b.
Proof.
  induction a as [ | c rest IH ]; simpl.
  - reflexivity.
  - destruct (Ascii.eqb c nl).
    + rewrite IH. reflexivity.
    + rewrite IH. pose proof (lines_nonempty rest) as Hne.
      destruct (lines rest) as [ | l ls ]; [ congruence | reflexivity ].
Qed.

Lemma one_line_app a b : one_line a = true -> one_line b = true -> one_line (a +:+ b) = true.
Proof.
  induction a as [ | c rest IH ]; simpl; [ auto | ].
  intros [Hc Hrest]%andb_true_iff Hb. rewrite Hc. simpl. auto.
Qed.

Lemma one_line_breaks_indented s : one_line s = true -> breaks_indented s = true.
Proof.
  induction s as [ | c rest IH ]; simpl; [ reflexivity | ].
  intros [Hc Hrest]%andb_true_iff. apply negb_true_iff in Hc. rewrite Hc. auto.
Qed.

Lemma breaks_indented_app a b :
  breaks_indented a = true -> breaks_indented b = true -> breaks_indented (a +:+ b) = true.
Proof.
  induction a as [ | c rest IH ]; simpl; [ auto | ].
  destruct (Ascii.eqb c nl).
  - destruct rest as [ | c' rest' ]; [ discriminate | ].
    intros [Hc Hrest]%andb_true_iff Hb. simpl in *. rewrite Hc. simpl. apply IH; assumption.
  - auto.
Qed.

Lemma breaks_indented_tail s :
  breaks_indented s = true -> Forall starts_with_space (tl (lines s)).
Proof.
  induction s as [ | c rest IH ]; simpl; [ constructor | ].
  destruct (Ascii.eqb c nl) eqn:Hc.
  - destruct rest as [ | c' rest' ]; [ discriminate | ].
    intros [Hsp Hrest]%andb_true_iff. simpl.
    specialize (IH Hrest). apply Ascii.eqb_eq in Hsp. subst c'.
    simpl in *. change (Ascii.eqb " " nl) with false in *.
    pose proof (lines_nonempty rest') as Hne.
    destruct (lines rest') as [ | l ls ]; [ congruence | ].
    simpl in *. constructor; [ eexists; reflexivity | assumption ].
  - intros Hrest. specialize (IH Hrest).
    pose proof (lines_nonempty rest) as Hne.
    destruct (lines rest) as [ | l ls ]; [ congruence | exact IH ].
Qed.

(** ** What [json.dumps] writes *)

Lemma escape_char_one_line c : one_line (escape_char c) = true.
Proof. destruct c as [[] [] [] [] [] [] [] []]; reflexivity. Qed.

Lemma escape_one_line s : one_line (escape s) = true.
Proof.
  induction s as [ | c rest IH ]; simpl; [ reflexivity | ].
  apply one_line_app; [ apply escape_char_one_line | exact IH ].
Qed.

Lemma quote_one_line s : one_line (quote s) = true.
Proof.
  unfold quote. change (String dquote ?x) with (String dquote "" +:+ x).
  apply (one_line_app (String dquote "")); [ reflexivity | ].
  apply one_line_app; [ apply escape_one_line | reflexivity ].
Qed.

Lemma uint_one_line d : one_line (NilEmpty.string_of_uint d) = true.
Proof. induction d; simpl; auto. Qed.

Lemma dec_one_line n : one_line (dec n) = true.
Proof.
  unfold dec, NilZero.string_of_int, NilZero.string_of_uint.
  destruct (Z.to_int n) as [ d | d ]; destruct d; simpl; auto using uint_one_line.
Qed.

Lemma spaces_one_line n : one_line (spaces n) = true.
Proof. induction n; simpl; auto. Qed.

Lemma newline_indent_breaks lvl : breaks_indented (newline_indent (S lvl)) = true.
Proof.
  unfold newline_indent. simpl.
  apply one_line_breaks_indented, spaces_one_line.
Qed.

Lemma join_breaks_indented sep parts :
  breaks_indented sep = true ->
  Forall (fun p => breaks_indented p = true) parts ->
  breaks_indented (join sep parts) = true.
Proof.
  intros Hsep. induction 1 as [ | p rest Hp Hrest IH ]; [ reflexivity | ].
  simpl. destruct rest as [ | q rest' ]; [ exact Hp | ].
  apply breaks_indented_app; [ exact Hp | ].
  apply breaks_indented_app; [ exact Hsep | exact IH ].
Qed.

Create HintDb lines.

#[local] Hint Resolve breaks_indented_app one_line_breaks_indented quote_one_line dec_one_line
  newline_indent_breaks join_breaks_indented : lines.

(** [open +:+ newline_indent _ +:+ join _ _ +:+ newline_indent _ +:+ close] *)
Ltac container_breaks :=
  apply breaks_indented_app; [ reflexivity | ];
  apply breaks_indented_app; [ apply newline_indent_breaks | ];
  apply breaks_indented_app;
  [ apply join_breaks_indented;
    [ apply breaks_indented_app; [ reflexivity | apply newline_indent_breaks ] | ]
  | apply breaks_indented_app; [ apply newline_indent_breaks | reflexivity ] ].

(** Below the top level, every line that [json.dumps(..., indent=2)]
    starts is indented. *)
Lemma dumps_at_breaks_indented v :
  forall lvl, (1 <= lvl)%nat -> breaks_indented (dumps_at lvl v) = true.
Proof.
  induction v as [ | b | n | s | items IH | fields IH ] using json_induction; intros lvl Hlvl.
  - reflexivity.
  - destruct b; reflexivity.
  - cbn [dumps_at]. auto with lines.
  - cbn [dumps_at]. auto with lines.
  - destruct items as [ | v items ]; [ reflexivity | ].
    cbn [dumps_at]. destruct lvl as [ | k ]; [ lia | ].
    container_breaks.
    apply Forall_map. eapply Forall_impl; [ exact IH | ].
    intros x Hx. apply Hx. lia.
  - destruct fields as [ | kv fields ]; [ reflexivity | ].
    cbn [dumps_at]. destruct lvl as [ | k ]; [ lia | ].
    container_breaks.
    apply Forall_map. eapply Forall_impl; [ exact IH | ].
    intros x Hx. cbn beta.
    apply breaks_indented_app; [ auto with lines | ].
    apply (breaks_indented_app ": "); [ reflexivity | ].
    apply Hx. lia.
Qed.

Lemma append_assoc (a b c : string) : (a +:+ b) +:+ c = a +:+ b +:+ c.
Proof.
  induction a as [ | x a IH ]; [ reflexivity | ].
  change (String x ((a +:+ b) +:+ c) = String x (a +:+ b +:+ c)). rewrite IH. reflexivity.
Qed.

(** The lines of a pretty-printed envelope: the braces on lines of their
    own, everything between them indented. *)
Lemma dumps_indent2_lines fields l :
  In l (lines (dumps_indent2 (JDict fields))) ->
  l = "{}" \/ l = "{" \/ l = "}" \/ starts_with_space l.
Proof.
  destruct fields as [ | kv fields ].
  - simpl. intros [ <- | [] ]. auto.
  - unfold dumps_indent2. cbn [dumps_at].
    set (body := join _ _).
    assert (Hbody : breaks_indented (newline_indent 1 +:+ body) = true).
    { apply breaks_indented_app; [ apply newline_indent_breaks | ].
      subst body. apply join_breaks_indented;
        [ apply (breaks_indented_app ","); [ reflexivity | apply newline_indent_breaks ] | ].
      apply Forall_map, Forall_forall. intros x _. cbn beta.
      apply breaks_indented_app; [ auto with lines | ].
      apply (breaks_indented_app ": "); [ reflexivity | ].
      apply dumps_at_breaks_indented. lia. }
    replace ("{" +:+ newline_indent 1 +:+ body +:+ newline_indent 0 +:+ "}")
      with (("{" +:+ newline_indent 1 +:+ body) +:+ String nl "}")
      by (rewrite !append_assoc; reflexivity).
    rewrite lines_break. intros [Hin | Hin]%in_app_iff.
    + pose proof (breaks_indented_tail ("{" +:+ newline_indent 1 +:+ body)) as Htail.
      change (newline_indent 1 +:+ body) with (String nl ("  " +:+ body)) in *.
      change ("{" +:+ String nl ?x) with (String "{" (String nl x)) in *.
      cbn [lines] in Hin, Htail. change (Ascii.eqb "{" nl) with false in *.
      change (Ascii.eqb nl nl) with true in *. cbn iota in Hin, Htail.
      destruct Hin as [ <- | Hin ]; [ auto | ].
      right; right; right.
      assert (Hall : Forall starts_with_space (lines ("  " +:+ body))).
      { apply Htail. exact Hbody. }
      rewrite Forall_forall in Hall. apply Hall, list_elem_of_In, Hin.
    + simpl in Hin. destruct Hin as [ <- | [] ]. auto.
Qed.

Lemma marker_not_indented l :
  l = START_MARKER \/ l = END_MARKER ->
  ~ (l = "{}" \/ l = "{" \/ l = "}" \/ starts_with_space l).
Proof.
  intros [ -> | -> ] [ H | [ H | [ H | [ rest H ] ] ] ]; discriminate.
Qed.

(** Neither marker is a line of a pretty-printed envelope. *)
Lemma markers_not_in_envelope fields :
  ~ In START_MARKER (lines (dumps_indent2 (JDict fields)))
  /\ ~ In END_MARKER (lines (dumps_indent2 (JDict fields))).
Proof.
  split; intros Hin%dumps_indent2_lines;
    [ apply (marker_not_indented START_MARKER) in Hin
    | apply (marker_not_indented END_MARKER) in Hin ]; auto.
Qed.

Lemma join_one_line sep parts :
  one_line sep = true -> Forall (fun p => one_line p = true) parts ->
  one_line (join sep parts) = true.
Proof.
  intros Hsep. induction 1 as [ | p rest Hp Hrest IH ]; [ reflexivity | ].
  simpl. destruct rest as [ | q rest' ]; [ exact Hp | ].
  apply one_line_app; [ exact Hp | ]. apply one_line_app; [ exact Hsep | exact IH ].
Qed.

(** [json.dumps(v)] writes one line. *)
Lemma dumps_one_line v : one_line (dumps v) = true.
Proof.
  induction v as [ | b | n | s | items IH | fields IH ] using json_induction; cbn [dumps].
  - reflexivity.
  - destruct b; reflexivity.
  - apply dec_one_line.
  - apply quote_one_line.
  - apply (one_line_app "["); [ reflexivity | ].
    apply one_line_app; [ | reflexivity ].
    apply join_one_line; [ reflexivity | ]. apply Forall_map. exact IH.
  - apply (one_line_app "{"); [ reflexivity | ].
    apply one_line_app; [ | reflexivity ].
    apply join_one_line; [ reflexivity | ]. apply Forall_map.
    eapply Forall_impl; [ exact IH | ]. intros kv Hkv. cbn beta.
    apply one_line_app; [ apply quote_one_line | ].
    apply (one_line_app ": "); [ reflexivity | exact Hkv ].
Qed.

Lemma sum_sizes_app a b : sum_sizes (a ++ b) = sum_sizes a + sum_sizes b.
Proof.
  unfold sum_sizes. induction a as [ | x a IH ]; cbn [app fold_right]; [ reflexivity | lia ].
Qed.

(** ** Substrings *)

Lemma prefix_here sub rest : String.prefix sub (sub +:+ rest) = true.
Proof.
  induction sub as [ | c sub IH ].
  - destruct rest; reflexivity.
  - change (String c sub +:+ rest) with (String c (sub +:+ rest)). cbn [String.prefix].
    destruct (ascii_dec c c); [ exact IH | congruence ].
Qed.

Lemma contains_here sub rest : contains sub (sub +:+ rest) = true.
Proof.
  pose proof (prefix_here sub rest) as Hprefix.
  destruct (sub +:+ rest); cbn [contains]; rewrite Hprefix; reflexivity.
Qed.

Lemma contains_later sub before s : contains sub s = true -> contains sub (before +:+ s) = true.
Proof.
  intros H. induction before as [ | c before IH ]; [ exact H | ].
  change (String c before +:+ s) with (String c (before +:+ s)).
  cbn [contains]. rewrite IH. apply orb_true_r.
Qed.

Lemma append_empty s : s +:+ "" = s.
Proof.
  induction s as [ | c s IH ]; [ reflexivity | ].
  change (String c s +:+ "") with (String c (s +:+ "")). rewrite IH. reflexivity.
Qed.

(** The message of the path-does-not-exist envelope contains the path. *)
Lemma path_error_contains p : contains p ("Path does not exist: " +:+ p) = true.
Proof.
  apply contains_later. rewrite <- (append_empty p) at 2. apply contains_here.
Qed.

(** ** Counting a line *)

Lemma count_occ_absent (l : list string) (x : string) :
  ~ In x l -> count_occ string_dec l x = 0%nat.
Proof. apply count_occ_not_In. Qed.

(** A line that occurs neither before nor inside the envelope occurs once
    in [before ++ [x] ++ inside ++ [y]], and [y] too when it differs. *)
Lemma count_occ_wrapped (before inside : list string) (x y : string) :
  x <> y -> ~ In x before -> ~ In x inside -> ~ In y before -> ~ In y inside ->
  count_occ string_dec (before ++ [x] ++ inside ++ [y]) x = 1%nat
  /\ count_occ string_dec (before ++ [x] ++ inside ++ [y]) y = 1%nat.
Proof.
  intros Hxy Hxb Hxi Hyb Hyi.
  rewrite !count_occ_app, !(count_occ_absent before), !(count_occ_absent inside) by assumption.
  cbn [count_occ]. destruct (string_dec x x), (string_dec y y), (string_dec x y),
    (string_dec y x); try congruence. auto.
Qed.

(** ** The command line *)





(** ** From [sys.argv] to the command line *)


Lemma parse_optional_dashes : parse_optional "--" = None.
Proof. reflexivity. Qed.











(** An ambiguous abbreviation is reported before [-h] is read; [-hh] is
    [-h] twice; an option string is not the value of the option before it;
    the value [--] after [=] becomes a list; and the [--] before the
    action goes with it. *)
Example read_argv_examples :
  read_argv ["-h"; "--dataset"; "x"] = AmbiguousOption
  /\ read_argv ["-hh"] = Paired [Flag "-h"]
  /\ read_argv ["list"; "--tags"; "--only-completed"; "x"]
     = Paired [Positional "list"; Flag "--tags"; Flag "--only-completed"; Positional "x"]
  /\ read_argv ["--tags=--"] = ListValued
  /\ read_argv ["--ta=a b"; "--"; "list"] = Paired [FlagValue "--tags" "a b"; Positional "list"].
Proof. repeat split. Qed.


(** ** Running a piece of code *)

Section Runs.

Context {S F P : Type} {FS : FileSystem F P} {Sdk : SDK S F}.

#[local] Existing Instance M_ret.
#[local] Existing Instance M_bind.

#[local] Abbreviation M := (@M S F).
#[local] Abbreviation state := (state S F).
#[local] Abbreviation stages := (@stages S F _).
#[local] Abbreviation no_upload_between := (@no_upload_between S F).
#[local] Abbreviation returns_envelope := (@returns_envelope S F).
#[local] Abbreviation converts_exceptions := (@converts_exceptions S F).
#[local] Abbreviation propagates_no_Exception := (@propagates_no_Exception S F).

Lemma bind_run {A B} (m : M A) (k : A -> M B) (st : state) :
  (m ≫= k) st = match m st with
                | (Returned a, st1) => k a st1
                | (Raised e, st1) => (Raised e, st1)
                end.
Proof. reflexivity. Qed.

Lemma bind_inv {A B} (m : M A) (k : A -> M B) (st st' : state) (r : outcome B) :
  (m ≫= k) st = (r, st') ->
  (exists a st1, m st = (Returned a, st1) /\ k a st1 = (r, st'))
  \/ (exists e, m st = (Raised e, st') /\ r = Raised e).
Proof.
  rewrite bind_run. destruct (m st) as [[a | e] st1]; intros H.
  - left. eauto.
  - right. injection H as <- <-. eauto.
Qed.

Lemma bind_returned {A B} (m : M A) (k : A -> M B) (st st' : state) (b : B) :
  (m ≫= k) st = (Returned b, st') ->
  exists a st1, m st = (Returned a, st1) /\ k a st1 = (Returned b, st').
Proof.
  intros [ H | (e & _ & H) ]%bind_inv; [ exact H | discriminate ].
Qed.

Lemma bind_ext {A B} (m : M A) (k1 k2 : A -> M B) (st : state) :
  (forall a st1, k1 a st1 = k2 a st1) -> (m ≫= k1) st = (m ≫= k2) st.
Proof.
  intros H. rewrite !bind_run. destruct (m st) as [[a | e] st1]; [ apply H | reflexivity ].
Qed.

Lemma query_run {A} (q : F -> exn + A) (st : state) :
  query q st = (match q (fs st) with inl e => Raised e | inr a => Returned a end, st).
Proof. unfold query, lift. destruct (q (fs st)); reflexivity. Qed.

Lemma query_returned {A} (q : F -> exn + A) (st st' : state) (a : A) :
  query q st = (Returned a, st') -> q (fs st) = inr a /\ st' = st.
Proof.
  rewrite query_run. destruct (q (fs st)); intros H; [ discriminate | ].
  injection H as <- <-; auto.
Qed.

Lemma lift_returned {A} (r : exn + A) (st st' : state) (a : A) :
  lift r st = (Returned a, st') -> r = inr a /\ st' = st.
Proof. destruct r; intros H; [ discriminate | ]. injection H as <- <-; auto. Qed.

(** What a call leaves behind. *)
Lemma call_run {A} (c : sdk_call) (op : S -> reply S A) (st : state) :
  call c op st
  = (match r_result (op (sdk_state st)) with inl e => Raised e | inr a => Returned a end,
     {| sdk_state := r_next (op (sdk_state st)); fs := fs st; environ := environ st;
        stdout := stdout st ++ r_log (op (sdk_state st)); calls := calls st ++ [c] |}).
Proof. unfold call, lift. destruct (r_result (op (sdk_state st))); reflexivity. Qed.

Lemma call_returned {A} (c : sdk_call) (op : S -> reply S A) (st st' : state) (a : A) :
  call c op st = (Returned a, st') ->
  r_result (op (sdk_state st)) = inr a
  /\ sdk_state st' = r_next (op (sdk_state st))
  /\ fs st' = fs st /\ environ st' = environ st /\ calls st' = calls st ++ [c].
Proof.
  rewrite call_run. destruct (r_result (op (sdk_state st))); intros H; [ discriminate | ].
  injection H as <- <-. simpl. auto.
Qed.

(** ** Code that neither uploads nor touches the filesystem *)

Lemma stages_ret {A} (a : A) : stages (mret a).
Proof.
  intros st r st' H. injection H as <- <-. repeat split.
  exists []. rewrite app_nil_r. auto.
Qed.

Lemma stages_raise {A} (e : exn) : stages (raise (A := A) e).
Proof.
  intros st r st' H. injection H as <- <-. repeat split.
  exists []. rewrite app_nil_r. auto.
Qed.

Lemma stages_lift {A} (x : exn + A) : stages (lift x).
Proof. destruct x; [ apply stages_raise | apply stages_ret ]. Qed.

Lemma stages_query {A} (q : F -> exn + A) : stages (query q).
Proof. intros st r st' H. unfold query in H. eapply stages_lift, H. Qed.

Lemma stages_query_rglob (path : P) : stages (query_rglob path).
Proof.
  intros st r st' H. injection H as <- <-. repeat split.
  exists []. rewrite app_nil_r. auto.
Qed.

Lemma stages_call {A} (c : sdk_call) (op : S -> reply S A) :
  is_upload c = false -> stages (call c op).
Proof.
  intros Hc st r st' H. rewrite call_run in H. injection H as <- <-. simpl.
  repeat split. exists [c]. simpl. rewrite Hc. auto.
Qed.

Lemma stages_bind {A B} (m : M A) (k : A -> M B) :
  stages m -> (forall a, stages (k a)) -> stages (m ≫= k).
Proof.
  intros Hm Hk st r st' [ (a & st1 & H1 & H2) | (e & H1 & ->) ]%bind_inv.
  - destruct (Hm _ _ _ H1) as (Hfs1 & Henv1 & new1 & Hc1 & Hu1).
    destruct (Hk a _ _ _ H2) as (Hfs2 & Henv2 & new2 & Hc2 & Hu2).
    repeat split; [ congruence | congruence | ].
    exists (new1 ++ new2). rewrite Hc2, Hc1, <- app_assoc. split; [ reflexivity | ].
    rewrite existsb_app, Hu1, Hu2. reflexivity.
  - exact (Hm _ _ _ H1).
Qed.

Create HintDb stages.
#[local] Hint Resolve stages_ret stages_raise stages_lift stages_query stages_query_rglob
  stages_call stages_bind : stages.

Ltac stages_step :=
  match goal with
  | |- stages (_ ≫= _) => apply stages_bind; [ | intros ? ]
  | |- stages (if ?b then _ else _) => destruct b
  | |- stages (match ?x with Some _ => _ | None => _ end) => destruct x
  | |- stages (call _ _) => apply stages_call; reflexivity
  | |- stages _ => solve [ auto with stages ]
  end.

Lemma create_dataset_add_dir_stages path entries files_added total_size :
  stages (create_dataset_add_dir path entries files_added total_size).
Proof.
  revert files_added total_size.
  induction entries as [ | file_path rest IH ]; intros; cbn [create_dataset_add_dir];
    repeat stages_step.
Qed.

Lemma create_dataset_add_paths_stages dataset input_paths files_added total_size :
  stages (create_dataset_add_paths dataset input_paths files_added total_size).
Proof.
  revert files_added total_size.
  induction input_paths as [ | input_path rest IH ]; intros; cbn [create_dataset_add_paths];
    repeat stages_step.
  apply create_dataset_add_dir_stages.
Qed.


(** ** The two staging loops *)

Lemma add_dir_eq path entries files_added total_size (st : state) :
  create_version_add_dir path entries files_added total_size st
  = create_dataset_add_dir path entries files_added total_size st.
Proof.
  revert files_added total_size st.
  induction entries as [ | file_path rest IH ]; intros; [ reflexivity | ].
  cbn [create_version_add_dir create_dataset_add_dir].
  apply bind_ext. intros [] st1; [ | apply IH ].
  apply bind_ext. intros size st2. apply bind_ext. intros rel st3. apply IH.
Qed.

Lemma add_paths_eq dataset input_paths files_added total_size (st : state) :
  create_version_add_paths dataset input_paths files_added total_size st
  = create_dataset_add_paths dataset input_paths files_added total_size st.
Proof.
  revert files_added total_size st.
  induction input_paths as [ | input_path rest IH ]; intros; [ reflexivity | ].
  cbn [create_version_add_paths create_dataset_add_paths].
  apply bind_ext. intros found st1. destruct (negb found); [ reflexivity | ].
  apply bind_ext. intros [] st2.
  - apply bind_ext. intros _ st3. apply bind_ext. intros size st4. apply IH.
  - apply bind_ext. intros [] st3; [ | apply IH ].
    apply bind_ext. intros _ st4. apply bind_ext. intros found_entries st5.
    rewrite !bind_run, add_dir_eq.
    destruct (create_dataset_add_dir _ _ _ _ _) as [[added | e] st6]; [ | reflexivity ].
    apply bind_ext. intros _ st7. apply IH.
Qed.

Lemma stage_eq dataset input_paths (st : state) :
  create_version_stage dataset input_paths st = create_dataset_stage dataset input_paths st.
Proof.
  unfold create_version_stage, create_dataset_stage.
  destruct (truthy_list input_paths); [ apply add_paths_eq | reflexivity ].
Qed.

Lemma create_dataset_stage_stages dataset input_paths :
  stages (create_dataset_stage dataset input_paths).
Proof.
  unfold create_dataset_stage. destruct (truthy_list input_paths);
    [ apply create_dataset_add_paths_stages | apply stages_ret ].
Qed.

(** The loop over the entries of a directory only reads the filesystem:
    when it completes, it has added one record per regular file, and the
    sizes of these files to the total. *)
Lemma add_dir_returned path entries files_added total_size (st st' : state) added :
  create_dataset_add_dir path entries files_added total_size st = (Returned added, st') ->
  st' = st
  /\ exists records sizes,
       Forall2 (fun p size => st_size (fs st) p = inr size) (regular_files (fs st) entries) sizes
       /\ length records = length sizes
       /\ added = (files_added ++ records, total_size + sum_sizes sizes).
Proof.
  revert files_added total_size.
  induction entries as [ | file_path rest IH ]; intros files_added total_size;
    cbn [create_dataset_add_dir].
  - intros [= <- <-]. split; [ reflexivity | ].
    exists [], []. rewrite app_nil_r, Z.add_0_r. repeat split. constructor.
  - intros (regular & st1 & [Hreg ->]%query_returned & H)%bind_returned.
    unfold regular_files. cbn [List.filter]. unfold is_regular at 1. rewrite Hreg.
    destruct regular.
    + apply bind_returned in H as (size & st2 & [Hsize ->]%query_returned & H).
      apply bind_returned in H as (rel & st3 & [Hrel ->]%lift_returned & H).
      apply IH in H as (-> & records & sizes & Hsizes & Hlen & ->).
      split; [ reflexivity | ].
      exists (file_record (path_str file_path) (path_str rel) size :: records), (size :: sizes).
      repeat split.
      * constructor; assumption.
      * cbn [length]. congruence.
      * f_equal; [ rewrite <- app_assoc; reflexivity | ].
        unfold sum_sizes. cbn [fold_right]. lia.
    + apply IH in H as (-> & records & sizes & Hsizes & Hlen & ->).
      split; [ reflexivity | ]. exists records, sizes. repeat split; assumption.
Qed.


(** A path that is not there ends the loop. *)
Lemma add_paths_missing dataset input_path rest files_added total_size (st : state) :
  path_exists (fs st) (Path input_path) = inr false ->
  create_dataset_add_paths dataset (input_path :: rest) files_added total_size st
  = (Returned (inl (error_envelope ("Path does not exist: " +:+ input_path))), st).
Proof.
  intros Hmissing. cbn [create_dataset_add_paths].
  rewrite bind_run, query_run, Hmissing. reflexivity.
Qed.

(** One turn of the loop over [input_paths], for a path that is there:
    unless something raises, the loop goes on with the records and the
    sizes of the files the path stands for. *)
Lemma add_paths_turn dataset input_path rest files_added total_size (st st' : state) r :
  path_exists (fs st) (Path input_path) <> inr false ->
  create_dataset_add_paths dataset (input_path :: rest) files_added total_size st = (r, st') ->
  (exists e, r = Raised e)
  \/ exists records sizes st1,
       fs st1 = fs st
       /\ Forall2 (fun p size => st_size (fs st) p = inr size)
            (staged_files (fs st) input_path) sizes
       /\ length records = length sizes
       /\ create_dataset_add_paths dataset rest (files_added ++ records)
            (total_size + sum_sizes sizes) st1 = (r, st').
Proof.
  intros Hthere. cbn [create_dataset_add_paths]. unfold staged_files.
  rewrite bind_run, query_run.
  destruct (path_exists (fs st) (Path input_path)) as [ e | [] ];
    [ intros [= <- _]; eauto | | congruence ].
  cbn [negb]. cbv iota.
  intros [ (regular & st0 & [Hreg ->]%query_returned & H) | (e & _ & ->) ]%bind_inv;
    [ | eauto ].
  rewrite Hreg. destruct regular.
  - apply bind_inv in H as [ ([] & st1 & (_ & _ & Hfs & _)%call_returned & H) | (e & _ & ->) ];
      [ | eauto ].
    apply bind_inv in H as [ (size & st2 & [Hsize ->]%query_returned & H) | (e & _ & ->) ];
      [ | eauto ].
    right. exists [file_record (path_str (Path input_path)) (path_name (Path input_path)) size],
      [size], st1.
    rewrite Hfs in Hsize. repeat split; [ assumption | | ].
    + constructor; [ assumption | constructor ].
    + replace (total_size + sum_sizes [size]) with (total_size + size)
        by (unfold sum_sizes; cbn [fold_right]; lia).
      exact H.
  - apply bind_inv in H as [ (directory & st0 & [Hdir ->]%query_returned & H) | (e & _ & ->) ];
      [ | eauto ].
    rewrite Hdir. destruct directory.
    + apply bind_inv in H
        as [ ([] & st1 & (_ & _ & Hfs & _)%call_returned & H) | (e & _ & ->) ]; [ | eauto ].
      apply bind_inv in H as [ (found & st2 & [= <- <-] & H) | (e & [=] & _) ].
      apply bind_inv in H
        as [ (added & st2 & (-> & records & sizes & Hsizes & Hlen & ->)%add_dir_returned & H)
           | (e & _ & ->) ]; [ | eauto ].
      apply bind_inv in H as [ ([] & st3 & Hend & H) | (e & _ & ->) ]; [ | eauto ].
      assert (st3 = st1) as ->
        by (destruct (snd (rglob (fs st1) (Path input_path))); injection Hend; congruence).
      right. exists records, sizes, st1. rewrite Hfs in Hsizes. auto.
    + right. exists [], [], st. rewrite app_nil_r.
      replace (total_size + sum_sizes []) with total_size by (unfold sum_sizes; simpl; lia).
      repeat split; [ constructor | exact H ].
Qed.

(** Up to the first path that is not there, the loop either raises or
    returns the envelope that names this path. *)
Lemma add_paths_first_missing dataset before missing after :
  forall files_added total_size (st st' : state) r,
    Forall (fun q => path_exists (fs st) (Path q) <> inr false) before ->
    path_exists (fs st) (Path missing) = inr false ->
    create_dataset_add_paths dataset (before ++ missing :: after) files_added total_size st
    = (r, st') ->
    (exists e, r = Raised e)
    \/ r = Returned (inl (error_envelope ("Path does not exist: " +:+ missing))).
Proof.
  induction before as [ | q before IH ]; intros files_added total_size st st' r Hbefore Hmissing.
  - cbn [app]. rewrite add_paths_missing by assumption. intros [= <- _]. auto.
  - cbn [app]. inversion_clear Hbefore as [ | ? ? Hq Hrest ].
    intros [ H | (records & sizes & st1 & Hfs & _ & _ & H) ]%add_paths_turn;
      [ auto | | assumption ].
    eapply IH; [ | | exact H ]; rewrite Hfs; assumption.
Qed.

(** When the loop completes, it has added one record per staged file and
    their sizes to the total. *)
Lemma add_paths_returned dataset input_paths :
  forall files_added total_size (st st' : state) added,
    create_dataset_add_paths dataset input_paths files_added total_size st
    = (Returned (inr added), st') ->
    exists records sizes,
      Forall2 (fun p size => st_size (fs st) p = inr size)
        (concat (List.map (staged_files (fs st)) input_paths)) sizes
      /\ length records = length sizes
      /\ added = (files_added ++ records, total_size + sum_sizes sizes).
Proof.
  induction input_paths as [ | q rest IH ]; intros files_added total_size st st' added.
  - intros [= <- _]. exists [], []. rewrite app_nil_r.
    replace (total_size + sum_sizes []) with total_size by (unfold sum_sizes; simpl; lia).
    repeat split. constructor.
  - destruct (path_exists (fs st) (Path q)) as [ e | [] ] eqn:Hq.
    + cbn [create_dataset_add_paths]. rewrite bind_run, query_run, Hq. discriminate.
    + intros [ [e [=]] | (records & sizes & st1 & Hfs & Hsizes & Hlen & H) ]%add_paths_turn;
        [ | congruence ].
      apply IH in H as (records' & sizes' & Hsizes' & Hlen' & ->).
      exists (records ++ records'), (sizes ++ sizes'). repeat split.
      * cbn [List.map concat]. rewrite Hfs in Hsizes'. apply Forall2_app; assumption.
      * rewrite !length_app. congruence.
      * f_equal; [ rewrite app_assoc; reflexivity | ].
        rewrite sum_sizes_app. lia.
    + rewrite add_paths_missing by assumption. discriminate.
Qed.


(** ** The claims *)

(** C5: the staging inside [create_version] is the staging inside
    [create_dataset]: on every dataset handle, list of input paths and
    state, the two loops over the paths, the two walks of a directory and
    the two guarded stagings have the same outcome (the file records and
    the total size, the path-does-not-exist envelope, or the exception) and
    leave the same state. *)
Theorem version_staging_is_create_staging :
  (forall path entries files_added total_size (st : state),
     create_version_add_dir path entries files_added total_size st
     = create_dataset_add_dir path entries files_added total_size st)
  /\ (forall dataset input_paths files_added total_size (st : state),
        create_version_add_paths dataset input_paths files_added total_size st
        = create_dataset_add_paths dataset input_paths files_added total_size st)
  /\ (forall dataset input_paths (st : state),
        create_version_stage dataset input_paths st
        = create_dataset_stage dataset input_paths st).
Proof.
  split; [ | split ]; intros.
  - apply add_dir_eq.
  - apply add_paths_eq.
  - apply stage_eq.
Qed.

(** What [try: ... except Exception] makes of the outcome of its body. *)
Lemma try_except_run (body : M json) (st : state) :
  try_except body st
  = match body st with
    | (Raised e, st') =>
        if exn_is_Exception e then (Returned (error_envelope (exn_str e)), st')
        else (Raised e, st')
    | (Returned v, st') => (Returned v, st')
    end.
Proof. reflexivity. Qed.

(** A success envelope comes from the body, not from the handler. *)
Lemma try_except_success (body : M json) (st st' : state) envelope :
  try_except body st = (Returned envelope, st') ->
  dict_get "success" envelope = Some (JBool true) ->
  body st = (Returned envelope, st').
Proof.
  rewrite try_except_run. destruct (body st) as [[v | e] st1].
  - intros [= <- <-] _. reflexivity.
  - destruct (exn_is_Exception e); intros [= <- <-]; discriminate.
Qed.

(** C7: when [list_datasets] succeeds, the SDK returned a list of records,
    [datasets] holds one element per record, in order, [count] is the
    length of [datasets], and every element has exactly the six fields id,
    name, project, tags, created, version, each the value of the record
    under that key ([null] when the record lacks it, the empty list for
    tags). *)
Theorem list_datasets_projects_records :
  forall project tags only_completed (st st' : state) envelope,
    list_datasets project tags only_completed st = (Returned envelope, st') ->
    dict_get "success" envelope = Some (JBool true) ->
    exists records datasets,
      r_result (Dataset_list_datasets project tags only_completed (sdk_state st)) = inr records
      /\ dict_get "datasets" envelope = Some (JList datasets)
      /\ dict_get "count" envelope = Some (JInt (Z.of_nat (length datasets)))
      /\ Forall2 (fun (ds_info : gmap string json) element =>
                    dict_keys element = projected_fields
                    /\ dict_get "tags" element = Some (default (JList []) (ds_info !! "tags"))
                    /\ forall key, In key ["id"; "name"; "project"; "created"; "version"] ->
                         dict_get key element = Some (default JNull (ds_info !! key)))
           records datasets.
Proof.
  intros project tags only_completed st st' envelope Hrun Hok.
  apply try_except_success in Hrun; [ | exact Hok ].
  unfold list_datasets_body in Hrun.
  apply bind_returned in Hrun as (records & st1 & (Hreply & _)%call_returned & [= <- _]).
  exists records, (List.map project_record records).
  repeat split; [ exact Hreply | ].
  clear. induction records as [ | ds_info records IH ]; cbn [List.map]; constructor;
    [ | exact IH ].
  repeat split.
  intros key [ <- | [ <- | [ <- | [ <- | [ <- | [] ] ] ] ] ]; reflexivity.
Qed.

(** One record per listed entry, in order. *)
Lemma info_files_returned dataset entries :
  forall files (st st' : state) files',
    get_dataset_info_files dataset entries files st = (Returned files', st') ->
    exists records,
      files' = files ++ records
      /\ List.map (dict_get "path") records = List.map (fun entry => Some (JStr entry)) entries.
Proof.
  induction entries as [ | entry rest IH ]; intros files st st' files';
    cbn [get_dataset_info_files].
  - intros [= <- _]. exists []. rewrite app_nil_r. auto.
  - intros (size & st1 & _ & H)%bind_returned.
    apply IH in H as (records & -> & Hpaths).
    exists (JDict [("path", JStr entry); ("size", size)] :: records).
    rewrite <- app_assoc. split; [ reflexivity | ].
    cbn [List.map]. rewrite Hpaths. reflexivity.
Qed.

(** C6: when [get_dataset_info] succeeds, the dataset was found and the SDK
    listed its files; [fileCount] is the length of the whole listing, and
    [files] holds at most 50 records, whose paths are the first 50 entries
    of the listing, in order. *)
Theorem info_lists_at_most_50_files :
  forall dataset_id dataset_name dataset_project (st st' : state) envelope,
    get_dataset_info dataset_id dataset_name dataset_project st = (Returned envelope, st') ->
    dict_get "success" envelope = Some (JBool true) ->
    exists lookup dataset file_entries files,
      lookup_kwargs dataset_id dataset_name dataset_project = Some lookup
      /\ r_result (Dataset_get lookup (sdk_state st)) = inr (Some dataset)
      /\ r_result (list_files dataset (r_next (Dataset_get lookup (sdk_state st))))
         = inr file_entries
      /\ dict_get "fileCount" envelope = Some (JInt (Z.of_nat (length file_entries)))
      /\ dict_get "files" envelope = Some (JList files)
      /\ (length files <= 50)%nat
      /\ length files = Nat.min 50 (length file_entries)
      /\ List.map (dict_get "path") files
         = List.map (fun entry => Some (JStr entry)) (firstn 50 file_entries).
Proof.
  intros dataset_id dataset_name dataset_project st st' envelope Hrun Hok.
  apply try_except_success in Hrun; [ | exact Hok ].
  unfold get_dataset_info_body in Hrun.
  destruct (lookup_kwargs dataset_id dataset_name dataset_project) as [ lookup | ];
    [ | injection Hrun as <- _; discriminate ].
  apply bind_returned in Hrun as (found & st1 & (Hget & Hnext & _)%call_returned & Hrun).
  destruct found as [ dataset | ]; [ | injection Hrun as <- _; discriminate ].
  apply bind_returned in Hrun as (file_entries & st2 & (Hlist & _)%call_returned & Hrun).
  apply bind_returned in Hrun as (files & st3 & Hfiles & Hrun).
  apply bind_returned in Hrun as (final & st4 & _ & Hrun).
  apply bind_returned in Hrun as (host & st5 & _ & [= <- _]).
  apply info_files_returned in Hfiles as (records & -> & Hpaths).
  exists lookup, dataset, file_entries, records. rewrite <- Hnext.
  assert (Hlen : length records = Nat.min 50 (length file_entries)).
  { rewrite <- (length_map (dict_get "path") records), Hpaths, length_map.
    apply length_firstn. }
  repeat split; try assumption; try reflexivity. lia.
Qed.

(** The early return of the loop is the path-does-not-exist envelope. *)
Lemma add_paths_early_return dataset input_paths :
  forall files_added total_size (st st' : state) envelope,
    create_dataset_add_paths dataset input_paths files_added total_size st
    = (Returned (inl envelope), st') ->
    exists p, In p input_paths /\ envelope = error_envelope ("Path does not exist: " +:+ p).
Proof.
  induction input_paths as [ | q rest IH ]; intros files_added total_size st st' envelope.
  - intros [=].
  - destruct (path_exists (fs st) (Path q)) as [ e | [] ] eqn:Hq.
    + cbn [create_dataset_add_paths]. rewrite bind_run, query_run, Hq. discriminate.
    + intros [ [e [=]] | (records & sizes & st1 & _ & _ & _ & H) ]%add_paths_turn;
        [ | congruence ].
      apply IH in H as (p & Hin & ->). exists p. split; [ right; exact Hin | reflexivity ].
    + rewrite add_paths_missing by assumption. intros [= <- _].
      exists q. split; [ left; reflexivity | reflexivity ].
Qed.

(** The body of [create_dataset], when it returns a success envelope. *)
Lemma create_dataset_body_success name project input_paths tags descr output
    (st st' : state) envelope :
  create_dataset_body name project (Some input_paths) tags descr output st
  = (Returned envelope, st') ->
  dict_get "success" envelope = Some (JBool true) ->
  exists (records : list json) (sizes : list Z),
    Forall2 (fun p size => st_size (fs st) p = inr size)
      (concat (List.map (staged_files (fs st)) input_paths)) sizes
    /\ length records = length sizes
    /\ dict_get "filesAdded" envelope = Some (JInt (Z.of_nat (length records)))
    /\ dict_get "totalSize" envelope = Some (JInt (sum_sizes sizes)).
Proof.
  unfold create_dataset_body. intros Hrun Hok.
  apply bind_returned in Hrun as (dataset & st1 & (_ & _ & Hfs & _)%call_returned & Hrun).
  apply bind_returned in Hrun as (staged & st2 & Hstage & Hrun).
  unfold create_dataset_stage in Hstage.
  assert (Hloop : create_dataset_add_paths dataset input_paths [] 0 st1 = (Returned staged, st2)).
  { destruct input_paths; [ | exact Hstage ]. exact Hstage. }
  clear Hstage. destruct staged as [ early | [files_added total_size] ].
  - apply add_paths_early_return in Hloop as (p & _ & ->).
    injection Hrun as <- _. discriminate.
  - apply add_paths_returned in Hloop as (records & sizes & Hsizes & Hlen & [= -> ->]).
    apply bind_returned in Hrun as ([] & st3 & _ & Hrun).
    apply bind_returned in Hrun as ([] & st4 & _ & Hrun).
    apply bind_returned in Hrun as (host & st5 & _ & [= <- _]).
    exists records, sizes. rewrite Hfs in Hsizes. repeat split; assumption.
Qed.

(** C3: when [create_dataset] succeeds on two input paths, a regular file
    and a directory (in either order), [filesAdded] is 1 plus the number of
    regular files found under the directory, and [totalSize] is the size of
    the file plus the sizes of those files. *)
Theorem create_counts_file_and_directory :
  forall name project tags descr output file dir input_paths (st st' : state) envelope,
    input_paths = [file; dir] \/ input_paths = [dir; file] ->
    is_file (fs st) (Path file) = inr true ->
    is_file (fs st) (Path dir) = inr false ->
    is_dir (fs st) (Path dir) = inr true ->
    create_dataset name project (Some input_paths) tags descr output st
    = (Returned envelope, st') ->
    dict_get "success" envelope = Some (JBool true) ->
    let found := regular_files (fs st) (fst (rglob (fs st) (Path dir))) in
    exists size sizes,
      st_size (fs st) (Path file) = inr size
      /\ Forall2 (fun p z => st_size (fs st) p = inr z) found sizes
      /\ dict_get "filesAdded" envelope = Some (JInt (1 + Z.of_nat (length found)))
      /\ dict_get "totalSize" envelope = Some (JInt (size + sum_sizes sizes)).
Proof.
  intros name project tags descr output file dir input_paths st st' envelope
    Hpaths Hfile Hnotfile Hdir Hrun Hok found.
  apply try_except_success in Hrun; [ | exact Hok ].
  apply create_dataset_body_success in Hrun as (records & sizes & Hsizes & Hlen & Hn & Ht);
    [ | exact Hok ].
  assert (Hf : staged_files (fs st) file = [Path file])
    by (unfold staged_files; rewrite Hfile; reflexivity).
  assert (Hd : staged_files (fs st) dir = found)
    by (unfold staged_files; rewrite Hnotfile, Hdir; reflexivity).
  rewrite Hn, Ht, Hlen. pose proof (Forall2_length _ _ _ Hsizes) as Hcount.
  destruct Hpaths as [ -> | -> ]; cbn [List.map concat] in Hsizes, Hcount;
    rewrite Hf, Hd, ?app_nil_r in Hsizes, Hcount.
  - inversion Hsizes as [ | ? size ? sizes' Hsize Hrest ]; subst.
    exists size, sizes'. cbn [app length] in Hcount.
    repeat split; try assumption; do 2 f_equal;
      rewrite ?length_app, ?sum_sizes_app; unfold sum_sizes; cbn [length fold_right]; lia.
  - apply Forall2_app_inv_l in Hsizes as (sizes' & last & Hrest & Hlast & ->).
    inversion Hlast as [ | ? size ? nothing Hsize Hnil ]; subst.
    inversion Hnil; subst. exists size, sizes'.
    rewrite length_app in Hcount. cbn [length] in Hcount. rewrite length_app. cbn [length].
    pose proof (Forall2_length _ _ _ Hrest).
    repeat split; try assumption; do 2 f_equal;
      rewrite ?length_app, ?sum_sizes_app; unfold sum_sizes; cbn [length fold_right]; lia.
Qed.

(** ** Exceptions *)

Lemma try_except_converts (body : M json) : converts_exceptions body (try_except body).
Proof.
  intros st r st' Hbody. rewrite try_except_run, Hbody.
  destruct r as [ v | e ]; [ reflexivity | ]. destruct (exn_is_Exception e); reflexivity.
Qed.

Lemma try_except_propagates (body : M json) : propagates_no_Exception (try_except body).
Proof.
  intros st e st'. rewrite try_except_run. destruct (body st) as [[v | e'] st1]; [ discriminate | ].
  destruct (exn_is_Exception e') eqn:He; [ discriminate | ]. intros [= <- _]. exact He.
Qed.

Lemma try_except_raised (body : M json) (st st' : state) e :
  body st = (Raised e, st') -> exn_is_Exception e = true ->
  try_except body st = (Returned (error_envelope (exn_str e)), st').
Proof. intros Hbody He. rewrite try_except_run, Hbody, He. reflexivity. Qed.

(** C8, as amended: each of the five actions converts what its body does.
    When the body returns an envelope the action returns it; when it
    raises an exception that derives from [Exception] the action returns
    [{success: false, error: str(e)}]; an exception outside [Exception]
    goes on to the caller, and no other exception ever does.  So an
    [Exception] of the first call to the SDK, or of the first look at the
    filesystem, comes back as that envelope. *)
Theorem actions_convert_exceptions :
  (forall name project input_paths tags descr output,
     converts_exceptions (create_dataset_body name project input_paths tags descr output)
                         (create_dataset name project input_paths tags descr output)
     /\ propagates_no_Exception (create_dataset name project input_paths tags descr output))
  /\ (forall parent_id parent_name parent_project input_paths tags descr,
        converts_exceptions
          (create_version_body parent_id parent_name parent_project input_paths tags descr)
          (create_version parent_id parent_name parent_project input_paths tags descr)
        /\ propagates_no_Exception
             (create_version parent_id parent_name parent_project input_paths tags descr))
  /\ (forall dataset_id dataset_name dataset_project output_path,
        converts_exceptions
          (download_dataset_body dataset_id dataset_name dataset_project output_path)
          (download_dataset dataset_id dataset_name dataset_project output_path)
        /\ propagates_no_Exception
             (download_dataset dataset_id dataset_name dataset_project output_path))
  /\ (forall project tags only_completed,
        converts_exceptions (list_datasets_body project tags only_completed)
                            (list_datasets project tags only_completed)
        /\ propagates_no_Exception (list_datasets project tags only_completed))
  /\ (forall dataset_id dataset_name dataset_project,
        converts_exceptions (get_dataset_info_body dataset_id dataset_name dataset_project)
                            (get_dataset_info dataset_id dataset_name dataset_project)
        /\ propagates_no_Exception (get_dataset_info dataset_id dataset_name dataset_project))
  /\ (forall (st : state) e,
        exn_is_Exception e = true ->
        let failed r := fst r = Returned (error_envelope (exn_str e)) in
        (forall name project input_paths tags descr output,
           r_result (Dataset_create (create_dataset_kwargs name project tags descr output)
                       (sdk_state st)) = inl e ->
           failed (create_dataset name project input_paths tags descr output st))
        /\ (forall name project input_path rest tags descr output dataset,
              r_result (Dataset_create (create_dataset_kwargs name project tags descr output)
                          (sdk_state st)) = inr dataset ->
              path_exists (fs st) (Path input_path) = inl e ->
              failed (create_dataset name project (Some (input_path :: rest)) tags descr
                        output st))
        /\ (forall id name project lookup,
              lookup_kwargs id name project = Some lookup ->
              r_result (Dataset_get lookup (sdk_state st)) = inl e ->
              (forall input_paths tags descr,
                 failed (create_version id name project input_paths tags descr st))
              /\ (forall output_path, failed (download_dataset id name project output_path st))
              /\ failed (get_dataset_info id name project st))
        /\ (forall project tags only_completed,
              r_result (Dataset_list_datasets project tags only_completed (sdk_state st))
              = inl e ->
              failed (list_datasets project tags only_completed st))).
Proof.
  repeat match goal with |- _ /\ _ => split end;
    try (intros; split; [ apply try_except_converts | apply try_except_propagates ]).
  intros st e He failed. subst failed. cbv beta.
  repeat match goal with |- _ /\ _ => split end.
  - intros name project input_paths tags descr output Hcreate.
    unfold create_dataset. erewrite try_except_raised; [ reflexivity | | exact He ].
    unfold create_dataset_body. rewrite bind_run, call_run, Hcreate. reflexivity.
  - intros name project input_path rest tags descr output dataset Hcreate Hexists.
    unfold create_dataset. erewrite try_except_raised; [ reflexivity | | exact He ].
    unfold create_dataset_body. rewrite bind_run, call_run, Hcreate.
    unfold create_dataset_stage. cbn [truthy_list list_or_empty create_dataset_add_paths].
    rewrite bind_run, bind_run, query_run. cbn [fs]. rewrite Hexists. reflexivity.
  - intros id name project lookup Hlookup Hget.
    repeat match goal with |- _ /\ _ => split end; intros.
    + unfold create_version. erewrite try_except_raised; [ reflexivity | | exact He ].
      unfold create_version_body. rewrite Hlookup, bind_run, call_run, Hget. reflexivity.
    + unfold download_dataset. erewrite try_except_raised; [ reflexivity | | exact He ].
      unfold download_dataset_body. rewrite Hlookup, bind_run, call_run, Hget. reflexivity.
    + unfold get_dataset_info. erewrite try_except_raised; [ reflexivity | | exact He ].
      unfold get_dataset_info_body. rewrite Hlookup, bind_run, call_run, Hget. reflexivity.
  - intros project tags only_completed Hlist.
    unfold list_datasets. erewrite try_except_raised; [ reflexivity | | exact He ].
    unfold list_datasets_body. rewrite bind_run, call_run, Hlist. reflexivity.
Qed.

(** ** A path that does not exist *)

Lemma no_upload_refl (st : state) : no_upload_between st st.
Proof. exists []. rewrite app_nil_r. auto. Qed.

Lemma no_upload_trans (st1 st2 st3 : state) :
  no_upload_between st1 st2 -> no_upload_between st2 st3 -> no_upload_between st1 st3.
Proof.
  intros (new1 & H1 & Hu1) (new2 & H2 & Hu2). exists (new1 ++ new2).
  rewrite H2, H1, <- app_assoc, existsb_app, Hu1, Hu2. auto.
Qed.

Lemma call_no_upload {A} (c : sdk_call) (op : S -> reply S A) (st st' : state) r :
  is_upload c = false -> call c op st = (r, st') -> no_upload_between st st' /\ fs st' = fs st.
Proof.
  intros Hc Hrun. destruct (stages_call c op Hc _ _ _ Hrun) as (Hfs & _ & Hnew). auto.
Qed.

(** Staging a list of paths whose first missing path is [missing]. *)
Lemma stage_first_missing dataset before missing after (st st' : state) r :
  Forall (fun q => path_exists (fs st) (Path q) <> inr false) before ->
  path_exists (fs st) (Path missing) = inr false ->
  create_dataset_stage dataset (Some (before ++ missing :: after)) st = (r, st') ->
  no_upload_between st st'
  /\ ((exists e, r = Raised e)
      \/ r = Returned (inl (error_envelope ("Path does not exist: " +:+ missing)))).
Proof.
  intros Hbefore Hmissing Hrun.
  destruct (create_dataset_stage_stages _ _ _ _ _ Hrun) as (_ & _ & Hnew).
  split; [ exact Hnew | ].
  unfold create_dataset_stage in Hrun.
  replace (truthy_list (Some (before ++ missing :: after))) with true in Hrun
    by (destruct before; reflexivity).
  eapply add_paths_first_missing; eassumption.
Qed.

(** The body of [create_dataset] on such a list. *)
Lemma create_dataset_body_missing name project tags descr output before missing after
    (st st' : state) r :
  Forall (fun q => path_exists (fs st) (Path q) <> inr false) before ->
  path_exists (fs st) (Path missing) = inr false ->
  create_dataset_body name project (Some (before ++ missing :: after)) tags descr output st
  = (r, st') ->
  no_upload_between st st'
  /\ ((exists e, r = Raised e)
      \/ r = Returned (error_envelope ("Path does not exist: " +:+ missing))).
Proof.
  intros Hbefore Hmissing. unfold create_dataset_body.
  intros [ (dataset & st1 & Hcreate & Hrun) | (e & Hcreate & ->) ]%bind_inv.
  - apply call_no_upload in Hcreate as [Hnew1 Hfs1]; [ | reflexivity ].
    apply bind_inv in Hrun as [ (staged & st2 & Hstage & Hrun) | (e & Hstage & ->) ];
      (apply stage_first_missing in Hstage as [Hnew2 Hstaged];
       [ | rewrite Hfs1; assumption | rewrite Hfs1; assumption ]).
    + destruct Hstaged as [ [e [=]] | [= ->] ]. injection Hrun as <- <-.
      split; [ eapply no_upload_trans; eassumption | auto ].
    + split; [ eapply no_upload_trans; eassumption | eauto ].
  - apply call_no_upload in Hcreate as [Hnew1 _]; [ | reflexivity ]. eauto.
Qed.

(** The body of [create_version] on such a list: what it gives is told by
    the lookup of the parent. *)
Lemma create_version_body_missing parent_id parent_name parent_project tags descr
    before missing after (st st' : state) r :
  Forall (fun q => path_exists (fs st) (Path q) <> inr false) before ->
  path_exists (fs st) (Path missing) = inr false ->
  create_version_body parent_id parent_name parent_project
    (Some (before ++ missing :: after)) tags descr st = (r, st') ->
  no_upload_between st st'
  /\ match lookup_kwargs parent_id parent_name parent_project with
     | None => r = Returned (error_envelope "Either parent_id or parent_name is required")
     | Some lookup =>
         match r_result (Dataset_get lookup (sdk_state st)) with
         | inl e => r = Raised e
         | inr None => r = Returned (error_envelope "Parent dataset not found")
         | inr (Some parent) =>
             (exists e, r = Raised e)
             \/ r = Returned (error_envelope ("Path does not exist: " +:+ missing))
         end
     end.
Proof.
  intros Hbefore Hmissing. unfold create_version_body.
  destruct (lookup_kwargs parent_id parent_name parent_project) as [ lookup | ];
    [ | intros [= <- <-]; split; [ apply no_upload_refl | reflexivity ] ].
  intros [ (found & st0 & Hget & Hrun) | (e & Hget & ->) ]%bind_inv.
  - pose proof Hget as (Hfound & _)%call_returned. rewrite Hfound.
    apply call_no_upload in Hget as [Hnew0 Hfs0]; [ | reflexivity ].
    destruct found as [ parent | ];
      [ | injection Hrun as <- <-; split; [ exact Hnew0 | reflexivity ] ].
    apply bind_inv in Hrun as [ (dataset & st1 & Hcreate & Hrun) | (e & Hcreate & ->) ].
    + apply call_no_upload in Hcreate as [Hnew1 Hfs1]; [ | reflexivity ].
      assert (Hnew : no_upload_between st st1) by (eapply no_upload_trans; eassumption).
      apply bind_inv in Hrun as [ (staged & st2 & Hstage & Hrun) | (e & Hstage & ->) ];
        (rewrite stage_eq in Hstage;
         apply stage_first_missing in Hstage as [Hnew2 Hstaged];
         [ | rewrite Hfs1, Hfs0; assumption | rewrite Hfs1, Hfs0; assumption ]).
      * destruct Hstaged as [ [e [=]] | [= ->] ]. injection Hrun as <- <-.
        split; [ eapply no_upload_trans; eassumption | auto ].
      * split; [ eapply no_upload_trans; eassumption | eauto ].
    + apply call_no_upload in Hcreate as [Hnew1 _]; [ | reflexivity ].
      split; [ eapply no_upload_trans; eassumption | eauto ].
  - pose proof Hget as Hraised. rewrite call_run in Hraised.
    destruct (r_result (Dataset_get lookup (sdk_state st))) as [ e' | found ];
      [ | discriminate ].
    injection Hraised as -> _.
    apply call_no_upload in Hget as [Hnew0 _]; [ | reflexivity ]. auto.
Qed.

(** C4, as amended: when the list of input paths of [create_dataset] or
    [create_version] contains a path that does not exist, [upload] is never
    invoked and the action reports no success.  With [missing] the first
    such path of the list, the envelope is
    [{success: false, error: "Path does not exist: <missing>"}], whose
    message contains the path, unless a step before the check of [missing]
    raised.  In [create_version] this is so once the parent is given and
    found; a parent that is not given, or that [Dataset.get] does not
    find, is reported instead, and an exception of [Dataset.get] is the
    one the body raises. *)
Theorem missing_path_stops_before_upload :
  forall before missing after (st : state),
    Forall (fun q => path_exists (fs st) (Path q) <> inr false) before ->
    path_exists (fs st) (Path missing) = inr false ->
    let input_paths := Some (before ++ missing :: after) in
    let path_error := error_envelope ("Path does not exist: " +:+ missing) in
    contains missing ("Path does not exist: " +:+ missing) = true
    /\ (forall name project tags descr output r st',
          create_dataset name project input_paths tags descr output st = (r, st') ->
          no_upload_between st st'
          /\ reports_failure r
          /\ (r = Returned path_error
              \/ exists e, create_dataset_body name project input_paths tags descr output st
                           = (Raised e, st')))
    /\ (forall parent_id parent_name parent_project tags descr r st',
          create_version parent_id parent_name parent_project input_paths tags descr st
          = (r, st') ->
          no_upload_between st st'
          /\ reports_failure r
          /\ match lookup_kwargs parent_id parent_name parent_project with
             | None =>
                 r = Returned (error_envelope "Either parent_id or parent_name is required")
             | Some lookup =>
                 match r_result (Dataset_get lookup (sdk_state st)) with
                 | inl e =>
                     create_version_body parent_id parent_name parent_project
                       input_paths tags descr st = (Raised e, st')
                 | inr None => r = Returned (error_envelope "Parent dataset not found")
                 | inr (Some parent) =>
                     r = Returned path_error
                     \/ exists e, create_version_body parent_id parent_name parent_project
                                    input_paths tags descr st = (Raised e, st')
                 end
             end).
Proof.
  intros before missing after st Hbefore Hmissing input_paths path_error.
  split; [ apply path_error_contains | split ].
  - intros name project tags descr output r st'.
    unfold create_dataset. rewrite try_except_run.
    destruct (create_dataset_body _ _ _ _ _ _ st) as [rb st1] eqn:Hbody.
    pose proof Hbody as Hrun.
    apply create_dataset_body_missing in Hrun as [Hnew [ [e ->] | -> ]]; try assumption.
    + destruct (exn_is_Exception e) eqn:He; intros [= <- <-];
        (split; [ exact Hnew | split; [ first [ reflexivity | exact He ] | eauto ] ]).
    + intros [= <- <-]. split; [ exact Hnew | split; [ reflexivity | auto ] ].
  - intros parent_id parent_name parent_project tags descr r st'.
    unfold create_version. rewrite try_except_run.
    destruct (create_version_body _ _ _ _ _ _ st) as [rb st1] eqn:Hbody.
    pose proof Hbody as Hrun.
    apply create_version_body_missing in Hrun as [Hnew Hcases]; try assumption.
    destruct (lookup_kwargs parent_id parent_name parent_project) as [ lookup | ].
    2: { subst rb. intros [= <- <-]. split; [ exact Hnew | split; reflexivity ]. }
    destruct (r_result (Dataset_get lookup (sdk_state st))) as [ e | [ parent | ] ].
    + subst rb. destruct (exn_is_Exception e) eqn:He; intros [= <- <-];
        (split; [ exact Hnew | split; [ first [ reflexivity | exact He ] | reflexivity ] ]).
    + destruct Hcases as [ [e ->] | -> ].
      * destruct (exn_is_Exception e) eqn:He; intros [= <- <-];
          (split; [ exact Hnew | split; [ first [ reflexivity | exact He ] | eauto ] ]).
      * intros [= <- <-]. split; [ exact Hnew | split; [ reflexivity | auto ] ].
    + subst rb. intros [= <- <-]. split; [ exact Hnew | split; reflexivity ].
Qed.

(** ** The script *)

(** C9, as amended: when the import of the SDK raises [ImportError],
    whatever the command line, the script prints the one-line envelope
    [{success: false, error: ..., installCommand: "pip install clearml"}]
    and exits with 1; it calls nothing, and the outcome is the same for
    every command line, those the parser would reject included.  An import
    that raises an exception of another class is not caught: the process
    ends with that exception before [main] is called, and prints nothing. *)
Theorem sdk_unavailable_exits_before_parsing :
  forall help arg_strings argv (st : state),
    clearml_wrapper help ImportRaisesImportError arg_strings st
    = Some (Exit 1, print (dumps sdk_missing_envelope) st)
    /\ main help ImportErrorRaised argv st = (Exit 1, print (dumps sdk_missing_envelope) st)
    /\ main help ImportErrorRaised argv st = main help ImportErrorRaised [] st
    /\ stdout (print (dumps sdk_missing_envelope) st) = stdout st ++ [dumps sdk_missing_envelope]
    /\ calls (print (dumps sdk_missing_envelope) st) = calls st
    /\ environ (print (dumps sdk_missing_envelope) st) = environ st
    /\ dict_get "success" sdk_missing_envelope = Some (JBool false)
    /\ dict_get "installCommand" sdk_missing_envelope = Some (JStr "pip install clearml")
    /\ (forall e, clearml_wrapper help (ImportRaises e) arg_strings st = Some (Uncaught e, st)).
Proof.
  intros help arg_strings argv st. repeat split.
Qed.







(** ** What the actions return *)

Lemma returns_envelope_ret fields : returns_envelope (mret (JDict fields)).
Proof. intros st v st' [= <- _]. eauto. Qed.

Lemma returns_envelope_bind {A} (m : M A) (k : A -> M json) :
  (forall a st st1, m st = (Returned a, st1) -> returns_envelope (k a)) ->
  returns_envelope (m ≫= k).
Proof.
  intros Hk st v st' (a & st1 & Hm & Hrun)%bind_returned. eapply Hk; eassumption.
Qed.

Lemma returns_envelope_try body : returns_envelope body -> returns_envelope (try_except body).
Proof.
  intros Hbody st v st'. rewrite try_except_run.
  destruct (body st) as [[v' | e] st1] eqn:Hrun.
  - intros [= <- _]. eapply Hbody, Hrun.
  - destruct (exn_is_Exception e); [ | discriminate ]. intros [= <- _].
    unfold error_envelope. eauto.
Qed.

Lemma stage_early_return dataset input_paths (st st' : state) envelope :
  create_dataset_stage dataset input_paths st = (Returned (inl envelope), st') ->
  exists fields, envelope = JDict fields.
Proof.
  unfold create_dataset_stage. destruct (truthy_list input_paths); [ | discriminate ].
  intros (p & _ & ->)%add_paths_early_return. unfold error_envelope. eauto.
Qed.

Ltac envelope_step :=
  match goal with
  | |- returns_envelope (mret (JDict _)) => apply returns_envelope_ret
  | |- returns_envelope (mret (error_envelope _)) => apply returns_envelope_ret
  | |- returns_envelope (_ ≫= _) => apply returns_envelope_bind; intros ? ? ? ?
  | |- returns_envelope (match ?x with Some _ => _ | None => _ end) => destruct x
  | |- returns_envelope (if ?b then _ else _) => destruct b
  end.

Lemma create_dataset_body_envelope name project input_paths tags descr output :
  returns_envelope (create_dataset_body name project input_paths tags descr output).
Proof.
  unfold create_dataset_body. do 2 envelope_step.
  match goal with H : create_dataset_stage _ _ _ = (Returned ?x, _) |- _ =>
    destruct x as [ early | [files_added total_size] ];
      [ apply stage_early_return in H as [fields ->] | ] end;
    repeat envelope_step.
Qed.

Lemma create_version_body_envelope parent_id parent_name parent_project input_paths tags descr :
  returns_envelope
    (create_version_body parent_id parent_name parent_project input_paths tags descr).
Proof.
  unfold create_version_body. do 5 envelope_step.
  match goal with H : create_version_stage _ _ _ = (Returned ?x, _) |- _ =>
    rewrite stage_eq in H;
    destruct x as [ early | [files_added total_size] ];
      [ apply stage_early_return in H as [fields ->] | ] end;
    repeat envelope_step.
Qed.

Lemma download_dataset_body_envelope dataset_id dataset_name dataset_project output_path :
  returns_envelope (download_dataset_body dataset_id dataset_name dataset_project output_path).
Proof. unfold download_dataset_body. repeat envelope_step. Qed.

Lemma list_datasets_body_envelope project tags only_completed :
  returns_envelope (list_datasets_body project tags only_completed).
Proof. unfold list_datasets_body. repeat envelope_step. Qed.

Lemma get_dataset_info_body_envelope dataset_id dataset_name dataset_project :
  returns_envelope (get_dataset_info_body dataset_id dataset_name dataset_project).
Proof. unfold get_dataset_info_body. repeat envelope_step. Qed.

(** Every result of the dispatch is a JSON object. *)
Lemma execute_action_envelope args : returns_envelope (execute_action args).
Proof.
  unfold execute_action.
  repeat match goal with |- returns_envelope (if ?b then _ else _) => destruct b end;
    try apply returns_envelope_ret;
    apply returns_envelope_try;
    auto using create_dataset_body_envelope, create_version_body_envelope,
      download_dataset_body_envelope, list_datasets_body_envelope,
      get_dataset_info_body_envelope.
Qed.

(** What the three [print] calls of lines 483-485 append. *)
Lemma print_result_stdout result (st : state) :
  stdout (print_result result st)
  = stdout st ++ [START_MARKER] ++ lines (dumps_indent2 result) ++ [END_MARKER].
Proof. unfold print_result, print. cbn [stdout]. rewrite <- !app_assoc. reflexivity. Qed.

(** C1, as amended: on every command line the parser accepts, when the SDK
    is importable and the action returns its envelope, the script writes
    the line [---CLEARML_JSON_START---], the lines of the pretty-printed
    envelope (a JSON object) and the line [---CLEARML_JSON_END---], after
    whatever the SDK logged.  Neither marker is a line of the envelope, so
    each occurs exactly once on standard output when the log of the SDK
    holds neither. *)
Theorem markers_wrap_the_envelope :
  forall help argv args result (st st2 : state),
    parse_args argv = ParseOk args ->
    execute_action args
      (setup_credentials (argparse.api_host args) (argparse.web_host args)
         (argparse.files_host args) (argparse.access_key args) (argparse.secret_key args) st)
    = (Returned result, st2) ->
    let out := stdout (snd (main help Imported argv st)) in
    (exists fields, result = JDict fields)
    /\ fst (main help Imported argv st) = Exit (exit_code result)
    /\ out = stdout st2 ++ [START_MARKER] ++ lines (dumps_indent2 result) ++ [END_MARKER]
    /\ ~ In START_MARKER (lines (dumps_indent2 result))
    /\ ~ In END_MARKER (lines (dumps_indent2 result))
    /\ (~ In START_MARKER (stdout st2) -> ~ In END_MARKER (stdout st2) ->
        count_occ string_dec out START_MARKER = 1%nat
        /\ count_occ string_dec out END_MARKER = 1%nat).
Proof.
  intros help argv args result st st2 Hparse Hrun out.
  destruct (execute_action_envelope _ _ _ _ Hrun) as [fields ->].
  destruct (markers_not_in_envelope fields) as [Hstart Hend].
  assert (Hout : out = stdout st2 ++ [START_MARKER]
                         ++ lines (dumps_indent2 (JDict fields)) ++ [END_MARKER]).
  { subst out. unfold main. cbn [CLEARML_AVAILABLE negb]. rewrite Hparse. cbv zeta.
    rewrite Hrun. cbn [snd]. apply print_result_stdout. }
  split; [ eauto | ]. split.
  { unfold main. cbn [CLEARML_AVAILABLE negb]. rewrite Hparse. cbv zeta. rewrite Hrun.
    reflexivity. }
  split; [ exact Hout | ]. split; [ exact Hstart | ]. split; [ exact Hend | ].
  intros Hlog_start Hlog_end. rewrite Hout.
  apply count_occ_wrapped; try assumption. discriminate.
Qed.

End Runs.

(** ** The serialiser on examples *)

Example dumps_example :
  dumps (JDict [("success", JBool false); ("n", JInt (-12)); ("l", JList [JNull; JStr "a\b"])])
  = "{" +:+ quote "success" +:+ ": false, " +:+ quote "n" +:+ ": -12, " +:+ quote "l"
        +:+ ": [null, " +:+ String dquote ("a\\b" +:+ String dquote "]}").
Proof. vm_compute. reflexivity. Qed.

Example dumps_indent2_example :
  lines (dumps_indent2 (JDict [("a", JList [JInt 1; JInt 2]); ("b", JList [])]))
  = [ "{";
      "  " +:+ quote "a" +:+ ": [";
      "    1,";
      "    2";
      "  ],";
      "  " +:+ quote "b" +:+ ": []";
      "}" ].
Proof. vm_compute. reflexivity. Qed.

Example escape_example :
  escape (String (ascii_of_nat 10) (String (ascii_of_nat 127) (String (ascii_of_nat 233) "")))
  = "\n\u007f\u00e9".
Proof. vm_compute. reflexivity. Qed.

(** ** The small world: what [rglob] finds *)

Lemma node_induction (Q : Toy.node -> Prop) :
  (forall size, Q (Toy.File size)) ->
  Q Toy.Special ->
  (forall entries, Forall (fun e => Q (snd e)) entries -> Q (Toy.Dir entries)) ->
  forall n, Q n.
Proof.
  intros Hfile Hspecial Hdir. fix IH 1. intros [ size | entries | ].
  - apply Hfile.
  - apply Hdir.
    exact ((fix all (l : list (string * Toy.node)) : Forall (fun e => Q (snd e)) l :=
              match l with
              | [] => @List.Forall_nil _ _
              | e :: r => @List.Forall_cons _ (fun e => Q (snd e)) e r (IH (snd e)) (all r)
              end) entries).
  - exact Hspecial.
Qed.

(** Below a node, the way down does not depend on the way there. *)
Lemma walk_below rel :
  Toy.plain rel -> forall above n, Toy.walk above n rel = Toy.walk [] n rel.
Proof.
  induction 1 as [ | c rel Hc Hrel IH ]; intros above n; [ reflexivity | ].
  cbn [Toy.walk]. destruct n as [ size | entries | ]; try reflexivity.
  apply String.eqb_neq in Hc. rewrite Hc.
  destruct (Toy.find_entry c entries) as [ child | ]; [ | reflexivity ].
  rewrite (IH [Toy.Dir entries]). apply IH.
Qed.

Lemma walk_app_below a :
  forall above here n rel,
    Toy.walk above here a = Some n -> Toy.plain rel ->
    Toy.walk above here (a ++ rel) = Toy.walk [] n rel.
Proof.
  induction a as [ | c a IH ]; intros above here n rel Hwalk Hrel.
  - injection Hwalk as ->. apply walk_below, Hrel.
  - cbn [app Toy.walk] in *. destruct here as [ size | entries | ]; try discriminate.
    destruct (String.eqb c "..").
    + destruct above; eapply IH; eassumption.
    + destruct (Toy.find_entry c entries); [ eapply IH; eassumption | discriminate ].
Qed.

Lemma find_entry_unique before name child after :
  NoDup (List.map fst (before ++ (name, child) :: after)) ->
  Toy.find_entry name (before ++ (name, child) :: after) = Some child.
Proof.
  induction before as [ | [n0 c0] before IH ]; cbn [app List.map fst Toy.find_entry].
  - rewrite String.eqb_refl. reflexivity.
  - intros Hnodup. apply NoDup_cons in Hnodup as [Hfresh Hrest].
    destruct (String.eqb_spec n0 name) as [ -> | _ ]; [ | apply IH, Hrest ].
    exfalso. apply Hfresh. rewrite map_app. apply list_elem_of_In, in_app_iff. right. left.
    reflexivity.
Qed.

Lemma files_among_app look a b :
  Toy.files_among look (a ++ b) = Toy.files_among look a ++ Toy.files_among look b.
Proof.
  induction a as [ | q a IH ]; [ reflexivity | ]. cbn [app Toy.files_among].
  destruct (look q) as [ [ size | | ] | ]; rewrite IH; reflexivity.
Qed.

(** The entries of a directory of a well-formed tree, seen from outside. *)
Lemma entry_found entries name child :
  NoDup (List.map fst entries) -> In (name, child) entries ->
  Toy.find_entry name entries = Some child.
Proof.
  intros Hnodup (before & after & ->)%in_split. apply find_entry_unique, Hnodup.
Qed.

Lemma files_among_here look prefix entries :
  (forall name child, In (name, child) entries -> look (prefix ++ [name]) = Some child) ->
  Toy.files_among look (List.map (fun e => prefix ++ [fst e]) entries)
  = Toy.files_here prefix entries.
Proof.
  induction entries as [ | [name child] entries IH ]; intros Hlook; [ reflexivity | ].
  cbn [List.map fst Toy.files_among Toy.files_here].
  rewrite (Hlook name child) by (left; reflexivity).
  rewrite IH by (intros n c Hin; apply Hlook; right; exact Hin).
  destruct child; reflexivity.
Qed.

(** In a well-formed tree, the entries found below a node that are regular
    files are the regular files of the subtree. *)
Lemma descendants_files n :
  Toy.well_formed n ->
  forall prefix look,
    (forall rel, Toy.plain rel -> look (prefix ++ rel) = Toy.walk [] n rel) ->
    Toy.files_among look (Toy.descendants prefix n) = Toy.files_below prefix n.
Proof.
  induction n as [ size | | entries IH ] using node_induction; intros Hwf prefix look Hlook;
    try reflexivity.
  inversion_clear Hwf as [ | | ? Hnodup Hnames Hchildren ].
  rewrite Forall_forall in Hnames, Hchildren, IH.
  assert (Hdown : forall name child, In (name, child) entries ->
             forall rel, Toy.plain rel ->
               look ((prefix ++ [name]) ++ rel) = Toy.walk [] child rel).
  { intros name child Hin rel Hrel. rewrite <- app_assoc. cbn [app].
    assert (Hname : name <> "..") by (apply (Hnames (name, child)), list_elem_of_In, Hin).
    rewrite Hlook by (constructor; assumption).
    cbn [Toy.walk]. apply String.eqb_neq in Hname.
    rewrite Hname, (entry_found _ _ _ Hnodup Hin). apply walk_below, Hrel. }
  cbn [Toy.descendants Toy.files_below]. rewrite files_among_app. f_equal.
  - apply files_among_here. intros name child Hin.
    rewrite <- (app_nil_r (prefix ++ [name])).
    rewrite (Hdown name child Hin) by constructor. reflexivity.
  - match goal with
    | |- Toy.files_among look (?D entries) = ?G entries =>
        cut (forall l, (forall e, In e l -> In e entries) ->
               Toy.files_among look (D l) = G l);
          [ intros Hcut; apply Hcut; auto | ]
    end.
    induction l as [ | [name child] l IHl ]; intros Hin; [ reflexivity | ].
    rewrite files_among_app, IHl by (intros e He; apply Hin; right; exact He).
    f_equal. apply (IH (name, child)).
    + apply list_elem_of_In, Hin. left. reflexivity.
    + apply (Hchildren (name, child)), list_elem_of_In, Hin. left. reflexivity.
    + apply Hdown, Hin. left. reflexivity.
Qed.

(** What [is_regular] and [st_size] say of the paths of the small world. *)
Lemma toy_is_regular root is_absolute q :
  is_regular root (Toy.MkPath is_absolute q)
  = match Toy.walk [] root q with
    | Some (Toy.File _) => true
    | _ => false
    end.
Proof.
  unfold is_regular. cbn [is_file Toy.toy_fs]. unfold Toy.toy_is_file, Toy.lookup.
  cbn [Toy.parts]. destruct (Toy.walk [] root q) as [ [ size | entries | ] | ]; reflexivity.
Qed.

Lemma toy_regular_files root is_absolute paths :
  regular_files root (List.map (Toy.MkPath is_absolute) paths)
  = List.map (fun e => Toy.MkPath is_absolute (fst e))
      (Toy.files_among (Toy.walk [] root) paths)
  /\ Forall2 (fun p size => st_size root p = inr size)
       (regular_files root (List.map (Toy.MkPath is_absolute) paths))
       (List.map snd (Toy.files_among (Toy.walk [] root) paths)).
Proof.
  induction paths as [ | q paths [IHfiles IHsizes] ]; [ split; [ reflexivity | constructor ] | ].
  unfold regular_files in *. cbn [List.map List.filter Toy.files_among].
  rewrite toy_is_regular.
  destruct (Toy.walk [] root q) as [ [ size | entries | ] | ] eqn:Hq; try (split; assumption).
  cbn [List.map fst snd]. split; [ rewrite IHfiles; reflexivity | ].
  constructor; [ | exact IHsizes ].
  cbn [st_size Toy.toy_fs]. unfold Toy.toy_st_size, Toy.lookup. cbn [Toy.parts].
  rewrite Hq. reflexivity.
Qed.

(** A regular file holds nothing; below any other node, the listed files
    are the regular files of the subtree. *)
Lemma count_files_below n :
  forall prefix,
    length (Toy.files_below prefix n)
    = match n with Toy.File _ => 0%nat | _ => Toy.count_files n end
    /\ sum_sizes (List.map snd (Toy.files_below prefix n))
       = match n with Toy.File _ => 0 | _ => Toy.total_bytes n end.
Proof.
  induction n as [ size | | children IH ] using node_induction;
    intros prefix; try (split; reflexivity).
  cbn [Toy.files_below Toy.count_files Toy.total_bytes].
  rewrite length_app, map_app, sum_sizes_app.
  induction IH as [ | [name child] rest Hchild Hrest IHrest ]; [ split; reflexivity | ].
  destruct IHrest as [IHcount IHbytes]. cbn [snd] in Hchild.
  destruct (Hchild (prefix ++ [name])) as [Hcount Hbytes].
  rewrite length_app, map_app, sum_sizes_app.
  destruct child as [ size | grandchildren | ]; cbn [Toy.files_here length List.map snd].
  - rewrite Hcount, Hbytes. split; [ cbn; lia | ].
    cbn [Toy.total_bytes]. unfold sum_sizes in *. cbn [fold_right]. lia.
  - rewrite Hcount, Hbytes. split; [ lia | lia ].
  - rewrite Hcount, Hbytes. split; [ cbn; lia | cbn [Toy.total_bytes]; lia ].
Qed.

(** In the small world, the regular files found under a directory are the
    regular files of its subtree: as many, and of the same total size. *)
Lemma toy_rglob_finds_the_files root p entries :
  Toy.lookup root p = Some (Toy.Dir entries) ->
  Toy.well_formed (Toy.Dir entries) ->
  exists sizes,
    Forall2 (fun q size => st_size root q = inr size)
      (regular_files root (fst (rglob root p))) sizes
    /\ length (regular_files root (fst (rglob root p))) = Toy.count_files (Toy.Dir entries)
    /\ sum_sizes sizes = Toy.total_bytes (Toy.Dir entries).
Proof.
  intros Hlookup Hwf.
  cbn [rglob Toy.toy_fs]. unfold Toy.toy_rglob. rewrite Hlookup. cbn [fst].
  destruct (toy_regular_files root (Toy.absolute p)
              (Toy.descendants (Toy.parts p) (Toy.Dir entries))) as [Hfiles Hsizes].
  rewrite (descendants_files _ Hwf (Toy.parts p) (Toy.walk [] root)) in Hfiles, Hsizes
    by (intros rel Hrel; apply walk_app_below; assumption).
  destruct (count_files_below (Toy.Dir entries) (Toy.parts p)) as [Hcount Hbytes].
  eexists. split; [ exact Hsizes | ]. split; [ | exact Hbytes ].
  rewrite Hfiles, length_map. exact Hcount.
Qed.

Lemma tree_well_formed : Toy.well_formed Toy.tree.
Proof.
  repeat first
    [ apply Toy.wf_file | apply Toy.wf_special | apply Toy.wf_dir
    | apply List.NoDup_nil
    | apply List.NoDup_cons; [ cbn; intuition discriminate | ]
    | apply List.Forall_nil
    | apply List.Forall_cons; [ try (cbn; discriminate) | ] ].
  all: apply (bool_decide_unpack _); vm_compute; exact I.
Qed.

Example tree_files :
  Toy.count_files Toy.tree = 3%nat /\ Toy.total_bytes Toy.tree = 15.
Proof. split; reflexivity. Qed.

(** ** The claims on the small world *)


(** [create] of [a.txt] and [data]: three files, fifteen bytes. *)
Lemma create_counts_witness :
  is_file Toy.tree (Path "a.txt") = inr true
  /\ is_file Toy.tree (Path "data") = inr false
  /\ is_dir Toy.tree (Path "data") = inr true
  /\ dict_get "success" (Toy.returned Toy.created) = Some (JBool true)
  /\ exists size sizes,
       st_size Toy.tree (Path "a.txt") = inr size
       /\ Forall2 (fun p z => st_size Toy.tree p = inr z)
            (regular_files Toy.tree (fst (rglob Toy.tree (Path "data")))) sizes
       /\ dict_get "filesAdded" (Toy.returned Toy.created)
          = Some (JInt (1 + Z.of_nat (length (regular_files Toy.tree
                                                (fst (rglob Toy.tree (Path "data")))))))
       /\ dict_get "totalSize" (Toy.returned Toy.created) = Some (JInt (size + sum_sizes sizes)).
Proof.
  assert (Hfile : is_file Toy.tree (Path "a.txt") = inr true) by (vm_compute; reflexivity).
  assert (Hnotfile : is_file Toy.tree (Path "data") = inr false) by (vm_compute; reflexivity).
  assert (Hdir : is_dir Toy.tree (Path "data") = inr true) by (vm_compute; reflexivity).
  assert (Hok : dict_get "success" (Toy.returned Toy.created) = Some (JBool true))
    by (vm_compute; reflexivity).
  assert (Hrun : create_dataset "x" None (Some ["a.txt"; "data"]) None None None
                   (Toy.start Toy.friendly)
                 = (Returned (Toy.returned Toy.created), snd Toy.created))
    by (vm_compute; reflexivity).
  repeat (split; [ assumption | ]).
  exact (create_counts_file_and_directory (FS := Toy.toy_fs) (Sdk := Toy.toy_sdk)
           "x" None None None None "a.txt" "data" ["a.txt"; "data"] (Toy.start Toy.friendly)
           (snd Toy.created) (Toy.returned Toy.created)
           (or_introl eq_refl) Hfile Hnotfile Hdir Hrun Hok).
Defined.

Example create_counts_values :
  dict_get "filesAdded" (Toy.returned Toy.created) = Some (JInt 3)
  /\ dict_get "totalSize" (Toy.returned Toy.created) = Some (JInt 15).
Proof. split; vm_compute; reflexivity. Qed.

(** [create] of [a.txt], [nope] and [data], and a version of [d1] with
    them: [nope] is the first path that is not there, and the envelope
    names it. *)
Lemma missing_path_witness :
  Forall (fun q => path_exists Toy.tree (Path q) <> inr false) ["a.txt"]
  /\ path_exists Toy.tree (Path "nope") = inr false
  /\ (forall r st',
        create_dataset "x" None (Some (["a.txt"] ++ "nope" :: ["data"])) None None None
          (Toy.start Toy.friendly) = (r, st') ->
        no_upload_between (Toy.start Toy.friendly) st'
        /\ reports_failure r)
  /\ (forall r st',
        create_version (Some "d1") None None (Some (["a.txt"] ++ "nope" :: ["data"])) None None
          (Toy.start Toy.friendly) = (r, st') ->
        no_upload_between (Toy.start Toy.friendly) st'
        /\ r = Returned (error_envelope "Path does not exist: nope")).
Proof.
  assert (Hbefore : Forall (fun q => path_exists Toy.tree (Path q) <> inr false) ["a.txt"])
    by (repeat constructor; vm_compute; discriminate).
  assert (Hmissing : path_exists Toy.tree (Path "nope") = inr false)
    by (vm_compute; reflexivity).
  split; [ exact Hbefore | ]. split; [ exact Hmissing | ].
  destruct (missing_path_stops_before_upload (FS := Toy.toy_fs) (Sdk := Toy.toy_sdk)
              ["a.txt"] "nope" ["data"] (Toy.start Toy.friendly) Hbefore Hmissing)
    as (_ & Hcreate & Hversion).
  split.
  - intros r st' Hrun.
    destruct (Hcreate _ _ _ _ _ _ _ Hrun) as (Hnew & Hfail & _). auto.
  - intros r st' Hrun.
    destruct (Hversion _ _ _ _ _ _ _ Hrun) as (Hnew & _ & Hcases).
    split; [ exact Hnew | ].
    vm_compute in Hcases.
    destruct Hcases as [ -> | [e Hraised] ]; [ reflexivity | discriminate Hraised ].
Defined.

Example missing_path_values :
  Toy.returned (create_dataset "x" None (Some ["a.txt"; "nope"; "data"]) None None None
                  (Toy.start Toy.friendly))
  = error_envelope "Path does not exist: nope"
  /\ existsb is_upload
       (calls (snd (create_dataset "x" None (Some ["a.txt"; "nope"; "data"]) None None None
                      (Toy.start Toy.friendly)))) = false.
Proof. split; vm_compute; reflexivity. Qed.

(** [info] on the dataset [d1], whose listing has two entries. *)
Lemma info_witness :
  dict_get "success" (Toy.returned Toy.informed) = Some (JBool true)
  /\ exists lookup dataset file_entries files,
       lookup_kwargs (Some "d1") None None = Some lookup
       /\ r_result (Dataset_get lookup (sdk_state (Toy.start Toy.friendly)))
          = inr (Some dataset)
       /\ r_result (list_files dataset
                      (r_next (Dataset_get lookup (sdk_state (Toy.start Toy.friendly)))))
          = inr file_entries
       /\ dict_get "fileCount" (Toy.returned Toy.informed)
          = Some (JInt (Z.of_nat (length file_entries)))
       /\ dict_get "files" (Toy.returned Toy.informed) = Some (JList files)
       /\ (length files <= 50)%nat
       /\ length files = Nat.min 50 (length file_entries)
       /\ List.map (dict_get "path") files
          = List.map (fun entry => Some (JStr entry)) (firstn 50 file_entries).
Proof.
  assert (Hok : dict_get "success" (Toy.returned Toy.informed) = Some (JBool true))
    by (vm_compute; reflexivity).
  assert (Hrun : get_dataset_info (Some "d1") None None (Toy.start Toy.friendly)
                 = (Returned (Toy.returned Toy.informed), snd Toy.informed))
    by (vm_compute; reflexivity).
  split; [ exact Hok | ].
  exact (info_lists_at_most_50_files (Sdk := Toy.toy_sdk)
           (Some "d1") None None (Toy.start Toy.friendly) (snd Toy.informed)
           (Toy.returned Toy.informed) Hrun Hok).
Defined.

(** [list] on a service that knows two datasets. *)
Lemma list_witness :
  dict_get "success" (Toy.returned Toy.listed) = Some (JBool true)
  /\ exists records datasets,
       r_result (Dataset_list_datasets None None true (sdk_state (Toy.start Toy.friendly)))
       = inr records
       /\ dict_get "datasets" (Toy.returned Toy.listed) = Some (JList datasets)
       /\ dict_get "count" (Toy.returned Toy.listed)
          = Some (JInt (Z.of_nat (length datasets)))
       /\ Forall2 (fun (ds_info : gmap string json) element =>
                     dict_keys element = projected_fields
                     /\ dict_get "tags" element = Some (default (JList []) (ds_info !! "tags"))
                     /\ forall key, In key ["id"; "name"; "project"; "created"; "version"] ->
                          dict_get key element = Some (default JNull (ds_info !! key)))
            records datasets.
Proof.
  assert (Hok : dict_get "success" (Toy.returned Toy.listed) = Some (JBool true))
    by (vm_compute; reflexivity).
  assert (Hrun : list_datasets None None true (Toy.start Toy.friendly)
                 = (Returned (Toy.returned Toy.listed), snd Toy.listed))
    by (vm_compute; reflexivity).
  split; [ exact Hok | ].
  exact (list_datasets_projects_records (Sdk := Toy.toy_sdk)
           None None true (Toy.start Toy.friendly) (snd Toy.listed) (Toy.returned Toy.listed)
           Hrun Hok).
Defined.

(** [create] of a file and a directory from the command line: the SDK logs
    two lines, neither of them a marker. *)
Lemma markers_witness :
  parse_args Toy.create_two = ParseOk (Toy.parsed Toy.create_two)
  /\ ~ In START_MARKER
       (stdout (snd (execute_action (Toy.parsed Toy.create_two)
                       (Toy.ready Toy.create_two Toy.friendly))))
  /\ ~ In END_MARKER
       (stdout (snd (execute_action (Toy.parsed Toy.create_two)
                       (Toy.ready Toy.create_two Toy.friendly))))
  /\ count_occ string_dec (stdout (snd (Toy.run Imported Toy.create_two Toy.friendly)))
       START_MARKER = 1%nat
  /\ count_occ string_dec (stdout (snd (Toy.run Imported Toy.create_two Toy.friendly)))
       END_MARKER = 1%nat.
Proof.
  set (done := execute_action (Toy.parsed Toy.create_two)
                 (Toy.ready Toy.create_two Toy.friendly)).
  assert (Hparse : parse_args Toy.create_two = ParseOk (Toy.parsed Toy.create_two))
    by (vm_compute; reflexivity).
  assert (Hrun : done = (Returned (Toy.returned done), snd done))
    by (vm_compute; reflexivity).
  assert (Hstart : ~ In START_MARKER (stdout (snd done)))
    by (vm_compute; intros [ H | [ H | [] ] ]; discriminate).
  assert (Hend : ~ In END_MARKER (stdout (snd done)))
    by (vm_compute; intros [ H | [ H | [] ] ]; discriminate).
  split; [ exact Hparse | ]. split; [ exact Hstart | ]. split; [ exact Hend | ].
  destruct (markers_wrap_the_envelope (FS := Toy.toy_fs) (Sdk := Toy.toy_sdk)
              Toy.help_text Toy.create_two (Toy.parsed Toy.create_two)
              (Toy.returned done) (Toy.start Toy.friendly) (snd done) Hparse Hrun)
    as (_ & _ & _ & _ & _ & Hcount).
  exact (Hcount Hstart Hend).
Defined.


(** The service cannot be reached: [create_dataset] returns the envelope
    of the exception. *)
Lemma exceptions_witness :
  exn_is_Exception Toy.ConnectionError = true
  /\ create_dataset_body "x" None (Some ["a.txt"]) None None None (Toy.start Toy.offline)
     = (Raised Toy.ConnectionError,
        snd (create_dataset "x" None (Some ["a.txt"]) None None None (Toy.start Toy.offline)))
  /\ create_dataset "x" None (Some ["a.txt"]) None None None (Toy.start Toy.offline)
     = (Returned (error_envelope "connection refused"),
        snd (create_dataset "x" None (Some ["a.txt"]) None None None (Toy.start Toy.offline))).
Proof.
  assert (Hbody : create_dataset_body "x" None (Some ["a.txt"]) None None None
                    (Toy.start Toy.offline)
                  = (Raised Toy.ConnectionError,
                     snd (create_dataset "x" None (Some ["a.txt"]) None None None
                            (Toy.start Toy.offline))))
    by (vm_compute; reflexivity).
  split; [ reflexivity | ]. split; [ exact Hbody | ].
  destruct (actions_convert_exceptions (FS := Toy.toy_fs) (Sdk := Toy.toy_sdk))
    as (Hcreate & _).
  destruct (Hcreate "x" None (Some ["a.txt"]) None None None) as [Hconverts _].
  exact (Hconverts _ _ _ Hbody).
Defined.

(** ** Where the claims fail *)

(** C1 fails: without the SDK the script prints the bare envelope, and
    neither marker.  A command line the parser rejects, a call for help
    and an interrupted upload leave no marker either, and a line of the
    SDK that reads like a marker adds to the count. *)
Lemma markers_absent_counterexample :
  (fst (Toy.run ImportErrorRaised Toy.create_two Toy.friendly) = Exit 1
   /\ stdout (snd (Toy.run ImportErrorRaised Toy.create_two Toy.friendly))
      = [dumps sdk_missing_envelope]
   /\ count_occ string_dec (stdout (snd (Toy.run ImportErrorRaised Toy.create_two Toy.friendly)))
        START_MARKER = 0%nat
   /\ count_occ string_dec (stdout (snd (Toy.run ImportErrorRaised Toy.create_two Toy.friendly)))
        END_MARKER = 0%nat)
  /\ (fst (Toy.run Imported [Positional "list"] Toy.friendly) = Exit 2
      /\ stdout (snd (Toy.run Imported [Positional "list"] Toy.friendly)) = [])
  /\ (fst (Toy.run Imported [Flag "--help"] Toy.friendly) = Exit 0
      /\ stdout (snd (Toy.run Imported [Flag "--help"] Toy.friendly)) = [Toy.help_text])
  /\ (fst (Toy.run Imported Toy.create_two Toy.interrupted) = Uncaught Toy.KeyboardInterrupt
      /\ count_occ string_dec (stdout (snd (Toy.run Imported Toy.create_two Toy.interrupted)))
           START_MARKER = 0%nat)
  /\ (fst (Toy.run Imported Toy.create_two Toy.echoing) = Exit 0
      /\ count_occ string_dec (stdout (snd (Toy.run Imported Toy.create_two Toy.echoing)))
           START_MARKER = 3%nat).
Proof. repeat split; vm_compute; reflexivity. Qed.

(** C4 fails: the envelope names the first path that is not there, not a
    later one; and when the service cannot be reached, or the parent of a
    version is not given or not found, it names no path at all. *)
Lemma missing_path_counterexample :
  (path_exists Toy.tree (Path "nada") = inr false
   /\ Toy.returned (create_dataset "x" None (Some ["nope"; "nada"]) None None None
                      (Toy.start Toy.friendly))
      = error_envelope "Path does not exist: nope"
   /\ contains "nada" "Path does not exist: nope" = false)
  /\ (path_exists Toy.tree (Path "nope") = inr false
      /\ Toy.returned (create_dataset "x" None (Some ["nope"]) None None None
                         (Toy.start Toy.offline))
         = error_envelope "connection refused"
      /\ contains "nope" "connection refused" = false)
  /\ (Toy.returned (create_version (Some "d0") None None (Some ["nope"]) None None
                      (Toy.start Toy.empty_service))
      = error_envelope "Parent dataset not found"
      /\ contains "nope" "Parent dataset not found" = false)
  /\ (Toy.returned (create_version None None None (Some ["nope"]) None None
                      (Toy.start Toy.friendly))
      = error_envelope "Either parent_id or parent_name is required"
      /\ contains "nope" "Either parent_id or parent_name is required" = false).
Proof. repeat split; vm_compute; reflexivity. Qed.

(** C8 fails: an interrupt from the keyboard during the upload is no
    [Exception]; [create_dataset] returns no envelope and lets it through. *)
Lemma exceptions_counterexample :
  exn_is_Exception Toy.KeyboardInterrupt = false
  /\ r_result (upload Toy.a_dataset Toy.interrupted) = inl Toy.KeyboardInterrupt
  /\ fst (create_dataset "x" None (Some ["a.txt"]) None None None (Toy.start Toy.interrupted))
     = Raised Toy.KeyboardInterrupt.
Proof. repeat split; vm_compute; reflexivity. Qed.

(** C9 fails: the SDK is installed and its import raises an exception that
    is no [ImportError].  The handler of lines 24-28 lets it through: the
    script ends with it, exits with no code of its own and prints no
    envelope. *)
Lemma sdk_unavailable_counterexample :
  import_guard (ImportRaises Toy.AttributeError) = inl Toy.AttributeError
  /\ Toy.run_argv (ImportRaises Toy.AttributeError) Toy.list_tagged Toy.friendly
     = Some (Uncaught Toy.AttributeError, Toy.start Toy.friendly)
  /\ stdout (Toy.start Toy.friendly) = []
  /\ Toy.run_argv ImportRaisesImportError Toy.list_tagged Toy.friendly
     = Some (Exit 1, print (dumps sdk_missing_envelope) (Toy.start Toy.friendly)).
Proof. repeat split; vm_compute; reflexivity. Qed.


(** * Further properties *)

Section MoreRuns.

Context {S F P : Type} {FS : FileSystem F P} {Sdk : SDK S F}.

#[local] Existing Instance M_ret.
#[local] Existing Instance M_bind.

#[local] Abbreviation M := (@M S F).
#[local] Abbreviation state := (state S F).
#[local] Abbreviation only_calls := (@only_calls S F).
#[local] Abbreviation returns_well_shaped := (@returns_well_shaped S F).

(** ** Which operations a piece of code invokes *)

Lemma only_calls_pure {A} allowed (m : M A) :
  (forall st, exists r, m st = (r, st)) -> only_calls allowed m.
Proof.
  intros Hm st r st' Hrun. destruct (Hm st) as [r' Hr]. rewrite Hr in Hrun.
  injection Hrun as _ <-. split; [ reflexivity | ]. exists []. rewrite app_nil_r. auto.
Qed.

Lemma only_calls_ret {A} allowed (a : A) : only_calls allowed (mret a).
Proof. apply only_calls_pure. intros st. eexists. reflexivity. Qed.

Lemma only_calls_raise {A} allowed (e : exn) : only_calls allowed (raise (A := A) e).
Proof. apply only_calls_pure. intros st. eexists. reflexivity. Qed.

Lemma only_calls_lift {A} allowed (x : exn + A) : only_calls allowed (lift x).
Proof. destruct x; [ apply only_calls_raise | apply only_calls_ret ]. Qed.

Lemma only_calls_query {A} allowed (q : F -> exn + A) : only_calls allowed (query q).
Proof. apply only_calls_pure. intros st. rewrite query_run. eauto. Qed.

Lemma only_calls_query_rglob allowed (path : P) : only_calls allowed (query_rglob path).
Proof. apply only_calls_pure. intros st. eexists. reflexivity. Qed.

Lemma only_calls_environ_get allowed key fallback :
  only_calls allowed (environ_get key fallback).
Proof. apply only_calls_pure. intros st. eexists. reflexivity. Qed.

Lemma only_calls_call {A} allowed (c : sdk_call) (op : S -> reply S A) :
  allowed c = true -> only_calls allowed (call c op).
Proof.
  intros Hc st r st' Hrun. rewrite call_run in Hrun. injection Hrun as _ <-.
  split; [ reflexivity | ]. exists [c]. cbn. rewrite Hc. auto.
Qed.

Lemma only_calls_get_local_copy allowed d target :
  allowed (CallGetLocalCopy d target) = true ->
  only_calls allowed (call_get_local_copy d target).
Proof.
  intros Hc st r st'. unfold call_get_local_copy.
  destruct (r_result _) as [ e | [local_path f] ]; intros [= _ <-];
    (split; [ reflexivity | ]); exists [CallGetLocalCopy d target]; cbn; rewrite Hc;
    (split; [ reflexivity | ]); (split; [ reflexivity | discriminate ]).
Qed.

Lemma only_calls_bind {A B} allowed (m : M A) (k : A -> M B) :
  only_calls allowed m -> (forall a, only_calls allowed (k a)) ->
  only_calls allowed (m ≫= k).
Proof.
  intros Hm Hk st r st' [ (a & st1 & H1 & H2) | (e & H1 & ->) ]%bind_inv.
  - destruct (Hm _ _ _ H1) as (Henv1 & new1 & Hc1 & Ha1 & Hfs1).
    destruct (Hk a _ _ _ H2) as (Henv2 & new2 & Hc2 & Ha2 & Hfs2).
    split; [ congruence | ]. exists (new1 ++ new2).
    rewrite Hc2, Hc1, <- app_assoc, forallb_app, Ha1, Ha2, existsb_app.
    split; [ reflexivity | ]. split; [ reflexivity | ].
    intros [H1' H2']%orb_false_iff. rewrite Hfs2, Hfs1 by assumption. reflexivity.
  - exact (Hm _ _ _ H1).
Qed.

Lemma only_calls_try allowed (body : M json) :
  only_calls allowed body -> only_calls allowed (try_except body).
Proof.
  intros Hbody st r st'. rewrite try_except_run.
  destruct (body st) as [[v | e] st1] eqn:Hrun; [ intros [= _ <-]; eauto | ].
  destruct (exn_is_Exception e); intros [= _ <-]; eauto.
Qed.

Ltac only_calls_step :=
  match goal with
  | |- only_calls _ (_ ≫= _) => apply only_calls_bind; [ | intros ? ]
  | |- only_calls _ (try_except _) => apply only_calls_try
  | |- only_calls _ (if ?b then _ else _) => destruct b
  | |- only_calls _ (match ?x with Some _ => _ | None => _ end) => destruct x
  | |- only_calls _ (match ?x with inl _ => _ | inr _ => _ end) => destruct x
  | |- only_calls _ (let (_, _) := ?x in _) => destruct x
  | |- only_calls _ (call _ _) => apply only_calls_call; reflexivity
  | |- only_calls _ (call_get_local_copy _ _) => apply only_calls_get_local_copy; reflexivity
  | |- only_calls _ (mret _) => apply only_calls_ret
  | |- only_calls _ (raise _) => apply only_calls_raise
  | |- only_calls _ (lift _) => apply only_calls_lift
  | |- only_calls _ (query _) => apply only_calls_query
  | |- only_calls _ (query_rglob _) => apply only_calls_query_rglob
  | |- only_calls _ (environ_get _ _) => apply only_calls_environ_get
  end.

Lemma download_walk_only_calls allowed path entries files :
  only_calls allowed (download_dataset_walk path entries files).
Proof.
  revert files. induction entries as [ | file_path rest IH ]; intros;
    cbn [download_dataset_walk]; repeat only_calls_step; apply IH.
Qed.

Lemma info_files_only_calls allowed dataset entries files :
  (forall entry, allowed (CallGetFileSize dataset entry) = true) ->
  only_calls allowed (get_dataset_info_files dataset entries files).
Proof.
  intros Hallowed. revert files. induction entries as [ | entry rest IH ]; intros;
    cbn [get_dataset_info_files]; repeat only_calls_step; try apply IH.
  apply only_calls_call, Hallowed.
Qed.

Lemma add_dir_only_calls allowed path entries files_added total_size :
  only_calls allowed (create_dataset_add_dir path entries files_added total_size).
Proof.
  revert files_added total_size. induction entries as [ | file_path rest IH ]; intros;
    cbn [create_dataset_add_dir]; repeat only_calls_step; apply IH.
Qed.

Lemma add_paths_only_calls allowed dataset input_paths files_added total_size :
  (forall path, allowed (CallAddFiles dataset path) = true) ->
  only_calls allowed (create_dataset_add_paths dataset input_paths files_added total_size).
Proof.
  intros Hallowed. revert files_added total_size.
  induction input_paths as [ | input_path rest IH ]; intros;
    cbn [create_dataset_add_paths]; repeat only_calls_step;
    first [ apply IH | apply only_calls_call, Hallowed | apply add_dir_only_calls ].
Qed.

Lemma stage_only_calls allowed dataset input_paths :
  (forall path, allowed (CallAddFiles dataset path) = true) ->
  only_calls allowed (create_dataset_stage dataset input_paths).
Proof.
  intros Hallowed. unfold create_dataset_stage. repeat only_calls_step.
  apply add_paths_only_calls, Hallowed.
Qed.

Lemma only_calls_ext {A} allowed (m m' : M A) :
  (forall st, m st = m' st) -> only_calls allowed m' -> only_calls allowed m.
Proof. intros Heq Hm st r st'. rewrite Heq. apply Hm. Qed.

Lemma version_stage_only_calls allowed dataset input_paths :
  (forall path, allowed (CallAddFiles dataset path) = true) ->
  only_calls allowed (create_version_stage dataset input_paths).
Proof.
  intros Hallowed. eapply only_calls_ext; [ apply stage_eq | ].
  apply stage_only_calls, Hallowed.
Qed.

Lemma create_body_only_calls allowed name project input_paths tags descr output :
  (forall c, mutates c = true -> allowed c = true) ->
  only_calls allowed (create_dataset_body name project input_paths tags descr output).
Proof.
  intros Hallowed. unfold create_dataset_body. repeat only_calls_step;
    first [ apply only_calls_call, Hallowed; reflexivity
          | apply stage_only_calls; intros; apply Hallowed; reflexivity ].
Qed.

Lemma version_body_only_calls allowed parent_id parent_name parent_project input_paths
    tags descr :
  (forall c, mutates c = true -> allowed c = true) ->
  (forall lookup, allowed (CallGet lookup) = true) ->
  only_calls allowed
    (create_version_body parent_id parent_name parent_project input_paths tags descr).
Proof.
  intros Hallowed Hget. unfold create_version_body. repeat only_calls_step;
    first [ apply only_calls_call, Hget
          | apply only_calls_call, Hallowed; reflexivity
          | apply version_stage_only_calls; intros; apply Hallowed; reflexivity ].
Qed.

Lemma download_body_only_calls dataset_id dataset_name dataset_project output_path :
  only_calls (fun c => negb (mutates c))
    (download_dataset_body dataset_id dataset_name dataset_project output_path).
Proof.
  unfold download_dataset_body, download_target. repeat only_calls_step.
  all: apply download_walk_only_calls.
Qed.

Lemma info_body_only_calls dataset_id dataset_name dataset_project :
  only_calls asks (get_dataset_info_body dataset_id dataset_name dataset_project).
Proof.
  unfold get_dataset_info_body. repeat only_calls_step.
  apply info_files_only_calls. reflexivity.
Qed.

Lemma list_body_only_calls project tags only_completed :
  only_calls asks (list_datasets_body project tags only_completed).
Proof. unfold list_datasets_body. repeat only_calls_step. Qed.

Lemma only_calls_weaken {A} (allowed allowed' : sdk_call -> bool) (m : M A) :
  (forall c, allowed c = true -> allowed' c = true) ->
  only_calls allowed m -> only_calls allowed' m.
Proof.
  intros Himp Hm st r st' Hrun.
  destruct (Hm _ _ _ Hrun) as (Henv & new & Hcalls & Hall & Hfs).
  split; [ exact Henv | ]. exists new. split; [ exact Hcalls | ]. split; [ | exact Hfs ].
  rewrite forallb_forall in *. auto.
Qed.

(** Whatever the dispatch does, the environment is left as it is. *)
Lemma execute_action_only_calls args : only_calls (fun _ => true) (execute_action args).
Proof.
  unfold execute_action.
  repeat match goal with |- only_calls _ (if ?b then _ else _) => destruct b end;
    try apply only_calls_ret; apply only_calls_try.
  - apply create_body_only_calls. reflexivity.
  - apply version_body_only_calls; reflexivity.
  - eapply only_calls_weaken; [ | apply download_body_only_calls ]. reflexivity.
  - eapply only_calls_weaken; [ | apply list_body_only_calls ]. reflexivity.
  - eapply only_calls_weaken; [ | apply info_body_only_calls ]. reflexivity.
Qed.

Lemma forallb_negb_existsb {A} (f : A -> bool) l :
  forallb (fun x => negb (f x)) l = true -> existsb f l = false.
Proof.
  induction l as [ | x l IH ]; cbn; [ reflexivity | ].
  intros [Hx Hl]%andb_true_iff. apply negb_true_iff in Hx. rewrite Hx, IH; auto.
Qed.

Lemma asks_reads new :
  forallb asks new = true ->
  existsb mutates new = false /\ existsb is_get_local_copy new = false.
Proof.
  induction new as [ | c new IH ]; cbn; [ auto | ].
  unfold asks at 1. intros [[Hm Hg]%andb_true_iff Hnew]%andb_true_iff.
  apply negb_true_iff in Hm, Hg. rewrite Hm, Hg. apply IH, Hnew.
Qed.

(** X1: the download, list and info actions only read the service.
    Whatever they return or raise, none of the operations they invoke is
    [Dataset.create], [add_files], [upload] or [finalize], and they leave
    the environment as it is; list and info leave the filesystem as it
    is, too. *)
Theorem reading_actions_never_mutate :
  forall (st : state),
    (forall dataset_id dataset_name dataset_project output_path,
        let st' := snd (download_dataset dataset_id dataset_name dataset_project
                          output_path st) in
        environ st' = environ st
        /\ exists new, calls st' = calls st ++ new /\ existsb mutates new = false)
    /\ (forall project tags only_completed,
           let st' := snd (list_datasets project tags only_completed st) in
           environ st' = environ st /\ fs st' = fs st
           /\ exists new, calls st' = calls st ++ new /\ existsb mutates new = false)
    /\ (forall dataset_id dataset_name dataset_project,
           let st' := snd (get_dataset_info dataset_id dataset_name dataset_project st) in
           environ st' = environ st /\ fs st' = fs st
           /\ exists new, calls st' = calls st ++ new /\ existsb mutates new = false).
Proof.
  intros st. split; [ | split ].
  - intros dataset_id dataset_name dataset_project output_path st'.
    destruct (only_calls_try _ _
                (download_body_only_calls dataset_id dataset_name dataset_project output_path)
                st _ _ (surjective_pairing _)) as (Henv & new & Hnew & Hall & _).
    split; [ exact Henv | ]. exists new. split; [ exact Hnew | ].
    apply forallb_negb_existsb, Hall.
  - intros project tags only_completed st'.
    destruct (only_calls_try _ _ (list_body_only_calls project tags only_completed)
                st _ _ (surjective_pairing _)) as (Henv & new & Hnew & Hall & Hfs).
    apply asks_reads in Hall as [Hm Hg]. eauto 6.
  - intros dataset_id dataset_name dataset_project st'.
    destruct (only_calls_try _ _
                (info_body_only_calls dataset_id dataset_name dataset_project)
                st _ _ (surjective_pairing _)) as (Henv & new & Hnew & Hall & Hfs).
    apply asks_reads in Hall as [Hm Hg]. eauto 6.
Qed.

(** ** What a staging that completes leaves behind *)

Lemma add_dir_records path entries :
  forall files_added total_size (st st' : state) added,
    create_dataset_add_dir path entries files_added total_size st = (Returned added, st') ->
    exists records,
      fst added = files_added ++ records
      /\ List.map (dict_get "path") records
         = List.map (fun p => Some (JStr (path_str p))) (regular_files (fs st) entries).
Proof.
  induction entries as [ | file_path rest IH ]; intros files_added total_size st st' added;
    cbn [create_dataset_add_dir].
  - intros [= <- _]. exists []. rewrite app_nil_r. auto.
  - intros (regular & st1 & [Hreg ->]%query_returned & H)%bind_returned.
    unfold regular_files. cbn [List.filter]. unfold is_regular at 1. rewrite Hreg.
    destruct regular.
    + apply bind_returned in H as (size & st2 & [Hsize ->]%query_returned & H).
      apply bind_returned in H as (rel & st3 & [Hrel ->]%lift_returned & H).
      apply IH in H as (records & -> & Hpaths).
      exists (file_record (path_str file_path) (path_str rel) size :: records).
      rewrite <- app_assoc. split; [ reflexivity | ].
      cbn [List.map]. f_equal. exact Hpaths.
    + apply IH in H as (records & -> & Hpaths). eauto.
Qed.

Lemma add_files_calls_cons (f : F) dataset q rest :
  add_files_calls f dataset (q :: rest)
  = (if is_staged f q then [CallAddFiles dataset (path_str (Path q))] else [])
    ++ add_files_calls f dataset rest.
Proof. unfold add_files_calls. cbn [List.filter]. destruct (is_staged f q); reflexivity. Qed.

Lemma add_paths_completes dataset input_paths :
  forall files_added total_size (st st' : state) added,
    create_dataset_add_paths dataset input_paths files_added total_size st
    = (Returned (inr added), st') ->
    fs st' = fs st
    /\ environ st' = environ st
    /\ calls st' = calls st ++ add_files_calls (fs st) dataset input_paths
    /\ exists records,
         fst added = files_added ++ records
         /\ List.map (dict_get "path") records
            = List.map (fun p => Some (JStr (path_str p)))
                (concat (List.map (staged_files (fs st)) input_paths)).
Proof.
  induction input_paths as [ | q rest IH ]; intros files_added total_size st st' added.
  - intros [= <- <-]. unfold add_files_calls. cbn. rewrite !app_nil_r.
    repeat split. exists []. rewrite app_nil_r. auto.
  - cbn [create_dataset_add_paths].
    intros (found & st0 & [Hfound ->]%query_returned & H)%bind_returned.
    destruct found; [ | discriminate ]. cbn [negb] in H. cbv iota in H.
    apply bind_returned in H as (regular & st0 & [Hreg ->]%query_returned & H).
    rewrite add_files_calls_cons. cbn [List.map concat].
    unfold is_staged, staged_files at 1. rewrite Hreg.
    destruct regular.
    + apply bind_returned in H
        as ([] & st1 & (_ & _ & Hfs & Henv & Hcalls)%call_returned & H).
      apply bind_returned in H as (size & st2 & [Hsize ->]%query_returned & H).
      apply IH in H as (Hfs' & Henv' & Hcalls' & records & -> & Hpaths).
      rewrite Hfs in *. split; [ congruence | ]. split; [ congruence | ]. split.
      * rewrite Hcalls', Hcalls, <- app_assoc. reflexivity.
      * exists (file_record (path_str (Path q)) (path_name (Path q)) size :: records).
        rewrite <- app_assoc. split; [ reflexivity | ].
        cbn [List.map app]. f_equal. exact Hpaths.
    + apply bind_returned in H as (directory & st0 & [Hdir ->]%query_returned & H).
      rewrite Hdir. destruct directory.
      * apply bind_returned in H
          as ([] & st1 & (_ & _ & Hfs & Henv & Hcalls)%call_returned & H).
        apply bind_returned in H as (found_entries & st2 & [= <- <-] & H).
        apply bind_returned in H as (walked & st2 & Hwalk & H).
        pose proof Hwalk as (-> & _)%add_dir_returned.
        apply add_dir_records in Hwalk as (records & Hwalked & Hpaths).
        apply bind_returned in H as ([] & st3 & Hend & H).
        assert (st3 = st1) as ->
          by (destruct (snd (rglob (fs st1) (Path q))); injection Hend; congruence).
        destruct walked as [walked_files walked_size]. cbn [fst snd] in *. subst walked_files.
        apply IH in H as (Hfs' & Henv' & Hcalls' & records' & -> & Hpaths').
        rewrite Hfs in *. split; [ congruence | ]. split; [ congruence | ]. split.
        -- rewrite Hcalls', Hcalls, <- app_assoc. reflexivity.
        -- exists (records ++ records'). rewrite app_assoc. split; [ reflexivity | ].
           rewrite !List.map_app. congruence.
      * apply IH in H as (Hfs' & Henv' & Hcalls' & records & -> & Hpaths).
        repeat split; try assumption. eauto.
Qed.

Lemma stage_completes dataset input_paths (st st' : state) added :
  create_dataset_stage dataset input_paths st = (Returned (inr added), st') ->
  fs st' = fs st
  /\ environ st' = environ st
  /\ calls st' = calls st ++ add_files_calls (fs st) dataset (list_or_empty input_paths)
  /\ exists records,
       fst added = records
       /\ List.map (dict_get "path") records
          = List.map (fun p => Some (JStr (path_str p)))
              (concat (List.map (staged_files (fs st)) (list_or_empty input_paths))).
Proof.
  unfold create_dataset_stage. destruct (truthy_list input_paths) eqn:Htruthy.
  - intros (Hfs & Henv & Hcalls & records & Hadded & Hpaths)%add_paths_completes.
    repeat split; try assumption. eauto.
  - intros [= <- <-].
    assert (list_or_empty input_paths = []) as ->
      by (destruct input_paths as [ [ | ] | ]; [ reflexivity | discriminate | reflexivity ]).
    unfold add_files_calls. cbn. rewrite app_nil_r. repeat split. exists []. auto.
Qed.

Lemma stage_early_error dataset input_paths (st st' : state) envelope :
  create_dataset_stage dataset input_paths st = (Returned (inl envelope), st') ->
  exists p, In p (list_or_empty input_paths)
            /\ envelope = error_envelope ("Path does not exist: " +:+ p).
Proof.
  unfold create_dataset_stage. destruct (truthy_list input_paths); [ | discriminate ].
  apply add_paths_early_return.
Qed.

(** ** The run of an action that succeeds *)

Lemma create_dataset_body_returns name project input_paths tags descr output
    (st st' : state) envelope :
  create_dataset_body name project input_paths tags descr output st = (Returned envelope, st') ->
  dict_get "success" envelope = Some (JBool true) ->
  let kw := create_dataset_kwargs name project tags descr output in
  exists dataset files_added total_size st1 st2 st3,
    call (CallCreate kw) (Dataset_create kw) st = (Returned dataset, st1)
    /\ create_dataset_stage dataset input_paths st1
       = (Returned (inr (files_added, total_size)), st2)
    /\ call (CallUpload dataset) (upload dataset) st2 = (Returned tt, st3)
    /\ call (CallFinalize dataset) (finalize dataset) st3 = (Returned tt, st')
    /\ envelope
       = JDict [("success", JBool true);
                ("datasetId", JStr (ds_id dataset));
                ("datasetName", JStr name);
                ("datasetProject", JStr (str_or project "datasets"));
                ("filesAdded", JInt (Z.of_nat (length files_added)));
                ("totalSize", JInt total_size);
                ("files", JList (firstn 20 files_added));
                ("webUrl",
                 JStr (web_url (default default_web_host (environ st' !! "CLEARML_WEB_HOST"))
                         (ds_id dataset)))].
Proof.
  intros Hrun Hok. cbv zeta. unfold create_dataset_body in Hrun.
  apply bind_returned in Hrun as (dataset & st1 & Hcreate & Hrun).
  apply bind_returned in Hrun as (staged & st2 & Hstage & Hrun).
  destruct staged as [ early | [files_added total_size] ].
  { apply stage_early_error in Hstage as (p & _ & ->).
    injection Hrun as <- _. discriminate. }
  apply bind_returned in Hrun as ([] & st3 & Hupload & Hrun).
  apply bind_returned in Hrun as ([] & st4 & Hfinalize & Hrun).
  apply bind_returned in Hrun as (host & st5 & [= <- <-] & [= <- <-]).
  exists dataset, files_added, total_size, st1, st2, st3. auto.
Qed.

Lemma create_version_body_returns parent_id parent_name parent_project input_paths tags descr
    (st st' : state) envelope :
  create_version_body parent_id parent_name parent_project input_paths tags descr st
  = (Returned envelope, st') ->
  dict_get "success" envelope = Some (JBool true) ->
  exists lookup parent_dataset new_dataset files_added total_size st0 st1 st2 st3,
    lookup_kwargs parent_id parent_name parent_project = Some lookup
    /\ call (CallGet lookup) (Dataset_get lookup) st = (Returned (Some parent_dataset), st0)
    /\ (let kw := create_version_kwargs parent_dataset tags descr in
        call (CallCreate kw) (Dataset_create kw) st0 = (Returned new_dataset, st1))
    /\ create_dataset_stage new_dataset input_paths st1
       = (Returned (inr (files_added, total_size)), st2)
    /\ call (CallUpload new_dataset) (upload new_dataset) st2 = (Returned tt, st3)
    /\ call (CallFinalize new_dataset) (finalize new_dataset) st3 = (Returned tt, st')
    /\ envelope
       = JDict [("success", JBool true);
                ("datasetId", JStr (ds_id new_dataset));
                ("parentId", JStr (ds_id parent_dataset));
                ("datasetName", JStr (ds_name new_dataset));
                ("datasetProject", JStr (ds_project new_dataset));
                ("filesAdded", JInt (Z.of_nat (length files_added)));
                ("totalSize", JInt total_size);
                ("files", JList (firstn 20 files_added));
                ("webUrl",
                 JStr (web_url (default default_web_host (environ st' !! "CLEARML_WEB_HOST"))
                         (ds_id new_dataset)))].
Proof.
  unfold create_version_body. intros Hrun Hok.
  destruct (lookup_kwargs parent_id parent_name parent_project) as [ lookup | ];
    [ | injection Hrun as <- _; discriminate ].
  apply bind_returned in Hrun as (found & st0 & Hget & Hrun).
  destruct found as [ parent_dataset | ]; [ | injection Hrun as <- _; discriminate ].
  apply bind_returned in Hrun as (new_dataset & st1 & Hcreate & Hrun).
  apply bind_returned in Hrun as (staged & st2 & Hstage & Hrun).
  rewrite stage_eq in Hstage.
  destruct staged as [ early | [files_added total_size] ].
  { apply stage_early_error in Hstage as (p & _ & ->).
    injection Hrun as <- _. discriminate. }
  apply bind_returned in Hrun as ([] & st3 & Hupload & Hrun).
  apply bind_returned in Hrun as ([] & st4 & Hfinalize & Hrun).
  apply bind_returned in Hrun as (host & st5 & [= <- <-] & [= <- <-]).
  exists lookup, parent_dataset, new_dataset, files_added, total_size, st0, st1, st2, st3.
  auto 10.
Qed.


Lemma download_walk_records path entries :
  forall files (st st' : state) files',
    download_dataset_walk path entries files st = (Returned files', st') ->
    st' = st
    /\ exists records,
         files' = files ++ records
         /\ List.map (dict_get "path") records
            = List.map (fun p => Some (JStr (path_str p))) (regular_files (fs st) entries).
Proof.
  induction entries as [ | file_path rest IH ]; intros files st st' files';
    cbn [download_dataset_walk].
  - intros [= <- <-]. split; [ reflexivity | ]. exists []. rewrite app_nil_r. auto.
  - intros (regular & st1 & [Hreg ->]%query_returned & H)%bind_returned.
    unfold regular_files. cbn [List.filter]. unfold is_regular at 1. rewrite Hreg.
    destruct regular.
    + apply bind_returned in H as (rel & st2 & [Hrel ->]%lift_returned & H).
      apply bind_returned in H as (size & st3 & [Hsize ->]%query_returned & H).
      apply IH in H as (-> & records & -> & Hpaths). split; [ reflexivity | ].
      exists (file_record (path_str file_path) (path_str rel) size :: records).
      rewrite <- app_assoc. split; [ reflexivity | ].
      cbn [List.map]. f_equal. exact Hpaths.
    + apply IH in H as (-> & records & -> & Hpaths). eauto.
Qed.

Lemma download_dataset_body_returns dataset_id dataset_name dataset_project output_path
    (st st' : state) envelope :
  download_dataset_body dataset_id dataset_name dataset_project output_path st
  = (Returned envelope, st') ->
  dict_get "success" envelope = Some (JBool true) ->
  exists lookup dataset target_path local_path files_downloaded st0,
    lookup_kwargs dataset_id dataset_name dataset_project = Some lookup
    /\ call (CallGet lookup) (Dataset_get lookup) st = (Returned (Some dataset), st0)
    /\ download_target output_path dataset st0 = (Returned target_path, st0)
    /\ call_get_local_copy dataset target_path st0 = (Returned local_path, st')
    /\ (exists records,
          files_downloaded = records
          /\ List.map (dict_get "path") records
             = List.map (fun p => Some (JStr (path_str p)))
                 (match path_exists (fs st') (Path local_path) with
                  | inr true => regular_files (fs st') (fst (rglob (fs st') (Path local_path)))
                  | _ => []
                  end))
    /\ envelope
       = JDict [("success", JBool true);
                ("datasetId", JStr (ds_id dataset));
                ("datasetName", JStr (ds_name dataset));
                ("localPath", JStr local_path);
                ("filesDownloaded", JInt (Z.of_nat (length files_downloaded)));
                ("files", JList (firstn 20 files_downloaded))].
Proof.
  unfold download_dataset_body. intros Hrun Hok.
  destruct (lookup_kwargs dataset_id dataset_name dataset_project) as [ lookup | ];
    [ | injection Hrun as <- _; discriminate ].
  apply bind_returned in Hrun as (found & st0 & Hget & Hrun).
  destruct found as [ dataset | ]; [ | injection Hrun as <- _; discriminate ].
  apply bind_returned in Hrun as (target_path & st1 & Htarget & Hrun).
  assert (st1 = st0) as ->.
  { revert Htarget. unfold download_target. destruct (truthy_str output_path).
    - intros [= _ <-]. reflexivity.
    - intros (here & st2 & [_ ->]%query_returned & [= _ <-])%bind_returned. reflexivity. }
  apply bind_returned in Hrun as (local_path & st1 & Hcopy & Hrun).
  apply bind_returned in Hrun as (found_path & st2 & [Hfound ->]%query_returned & Hrun).
  apply bind_returned in Hrun as (files_downloaded & st2 & Hfiles & [= <- <-]).
  assert (Hwalk : st2 = st1
                  /\ List.map (dict_get "path") files_downloaded
                     = List.map (fun p => Some (JStr (path_str p)))
                         (if found_path
                          then regular_files (fs st1) (fst (rglob (fs st1) (Path local_path)))
                          else [])).
  { destruct found_path.
    - apply bind_returned in Hfiles as (found_entries & st3 & [= <- <-] & Hfiles).
      apply bind_returned in Hfiles
        as (files & st3 & (-> & records & -> & Hpaths)%download_walk_records & Hfiles).
      apply bind_returned in Hfiles as ([] & st4 & Hend & [= <- <-]).
      split; [ | exact Hpaths ].
      destruct (snd (rglob (fs st1) (Path local_path))); injection Hend; congruence.
    - injection Hfiles as <- <-. auto. }
  destruct Hwalk as [-> Hpaths].
  exists lookup, dataset, target_path, local_path, files_downloaded, st0.
  rewrite Hfound. repeat split; try assumption. exists files_downloaded. auto.
Qed.

Lemma info_files_trace dataset entries :
  forall files (st st' : state) files',
    get_dataset_info_files dataset entries files st = (Returned files', st') ->
    fs st' = fs st
    /\ environ st' = environ st
    /\ calls st' = calls st ++ (if ds_has_get_file_size dataset
                                then List.map (CallGetFileSize dataset) entries
                                else [])
    /\ (ds_has_get_file_size dataset = false ->
        files' = files ++ List.map (fun entry => JDict [("path", JStr entry); ("size", JNull)])
                            entries).
Proof.
  induction entries as [ | entry rest IH ]; intros files st st' files';
    cbn [get_dataset_info_files].
  - intros [= <- <-]. cbn [List.map]. rewrite !app_nil_r.
    destruct (ds_has_get_file_size dataset); rewrite ?app_nil_r; auto.
  - intros (size & st1 & Hsize & H)%bind_returned.
    apply IH in H as (Hfs & Henv & Hcalls & Hfiles).
    destruct (ds_has_get_file_size dataset).
    + apply call_returned in Hsize as (_ & _ & Hfs1 & Henv1 & Hcalls1).
      split; [ congruence | ]. split; [ congruence | ]. split; [ | discriminate ].
      rewrite Hcalls, Hcalls1, <- app_assoc. reflexivity.
    + injection Hsize as <- <-. rewrite app_nil_r in *. repeat split; try assumption.
      intros _. rewrite Hfiles, <- app_assoc by reflexivity. reflexivity.
Qed.

Lemma get_dataset_info_body_returns dataset_id dataset_name dataset_project
    (st st' : state) envelope :
  get_dataset_info_body dataset_id dataset_name dataset_project st = (Returned envelope, st') ->
  dict_get "success" envelope = Some (JBool true) ->
  exists lookup dataset file_entries files final st0 st1 st2,
    lookup_kwargs dataset_id dataset_name dataset_project = Some lookup
    /\ call (CallGet lookup) (Dataset_get lookup) st = (Returned (Some dataset), st0)
    /\ call (CallListFiles dataset) (list_files dataset) st0 = (Returned file_entries, st1)
    /\ get_dataset_info_files dataset (firstn 50 file_entries) [] st1 = (Returned files, st2)
    /\ call (CallIsFinal dataset) (is_final dataset) st2 = (Returned final, st')
    /\ envelope
       = JDict [("success", JBool true);
                ("datasetId", JStr (ds_id dataset));
                ("datasetName", JStr (ds_name dataset));
                ("project", JStr (ds_project dataset));
                ("tags", tags_json (ds_tags dataset));
                ("fileCount", JInt (Z.of_nat (length file_entries)));
                ("files", JList files);
                ("isFinalized", JBool final);
                ("webUrl",
                 JStr (web_url (default default_web_host (environ st' !! "CLEARML_WEB_HOST"))
                         (ds_id dataset)))].
Proof.
  unfold get_dataset_info_body. intros Hrun Hok.
  destruct (lookup_kwargs dataset_id dataset_name dataset_project) as [ lookup | ];
    [ | injection Hrun as <- _; discriminate ].
  apply bind_returned in Hrun as (found & st0 & Hget & Hrun).
  destruct found as [ dataset | ]; [ | injection Hrun as <- _; discriminate ].
  apply bind_returned in Hrun as (file_entries & st1 & Hlist & Hrun).
  apply bind_returned in Hrun as (files & st2 & Hfiles & Hrun).
  apply bind_returned in Hrun as (final & st3 & Hfinal & Hrun).
  apply bind_returned in Hrun as (host & st4 & [= <- <-] & [= <- <-]).
  exists lookup, dataset, file_entries, files, final, st0, st1, st2. auto 10.
Qed.

(** ** The successful create and version *)

(** X2: a create that succeeds has invoked [Dataset.create] with the
    arguments of the action (project [datasets] and description
    [Created by ClearPipe] when none is given, no parent), then [add_files]
    once for each input path that is a regular file or a directory, in
    order, then [upload] and [finalize], all on the handle
    [Dataset.create] returned, and nothing else.  The envelope carries the
    id of this handle and the name and project asked for, and the
    filesystem is as it was. *)
Theorem create_success_protocol :
  forall name project input_paths tags descr output (st st' : state) envelope,
    create_dataset name project input_paths tags descr output st = (Returned envelope, st') ->
    dict_get "success" envelope = Some (JBool true) ->
    let kw := {| kw_dataset_name := name;
                 kw_dataset_project := str_or project "datasets";
                 kw_parent_datasets := None;
                 kw_dataset_tags := list_or_empty tags;
                 kw_description := str_or descr "Created by ClearPipe";
                 kw_output_uri := output |} in
    exists dataset,
      r_result (Dataset_create kw (sdk_state st)) = inr dataset
      /\ calls st' = calls st ++ [CallCreate kw]
                     ++ add_files_calls (fs st) dataset (list_or_empty input_paths)
                     ++ [CallUpload dataset; CallFinalize dataset]
      /\ fs st' = fs st
      /\ dict_get "datasetId" envelope = Some (JStr (ds_id dataset))
      /\ dict_get "datasetName" envelope = Some (JStr name)
      /\ dict_get "datasetProject" envelope = Some (JStr (str_or project "datasets")).
Proof.
  intros name project input_paths tags descr output st st' envelope Hrun Hok kw.
  apply try_except_success in Hrun; [ | exact Hok ].
  apply create_dataset_body_returns in Hrun
    as (dataset & files_added & total_size & st1 & st2 & st3
        & Hcreate & Hstage & Hupload & Hfinalize & ->); [ | exact Hok ].
  apply call_returned in Hcreate as (Hres & _ & Hfs1 & _ & Hc1).
  apply stage_completes in Hstage as (Hfs2 & _ & Hc2 & _).
  apply call_returned in Hupload as (_ & _ & Hfs3 & _ & Hc3).
  apply call_returned in Hfinalize as (_ & _ & Hfs4 & _ & Hc4).
  exists dataset. split; [ exact Hres | ]. split.
  { rewrite Hc4, Hc3, Hc2, Hc1, Hfs1, <- !app_assoc. reflexivity. }
  split; [ congruence | ]. repeat split.
Qed.

(** X3: a version that succeeds has looked the parent up, then invoked
    [Dataset.create] with the name and the project of the parent and the
    parent as the only parent dataset (description
    [New version created by ClearPipe] when none is given, never an output
    URI), then [add_files] for each input path that is a regular file or a
    directory, [upload] and [finalize] on the new handle: the handle
    this [Dataset.create] returned, not the parent.  The envelope carries
    the id of the parent as [parentId], and the id, name and project of
    the new handle. *)
Theorem version_success_protocol :
  forall parent_id parent_name parent_project input_paths tags descr
         (st st' : state) envelope,
    create_version parent_id parent_name parent_project input_paths tags descr st
    = (Returned envelope, st') ->
    dict_get "success" envelope = Some (JBool true) ->
    exists lookup parent new_dataset,
      let kw := {| kw_dataset_name := ds_name parent;
                   kw_dataset_project := ds_project parent;
                   kw_parent_datasets := Some [ds_id parent];
                   kw_dataset_tags := list_or_empty tags;
                   kw_description := str_or descr "New version created by ClearPipe";
                   kw_output_uri := None |} in
      lookup_kwargs parent_id parent_name parent_project = Some lookup
      /\ r_result (Dataset_get lookup (sdk_state st)) = inr (Some parent)
      /\ r_result (Dataset_create kw (r_next (Dataset_get lookup (sdk_state st))))
         = inr new_dataset
      /\ calls st' = calls st ++ [CallGet lookup; CallCreate kw]
                     ++ add_files_calls (fs st) new_dataset (list_or_empty input_paths)
                     ++ [CallUpload new_dataset; CallFinalize new_dataset]
      /\ dict_get "parentId" envelope = Some (JStr (ds_id parent))
      /\ dict_get "datasetId" envelope = Some (JStr (ds_id new_dataset))
      /\ dict_get "datasetName" envelope = Some (JStr (ds_name new_dataset))
      /\ dict_get "datasetProject" envelope = Some (JStr (ds_project new_dataset)).
Proof.
  intros parent_id parent_name parent_project input_paths tags descr st st' envelope Hrun Hok.
  apply try_except_success in Hrun; [ | exact Hok ].
  apply create_version_body_returns in Hrun
    as (lookup & parent & new_dataset & files_added & total_size & st0 & st1 & st2 & st3
        & Hlookup & Hget & Hcreate & Hstage & Hupload & Hfinalize & ->); [ | exact Hok ].
  cbv zeta in Hcreate.
  apply call_returned in Hget as (Hres & Hsdk0 & Hfs0 & _ & Hc0).
  apply call_returned in Hcreate as (Hnew & _ & Hfs1 & _ & Hc1).
  apply stage_completes in Hstage as (Hfs2 & _ & Hc2 & _).
  apply call_returned in Hupload as (_ & _ & Hfs3 & _ & Hc3).
  apply call_returned in Hfinalize as (_ & _ & Hfs4 & _ & Hc4).
  exists lookup, parent, new_dataset. cbv zeta.
  split; [ exact Hlookup | ]. split; [ exact Hres | ].
  split; [ rewrite <- Hsdk0; exact Hnew | ]. split.
  { rewrite Hc4, Hc3, Hc2, Hc1, Hc0, Hfs1, Hfs0, <- !app_assoc. reflexivity. }
  repeat split.
Qed.

(** X4: the envelope of a create or of a version that succeeds counts, as
    [filesAdded], every file staged from the input paths, and lists as
    [files] the records of the first 20 of them only, in the order of
    staging; the path of each record is the path of the staged file. *)
Theorem files_hold_the_first_20_records :
  forall input_paths tags descr (st st' : state) envelope,
    (exists name project output,
        create_dataset name project input_paths tags descr output st
        = (Returned envelope, st'))
    \/ (exists parent_id parent_name parent_project,
           create_version parent_id parent_name parent_project input_paths tags descr st
           = (Returned envelope, st')) ->
    dict_get "success" envelope = Some (JBool true) ->
    reports_staged_files (fs st) (list_or_empty input_paths) envelope.
Proof.
  intros input_paths tags descr st st' envelope Hrun Hok.
  destruct Hrun as [ (name & project & output & Hrun)
                   | (parent_id & parent_name & parent_project & Hrun) ];
    (apply try_except_success in Hrun; [ | exact Hok ]).
  - apply create_dataset_body_returns in Hrun
      as (dataset & files_added & total_size & st1 & st2 & st3
          & Hcreate & Hstage & _ & _ & ->); [ | exact Hok ].
    apply call_returned in Hcreate as (_ & _ & Hfs1 & _).
    apply stage_completes in Hstage as (_ & _ & _ & records & Hrecords & Hpaths).
    cbn [fst] in Hrecords. subst records. rewrite Hfs1 in Hpaths.
    exists files_added. repeat split. exact Hpaths.
  - apply create_version_body_returns in Hrun
      as (lookup & parent & new_dataset & files_added & total_size & st0 & st1 & st2 & st3
          & _ & Hget & Hcreate & Hstage & _ & _ & ->); [ | exact Hok ].
    cbv zeta in Hcreate.
    apply call_returned in Hget as (_ & _ & Hfs0 & _).
    apply call_returned in Hcreate as (_ & _ & Hfs1 & _).
    apply stage_completes in Hstage as (_ & _ & _ & records & Hrecords & Hpaths).
    cbn [fst] in Hrecords. subst records. rewrite Hfs1, Hfs0 in Hpaths.
    exists files_added. repeat split. exact Hpaths.
Qed.


(** ** The environment of an action *)

Lemma setup_credentials_environ api_host web_host files_host access_key secret_key
    (st : state) :
  let env := environ (setup_credentials api_host web_host files_host access_key secret_key st) in
  env !! "CLEARML_API_HOST" = Some api_host
  /\ env !! "CLEARML_WEB_HOST" = Some web_host
  /\ env !! "CLEARML_FILES_HOST" = Some files_host
  /\ env !! "CLEARML_API_ACCESS_KEY" = Some access_key
  /\ env !! "CLEARML_API_SECRET_KEY" = Some secret_key
  /\ env !! "CLEARML_CONFIG_FILE" = Some ""
  /\ forall key,
       ~ In key ["CLEARML_API_HOST"; "CLEARML_WEB_HOST"; "CLEARML_FILES_HOST";
                 "CLEARML_API_ACCESS_KEY"; "CLEARML_API_SECRET_KEY"; "CLEARML_CONFIG_FILE"] ->
       env !! key = environ st !! key.
Proof.
  unfold setup_credentials, environ_set. cbn [environ].
  repeat split; try (simplify_map_eq; reflexivity).
  intros key Hkey. cbn [In] in Hkey.
  rewrite !lookup_insert_ne by (intros <-; apply Hkey; auto 10). reflexivity.
Qed.


(** X6: the [webUrl] of an envelope is the web host of the command line,
    [/datasets/] and the id the envelope gives as [datasetId].  It is
    there when create, version or info succeed, and only then: the
    envelopes of download and list hold none. *)
Theorem web_url_is_built_from_the_web_host :
  forall args (st st2 : state) result,
    execute_action args
      (setup_credentials (argparse.api_host args) (argparse.web_host args)
         (argparse.files_host args) (argparse.access_key args) (argparse.secret_key args) st)
    = (Returned result, st2) ->
    dict_get "success" result = Some (JBool true) ->
    (In (argparse.action args) ["create"; "version"; "info"]
     /\ exists id,
          dict_get "datasetId" result = Some (JStr id)
          /\ dict_get "webUrl" result
             = Some (JStr (argparse.web_host args +:+ "/datasets/" +:+ id)))
    \/ (In (argparse.action args) ["download"; "list"] /\ dict_get "webUrl" result = None).
Proof.
  intros args st st2 result Hrun Hok.
  pose proof (execute_action_only_calls _ _ _ _ Hrun) as [Henv _].
  destruct (setup_credentials_environ (argparse.api_host args) (argparse.web_host args)
              (argparse.files_host args) (argparse.access_key args)
              (argparse.secret_key args) st) as (_ & Hhost & _).
  cbv zeta in Hhost. rewrite <- Henv in Hhost.
  unfold execute_action in Hrun.
  destruct (String.eqb (argparse.action args) "create") eqn:Hcreate.
  { apply String.eqb_eq in Hcreate.
    destruct (negb (truthy_str (argparse.dataset_name args)));
      [ injection Hrun as <- _; discriminate | ].
    destruct (negb (truthy_list (argparse.input_paths args)));
      [ injection Hrun as <- _; discriminate | ].
    apply try_except_success in Hrun; [ | exact Hok ].
    apply create_dataset_body_returns in Hrun
      as (dataset & files_added & total_size & st3 & st4 & st5 & _ & _ & _ & _ & ->);
      [ | exact Hok ].
    left. rewrite Hcreate. split; [ cbn; auto | ]. exists (ds_id dataset).
    rewrite Hhost. split; reflexivity. }
  destruct (String.eqb (argparse.action args) "version") eqn:Hversion.
  { apply String.eqb_eq in Hversion.
    destruct (negb (truthy_str (argparse.dataset_id args))
              && negb (truthy_str (argparse.dataset_name args)));
      [ injection Hrun as <- _; discriminate | ].
    destruct (negb (truthy_list (argparse.input_paths args)));
      [ injection Hrun as <- _; discriminate | ].
    apply try_except_success in Hrun; [ | exact Hok ].
    apply create_version_body_returns in Hrun
      as (lookup & parent & new_dataset & files_added & total_size & st3 & st4 & st5 & st6
          & _ & _ & _ & _ & _ & _ & ->); [ | exact Hok ].
    left. rewrite Hversion. split; [ cbn; auto | ]. exists (ds_id new_dataset).
    rewrite Hhost. split; reflexivity. }
  destruct (String.eqb (argparse.action args) "download") eqn:Hdownload.
  { apply String.eqb_eq in Hdownload.
    apply try_except_success in Hrun; [ | exact Hok ].
    apply download_dataset_body_returns in Hrun
      as (lookup & dataset & target_path & local_path & files_downloaded & st3
          & _ & _ & _ & _ & _ & ->); [ | exact Hok ].
    right. rewrite Hdownload. split; [ cbn; auto | reflexivity ]. }
  destruct (String.eqb (argparse.action args) "list") eqn:Hlist.
  { apply String.eqb_eq in Hlist.
    apply try_except_success in Hrun; [ | exact Hok ].
    unfold list_datasets_body in Hrun.
    apply bind_returned in Hrun as (datasets & st3 & _ & [= <- _]).
    right. rewrite Hlist. split; [ cbn; auto | reflexivity ]. }
  destruct (String.eqb (argparse.action args) "info") eqn:Hinfo.
  { apply String.eqb_eq in Hinfo.
    apply try_except_success in Hrun; [ | exact Hok ].
    apply get_dataset_info_body_returns in Hrun
      as (lookup & dataset & file_entries & files & final & st3 & st4 & st5
          & _ & _ & _ & _ & _ & ->); [ | exact Hok ].
    left. rewrite Hinfo. split; [ cbn; auto | ]. exists (ds_id dataset).
    rewrite Hhost. split; reflexivity. }
  injection Hrun as <- _. discriminate.
Qed.

(** ** Upload, then finalize *)

Lemma prepares_quiet new :
  forallb prepares new = true ->
  existsb is_upload new = false /\ existsb is_finalize new = false
  /\ existsb is_get_local_copy new = false.
Proof.
  induction new as [ | c new IH ]; cbn; [ auto | ].
  unfold prepares at 1.
  intros [[[Hu Hf]%andb_true_iff Hg]%andb_true_iff Hnew]%andb_true_iff.
  apply negb_true_iff in Hu, Hf, Hg. rewrite Hu, Hf, Hg. apply IH, Hnew.
Qed.

(** The end of a create or of a version: [upload], [finalize], and the
    envelope. *)
Lemma upload_finalize_run d (envelope : string -> json) (st st' : state) r :
  (_ ← call (CallUpload d) (upload d);
   _ ← call (CallFinalize d) (finalize d);
   host ← environ_get "CLEARML_WEB_HOST" default_web_host;
   mret (envelope host)) st = (r, st') ->
  fs st' = fs st
  /\ ((calls st' = calls st ++ [CallUpload d] /\ exists e, r = Raised e)
      \/ (calls st' = calls st ++ [CallUpload d; CallFinalize d]
          /\ ((exists e, r = Raised e) \/ exists host, r = Returned (envelope host)))).
Proof.
  rewrite bind_run, call_run.
  destruct (r_result (upload d (sdk_state st))) as [ e | [] ].
  { intros [= <- <-]. split; [ reflexivity | ]. left. eauto. }
  rewrite bind_run, call_run. cbn [sdk_state fs environ stdout calls].
  destruct (r_result (finalize d _)) as [ e | [] ].
  { intros [= <- <-]. split; [ reflexivity | ]. right. cbn [calls].
    rewrite <- app_assoc. eauto. }
  intros [= <- <-]. split; [ reflexivity | ]. right. cbn [calls].
  rewrite <- app_assoc. eauto.
Qed.

Lemma try_except_reports_failure (body : M json) (st st' : state) r :
  body st = (r, st') ->
  (exists e, r = Raised e) \/ (exists msg, r = Returned (error_envelope msg)) ->
  snd (try_except body st) = st' /\ reports_failure (fst (try_except body st)).
Proof.
  intros Hrun Hr. rewrite try_except_run, Hrun.
  destruct Hr as [ [e ->] | [msg ->] ]; [ | split; reflexivity ].
  destruct (exn_is_Exception e) eqn:He; split; try reflexivity. exact He.
Qed.

Lemma try_except_snd (body : M json) (st : state) :
  snd (try_except body st) = snd (body st).
Proof.
  rewrite try_except_run. destruct (body st) as [[v | e] st1]; [ reflexivity | ].
  destruct (exn_is_Exception e); reflexivity.
Qed.

(** What remains of a create or of a version once the handle is there. *)
Lemma stage_upload_finalize_run d input_paths (stage : M (json + list json * Z))
    (envelope : list json -> Z -> string -> json) (st st' : state) r :
  (forall st0, stage st0 = create_dataset_stage d input_paths st0) ->
  (staged ← stage;
   match staged with
   | inl early => mret early
   | inr (files_added, total_size) =>
       _ ← call (CallUpload d) (upload d);
       _ ← call (CallFinalize d) (finalize d);
       host ← environ_get "CLEARML_WEB_HOST" default_web_host;
       mret (envelope files_added total_size host)
   end) st = (r, st') ->
  fs st' = fs st
  /\ exists before,
       forallb prepares before = true
       /\ ((calls st' = calls st ++ before
            /\ ((exists e, r = Raised e) \/ exists msg, r = Returned (error_envelope msg)))
           \/ (calls st' = calls st ++ before ++ [CallUpload d] /\ exists e, r = Raised e)
           \/ calls st' = calls st ++ before ++ [CallUpload d; CallFinalize d]).
Proof.
  intros Hstage_eq [ (staged & st1 & Hstage & Hrun) | (e & Hstage & ->) ]%bind_inv;
    rewrite Hstage_eq in Hstage.
  - pose proof (stage_only_calls prepares d input_paths (fun _ => eq_refl) _ _ _ Hstage)
      as (_ & before & Hcalls & Hquiet & Hfs).
    pose proof (prepares_quiet _ Hquiet) as (_ & _ & Hg). specialize (Hfs Hg).
    destruct staged as [ early | [files_added total_size] ].
    + apply stage_early_error in Hstage as (p & _ & ->). injection Hrun as <- <-.
      split; [ exact Hfs | ]. exists before. split; [ exact Hquiet | ]. left. eauto.
    + apply upload_finalize_run in Hrun as (Hfs' & Hrun).
      split; [ congruence | ]. exists before. split; [ exact Hquiet | ]. right.
      destruct Hrun as [ [Hc He] | [Hc _] ]; rewrite Hc, Hcalls, <- app_assoc; auto.
  - pose proof (stage_only_calls prepares d input_paths (fun _ => eq_refl) _ _ _ Hstage)
      as (_ & before & Hcalls & Hquiet & Hfs).
    pose proof (prepares_quiet _ Hquiet) as (_ & _ & Hg).
    split; [ auto | ]. exists before. split; [ exact Hquiet | ]. left. eauto.
Qed.

Lemma protocol_of_body (body : M json) (st st' : state) r new :
  body st = (r, st') ->
  (exists before,
      forallb prepares before = true
      /\ ((new = before
           /\ ((exists e, r = Raised e) \/ exists msg, r = Returned (error_envelope msg)))
          \/ (exists d, new = before ++ [CallUpload d] /\ exists e, r = Raised e)
          \/ (exists d, new = before ++ [CallUpload d; CallFinalize d]))) ->
  finalize_follows_upload new (fst (try_except body st)).
Proof.
  intros Hrun (before & Hquiet & Hcases).
  apply prepares_quiet in Hquiet as (Hu & Hf & _).
  exists before. split; [ exact Hu | ]. split; [ exact Hf | ].
  destruct Hcases as [ [-> Hr] | [ (d & -> & Hr) | (d & ->) ] ].
  - left. split; [ reflexivity | ]. eapply try_except_reports_failure; eauto.
  - right. left. exists d. split; [ reflexivity | ].
    eapply try_except_reports_failure; eauto.
  - right. right. eauto.
Qed.

(** The trace of a create and of a version. *)
Lemma actions_follow_the_protocol :
  forall input_paths tags descr (st : state),
    (forall name project output,
        let run := create_dataset name project input_paths tags descr output st in
        fs (snd run) = fs st
        /\ exists new, calls (snd run) = calls st ++ new
                       /\ finalize_follows_upload new (fst run))
    /\ (forall parent_id parent_name parent_project,
           let run := create_version parent_id parent_name parent_project input_paths
                        tags descr st in
           fs (snd run) = fs st
           /\ exists new, calls (snd run) = calls st ++ new
                          /\ finalize_follows_upload new (fst run)).
Proof.
  intros input_paths tags descr st. split.
  - intros name project output run. subst run. unfold create_dataset.
    rewrite try_except_snd.
    destruct (create_dataset_body name project input_paths tags descr output st)
      as [r st'] eqn:Hrun. cbn [snd].
    pose proof Hrun as Hbody. unfold create_dataset_body in Hrun.
    apply bind_inv in Hrun as [ (dataset & st1 & Hcreate & Hrun) | (e & Hcreate & ->) ].
    + rewrite call_run in Hcreate. injection Hcreate as _ <-.
      apply (stage_upload_finalize_run dataset input_paths) in Hrun
        as (Hfs & before & Hquiet & Hcases); [ | reflexivity ].
      split; [ exact Hfs | ]. cbn [calls] in Hcases.
      set (c := CallCreate _) in *.
      assert (Hnew : exists new, calls st' = calls st ++ new).
      { destruct Hcases as [ [Hc _] | [ [Hc _] | Hc ] ]; rewrite Hc, <- !app_assoc; eauto. }
      destruct Hnew as (new & Hcalls). exists new. split; [ exact Hcalls | ].
      eapply protocol_of_body; [ exact Hbody | ].
      exists (c :: before). split; [ cbn; exact Hquiet | ].
      rewrite Hcalls in Hcases.
      destruct Hcases as [ [Hc Hr] | [ [Hc Hr] | Hc ] ];
        rewrite <- ?app_assoc in Hc; apply app_inv_head in Hc; cbn [app] in Hc |- *; eauto 7.
    + rewrite call_run in Hcreate. injection Hcreate as _ <-. cbn [fs calls].
      split; [ reflexivity | ]. eexists. split; [ reflexivity | ].
      eapply protocol_of_body; [ exact Hbody | ].
      eexists. split; [ | left; split; [ reflexivity | eauto ] ]. reflexivity.
  - intros parent_id parent_name parent_project run. subst run. unfold create_version.
    rewrite try_except_snd.
    destruct (create_version_body parent_id parent_name parent_project input_paths
                tags descr st) as [r st'] eqn:Hrun. cbn [snd].
    pose proof Hrun as Hbody. unfold create_version_body in Hrun.
    destruct (lookup_kwargs parent_id parent_name parent_project) as [ lookup | ].
    2: { injection Hrun as <- <-. split; [ reflexivity | ]. exists [].
         rewrite app_nil_r. split; [ reflexivity | ].
         eapply protocol_of_body; [ exact Hbody | ].
         exists []. split; [ reflexivity | ]. left. eauto. }
    apply bind_inv in Hrun as [ (found & st0 & Hget & Hrun) | (e & Hget & ->) ].
    2: { rewrite call_run in Hget. injection Hget as _ <-. cbn [fs calls].
         split; [ reflexivity | ]. eexists. split; [ reflexivity | ].
         eapply protocol_of_body; [ exact Hbody | ].
         eexists. split; [ | left; split; [ reflexivity | eauto ] ]. reflexivity. }
    rewrite call_run in Hget. injection Hget as _ <-.
    destruct found as [ parent | ].
    2: { injection Hrun as <- <-. cbn [fs calls].
         split; [ reflexivity | ]. eexists. split; [ reflexivity | ].
         eapply protocol_of_body; [ exact Hbody | ].
         eexists. split; [ | left; split; [ reflexivity | eauto ] ]. reflexivity. }
    apply bind_inv in Hrun as [ (new_dataset & st1 & Hcreate & Hrun) | (e & Hcreate & ->) ].
    2: { rewrite call_run in Hcreate. injection Hcreate as _ <-. cbn [fs calls].
         split; [ reflexivity | ]. rewrite <- app_assoc.
         eexists. split; [ reflexivity | ].
         eapply protocol_of_body; [ exact Hbody | ].
         eexists. split; [ | left; split; [ reflexivity | eauto ] ]. reflexivity. }
    rewrite call_run in Hcreate. injection Hcreate as _ <-.
    apply (stage_upload_finalize_run new_dataset input_paths) in Hrun
      as (Hfs & before & Hquiet & Hcases); [ | apply stage_eq ].
    split; [ exact Hfs | ]. cbn [calls] in Hcases.
    set (c := CallCreate _) in *. set (g := CallGet _) in *.
    assert (Hnew : exists new, calls st' = calls st ++ new).
    { destruct Hcases as [ [Hc _] | [ [Hc _] | Hc ] ]; rewrite Hc, <- !app_assoc; eauto. }
    destruct Hnew as (new & Hcalls). exists new. split; [ exact Hcalls | ].
    eapply protocol_of_body; [ exact Hbody | ].
    exists (g :: c :: before). split; [ cbn; exact Hquiet | ].
    rewrite Hcalls in Hcases.
    destruct Hcases as [ [Hc Hr] | [ [Hc Hr] | Hc ] ];
      rewrite <- ?app_assoc in Hc; apply app_inv_head in Hc; cbn [app] in Hc |- *; eauto 7.
Qed.

(** Whether a create reached [finalize], and how. *)
Lemma create_body_finalize name project input_paths tags descr output
    (st st' : state) r new :
  create_dataset_body name project input_paths tags descr output st = (r, st') ->
  calls st' = calls st ++ new ->
  existsb is_finalize new = false
  \/ exists dataset st1 staged st2,
       (let kw := create_dataset_kwargs name project tags descr output in
        call (CallCreate kw) (Dataset_create kw) st = (Returned dataset, st1))
       /\ create_dataset_stage dataset input_paths st1 = (Returned (inr staged), st2)
       /\ r_result (upload dataset (sdk_state st2)) = inr tt
       /\ calls st' = calls st2 ++ [CallUpload dataset; CallFinalize dataset].
Proof.
  unfold create_dataset_body. cbv zeta.
  intros [ (dataset & st1 & Hcreate & Hrun) | (e & Hcreate & ->) ]%bind_inv Hnew.
  2: { rewrite call_run in Hcreate. injection Hcreate as _ <-. cbn [calls] in Hnew.
       apply app_inv_head in Hnew. subst new. left. reflexivity. }
  pose proof Hcreate as Hcreated. rewrite call_run in Hcreate.
  assert (Hc1 : calls st1 = calls st ++ [CallCreate
                  (create_dataset_kwargs name project tags descr output)])
    by (injection Hcreate as _ <-; reflexivity).
  clear Hcreate.
  apply bind_inv in Hrun as [ (staged & st2 & Hstage & Hrun) | (e & Hstage & ->) ].
  2: { destruct (stage_only_calls prepares dataset input_paths (fun _ => eq_refl) _ _ _ Hstage)
         as (_ & before & Hcalls & (_ & Hquiet & _)%prepares_quiet & _).
       rewrite Hcalls, Hc1, <- app_assoc in Hnew. apply app_inv_head in Hnew. subst new.
       left. cbn. exact Hquiet. }
  destruct (stage_only_calls prepares dataset input_paths (fun _ => eq_refl) _ _ _ Hstage)
    as (_ & before & Hcalls & (Hnoup & Hquiet & _)%prepares_quiet & _).
  destruct staged as [ early | staged ].
  { injection Hrun as _ <-.
    rewrite Hcalls, Hc1, <- app_assoc in Hnew. apply app_inv_head in Hnew. subst new.
    left. cbn. exact Hquiet. }
  destruct staged as [files_added total_size].
  rewrite bind_run, call_run in Hrun.
  destruct (r_result (upload dataset (sdk_state st2))) as [ e | [] ] eqn:Hupload.
  { injection Hrun as _ <-. cbn [calls] in Hnew.
    rewrite Hcalls, Hc1, <- !app_assoc in Hnew. apply app_inv_head in Hnew. subst new.
    left. cbn. rewrite existsb_app, Hquiet. reflexivity. }
  right. exists dataset, st1, (files_added, total_size), st2.
  split; [ exact Hcreated | ]. split; [ exact Hstage | ]. split; [ exact Hupload | ].
  rewrite bind_run, call_run in Hrun. cbn [sdk_state fs environ stdout calls] in Hrun.
  destruct (r_result (finalize dataset _)); injection Hrun as _ <-; cbn [calls];
    rewrite <- app_assoc; reflexivity.
Qed.

(** Whether a version reached [finalize], and how. *)
Lemma version_body_finalize parent_id parent_name parent_project input_paths tags descr
    (st st' : state) r new :
  create_version_body parent_id parent_name parent_project input_paths tags descr st
  = (r, st') ->
  calls st' = calls st ++ new ->
  existsb is_finalize new = false
  \/ exists lookup parent new_dataset st0 st1 staged st2,
       lookup_kwargs parent_id parent_name parent_project = Some lookup
       /\ call (CallGet lookup) (Dataset_get lookup) st = (Returned (Some parent), st0)
       /\ (let kw := create_version_kwargs parent tags descr in
           call (CallCreate kw) (Dataset_create kw) st0 = (Returned new_dataset, st1))
       /\ create_version_stage new_dataset input_paths st1 = (Returned (inr staged), st2)
       /\ r_result (upload new_dataset (sdk_state st2)) = inr tt
       /\ calls st' = calls st2 ++ [CallUpload new_dataset; CallFinalize new_dataset].
Proof.
  unfold create_version_body. cbv zeta.
  destruct (lookup_kwargs parent_id parent_name parent_project) as [ lookup | ] eqn:Hlookup.
  2: { intros [= _ <-] Hnew. rewrite <- (app_nil_r (calls st)) in Hnew at 1.
       apply app_inv_head in Hnew. subst new. left. reflexivity. }
  intros [ (found & st0 & Hget & Hrun) | (e & Hget & ->) ]%bind_inv Hnew.
  2: { rewrite call_run in Hget. injection Hget as _ <-. cbn [calls] in Hnew.
       apply app_inv_head in Hnew. subst new. left. reflexivity. }
  pose proof Hget as Hgot. rewrite call_run in Hget.
  assert (Hc0 : calls st0 = calls st ++ [CallGet lookup])
    by (injection Hget as _ <-; reflexivity).
  clear Hget.
  destruct found as [ parent | ].
  2: { injection Hrun as _ <-. rewrite Hc0 in Hnew.
       apply app_inv_head in Hnew. subst new. left. reflexivity. }
  apply bind_inv in Hrun as [ (new_dataset & st1 & Hcreate & Hrun) | (e & Hcreate & ->) ].
  2: { rewrite call_run in Hcreate. injection Hcreate as _ <-. cbn [calls] in Hnew.
       rewrite Hc0, <- app_assoc in Hnew. apply app_inv_head in Hnew. subst new.
       left. reflexivity. }
  pose proof Hcreate as Hcreated. rewrite call_run in Hcreate.
  assert (Hc1 : calls st1 = (calls st ++ [CallGet lookup])
                            ++ [CallCreate (create_version_kwargs parent tags descr)])
    by (injection Hcreate as _ <-; cbn [calls]; rewrite Hc0; reflexivity).
  clear Hcreate.
  apply bind_inv in Hrun as [ (staged & st2 & Hstage & Hrun) | (e & Hstage & ->) ].
  2: { destruct (version_stage_only_calls prepares new_dataset input_paths
                   (fun _ => eq_refl) _ _ _ Hstage)
         as (_ & before & Hcalls & (_ & Hquiet & _)%prepares_quiet & _).
       rewrite Hcalls, Hc1, <- !app_assoc in Hnew. apply app_inv_head in Hnew. subst new.
       left. cbn. exact Hquiet. }
  destruct (version_stage_only_calls prepares new_dataset input_paths
              (fun _ => eq_refl) _ _ _ Hstage)
    as (_ & before & Hcalls & (Hnoup & Hquiet & _)%prepares_quiet & _).
  destruct staged as [ early | staged ].
  { injection Hrun as _ <-.
    rewrite Hcalls, Hc1, <- !app_assoc in Hnew. apply app_inv_head in Hnew. subst new.
    left. cbn. exact Hquiet. }
  destruct staged as [files_added total_size].
  rewrite bind_run, call_run in Hrun.
  destruct (r_result (upload new_dataset (sdk_state st2))) as [ e | [] ] eqn:Hupload.
  { injection Hrun as _ <-. cbn [calls] in Hnew.
    rewrite Hcalls, Hc1, <- !app_assoc in Hnew. apply app_inv_head in Hnew. subst new.
    left. cbn. rewrite existsb_app, Hquiet. reflexivity. }
  right. exists lookup, parent, new_dataset, st0, st1, (files_added, total_size), st2.
  split; [ reflexivity | ]. split; [ exact Hgot | ]. split; [ exact Hcreated | ].
  split; [ exact Hstage | ]. split; [ exact Hupload | ].
  rewrite bind_run, call_run in Hrun. cbn [sdk_state fs environ stdout calls] in Hrun.
  destruct (r_result (finalize new_dataset _)); injection Hrun as _ <-; cbn [calls];
    rewrite <- app_assoc; reflexivity.
Qed.

(** X7: in every run of create and of version, whatever is returned or
    raised, [upload] is invoked at most once, and [finalize] only directly
    after an [upload], on the same handle and as the last call to the SDK.
    When [finalize] is invoked, the handle is there and staged and the
    [upload] that precedes it has returned: a dataset whose upload failed
    is never finalized.  A run that does not end with both reports no
    success.  The filesystem is left as it is. *)
Theorem finalize_only_follows_upload :
  forall input_paths tags descr (st : state),
    (forall name project output,
        let run := create_dataset name project input_paths tags descr output st in
        fs (snd run) = fs st
        /\ exists new,
             calls (snd run) = calls st ++ new
             /\ finalize_follows_upload new (fst run)
             /\ (existsb is_finalize new = true ->
                 exists dataset st1 staged st2,
                   (let kw := create_dataset_kwargs name project tags descr output in
                    call (CallCreate kw) (Dataset_create kw) st = (Returned dataset, st1))
                   /\ create_dataset_stage dataset input_paths st1
                      = (Returned (inr staged), st2)
                   /\ r_result (upload dataset (sdk_state st2)) = inr tt
                   /\ calls (snd run)
                      = calls st2 ++ [CallUpload dataset; CallFinalize dataset]))
    /\ (forall parent_id parent_name parent_project,
           let run := create_version parent_id parent_name parent_project input_paths
                        tags descr st in
           fs (snd run) = fs st
           /\ exists new,
                calls (snd run) = calls st ++ new
                /\ finalize_follows_upload new (fst run)
                /\ (existsb is_finalize new = true ->
                    exists lookup parent new_dataset st0 st1 staged st2,
                      lookup_kwargs parent_id parent_name parent_project = Some lookup
                      /\ call (CallGet lookup) (Dataset_get lookup) st
                         = (Returned (Some parent), st0)
                      /\ (let kw := create_version_kwargs parent tags descr in
                          call (CallCreate kw) (Dataset_create kw) st0
                          = (Returned new_dataset, st1))
                      /\ create_version_stage new_dataset input_paths st1
                         = (Returned (inr staged), st2)
                      /\ r_result (upload new_dataset (sdk_state st2)) = inr tt
                      /\ calls (snd run)
                         = calls st2 ++ [CallUpload new_dataset; CallFinalize new_dataset])).
Proof.
  intros input_paths tags descr st.
  destruct (actions_follow_the_protocol input_paths tags descr st) as [Hcreate Hversion].
  split.
  - intros name project output run.
    destruct (Hcreate name project output) as (Hfs & new & Hcalls & Hprotocol).
    split; [ exact Hfs | ]. exists new. split; [ exact Hcalls | ].
    split; [ exact Hprotocol | ]. intros Hfinalize.
    subst run. unfold create_dataset in *. rewrite try_except_snd in *.
    destruct (create_dataset_body name project input_paths tags descr output st)
      as [r st'] eqn:Hbody.
    destruct (create_body_finalize _ _ _ _ _ _ _ _ _ _ Hbody Hcalls) as [ Hnone | Hreached ];
      [ congruence | exact Hreached ].
  - intros parent_id parent_name parent_project run.
    destruct (Hversion parent_id parent_name parent_project)
      as (Hfs & new & Hcalls & Hprotocol).
    split; [ exact Hfs | ]. exists new. split; [ exact Hcalls | ].
    split; [ exact Hprotocol | ]. intros Hfinalize.
    subst run. unfold create_version in *. rewrite try_except_snd in *.
    destruct (create_version_body parent_id parent_name parent_project input_paths
                tags descr st) as [r st'] eqn:Hbody.
    destruct (version_body_finalize _ _ _ _ _ _ _ _ _ _ Hbody Hcalls) as [ Hnone | Hreached ];
      [ congruence | exact Hreached ].
Qed.

(** ** Download and info *)

(** X8: a download that succeeds has looked the dataset up and asked the
    SDK once for a local copy, in the folder given as output path or,
    without one, in [data/downloaded/<name of the dataset>] below the
    working directory.  The envelope gives as [localPath] the path the SDK
    returned, counts as [filesDownloaded] the regular files found below
    that path once the copy is made (none when the path is not there),
    and lists the records of the first 20 of them. *)
Theorem download_reports_the_local_copy :
  forall dataset_id dataset_name dataset_project output_path (st st' : state) envelope,
    download_dataset dataset_id dataset_name dataset_project output_path st
    = (Returned envelope, st') ->
    dict_get "success" envelope = Some (JBool true) ->
    exists lookup dataset target_folder local_path records,
      r_result (Dataset_get lookup (sdk_state st)) = inr (Some dataset)
      /\ calls st' = calls st ++ [CallGet lookup; CallGetLocalCopy dataset target_folder]
      /\ ((truthy_str output_path = true /\ output_path = Some target_folder)
          \/ (truthy_str output_path = false
              /\ exists here,
                   cwd (fs st) = inr here
                   /\ target_folder
                      = path_str (path_div (path_div (path_div here "data") "downloaded")
                                    (ds_name dataset))))
      /\ r_result (get_local_copy dataset target_folder (fs st)
                     (r_next (Dataset_get lookup (sdk_state st))))
         = inr (local_path, fs st')
      /\ dict_get "datasetId" envelope = Some (JStr (ds_id dataset))
      /\ dict_get "datasetName" envelope = Some (JStr (ds_name dataset))
      /\ dict_get "localPath" envelope = Some (JStr local_path)
      /\ List.map (dict_get "path") records
         = List.map (fun p => Some (JStr (path_str p))) (files_found (fs st') local_path)
      /\ dict_get "filesDownloaded" envelope = Some (JInt (Z.of_nat (length records)))
      /\ dict_get "files" envelope = Some (JList (firstn 20 records)).
Proof.
  intros dataset_id dataset_name dataset_project output_path st st' envelope Hrun Hok.
  apply try_except_success in Hrun; [ | exact Hok ].
  apply download_dataset_body_returns in Hrun
    as (lookup & dataset & target_folder & local_path & files_downloaded & st0
        & Hlookup & Hget & Htarget & Hcopy & (records & -> & Hpaths) & ->); [ | exact Hok ].
  rewrite call_run in Hget.
  destruct (r_result (Dataset_get lookup (sdk_state st))) as [ e | found ] eqn:Hfound;
    [ discriminate | ].
  injection Hget as -> <-.
  unfold call_get_local_copy in Hcopy. cbn [sdk_state fs environ stdout calls] in Hcopy.
  destruct (r_result (get_local_copy dataset target_folder (fs st) _))
    as [ e | [local_path' f] ] eqn:Hlocal; [ discriminate | ].
  injection Hcopy as -> <-. cbn [fs calls] in *.
  exists lookup, dataset, target_folder, local_path, records.
  split; [ exact Hfound | ]. split; [ rewrite <- app_assoc; reflexivity | ]. split.
  { unfold download_target in Htarget. destruct (truthy_str output_path) eqn:Houtput.
    - left. split; [ reflexivity | ]. injection Htarget as <-.
      destruct output_path; [ reflexivity | discriminate ].
    - right. split; [ reflexivity | ].
      apply bind_returned in Htarget as (here & st1 & [Hcwd ->]%query_returned & [= <-]).
      exists here. split; [ exact Hcwd | reflexivity ]. }
  split; [ exact Hlocal | ]. repeat split. exact Hpaths.
Qed.

(** X9: an info that succeeds has looked the dataset up, listed its
    files, asked the size of each of the first 50 entries of the listing
    and of no other, through [get_file_size] when the handle has this
    method, and then asked whether the dataset is final.  With a handle
    that lacks [get_file_size] no size is asked and every record of
    [files] has a null [size].  The envelope carries the id, name, project
    and tags of the handle [Dataset.get] returned, as [fileCount] the
    length of the listing [list_files] returned, and as [isFinalized]
    what [is_final] answered. *)
Theorem info_asks_the_size_of_the_listed_files :
  forall dataset_id dataset_name dataset_project (st st' : state) envelope,
    get_dataset_info dataset_id dataset_name dataset_project st = (Returned envelope, st') ->
    dict_get "success" envelope = Some (JBool true) ->
    exists lookup dataset file_entries files final st0 st1 st2,
      lookup_kwargs dataset_id dataset_name dataset_project = Some lookup
      /\ call (CallGet lookup) (Dataset_get lookup) st = (Returned (Some dataset), st0)
      /\ call (CallListFiles dataset) (list_files dataset) st0 = (Returned file_entries, st1)
      /\ get_dataset_info_files dataset (firstn 50 file_entries) [] st1
         = (Returned files, st2)
      /\ call (CallIsFinal dataset) (is_final dataset) st2 = (Returned final, st')
      /\ r_result (Dataset_get lookup (sdk_state st)) = inr (Some dataset)
      /\ r_result (list_files dataset (sdk_state st0)) = inr file_entries
      /\ r_result (is_final dataset (sdk_state st2)) = inr final
      /\ calls st' = calls st ++ [CallGet lookup; CallListFiles dataset]
                     ++ (if ds_has_get_file_size dataset
                         then List.map (CallGetFileSize dataset) (firstn 50 file_entries)
                         else [])
                     ++ [CallIsFinal dataset]
      /\ dict_get "files" envelope = Some (JList files)
      /\ (ds_has_get_file_size dataset = false ->
          st2 = st1
          /\ files = List.map (fun entry => JDict [("path", JStr entry); ("size", JNull)])
                       (firstn 50 file_entries))
      /\ dict_get "fileCount" envelope = Some (JInt (Z.of_nat (length file_entries)))
      /\ dict_get "datasetId" envelope = Some (JStr (ds_id dataset))
      /\ dict_get "datasetName" envelope = Some (JStr (ds_name dataset))
      /\ dict_get "project" envelope = Some (JStr (ds_project dataset))
      /\ dict_get "tags" envelope = Some (JList (List.map JStr (ds_tags dataset)))
      /\ dict_get "isFinalized" envelope = Some (JBool final).
Proof.
  intros dataset_id dataset_name dataset_project st st' envelope Hrun Hok.
  apply try_except_success in Hrun; [ | exact Hok ].
  apply get_dataset_info_body_returns in Hrun
    as (lookup & dataset & file_entries & files & final & st0 & st1 & st2
        & Hlookup & Hget & Hlist & Hfiles & Hfinal & ->); [ | exact Hok ].
  exists lookup, dataset, file_entries, files, final, st0, st1, st2.
  split; [ exact Hlookup | ]. split; [ exact Hget | ]. split; [ exact Hlist | ].
  split; [ exact Hfiles | ]. split; [ exact Hfinal | ].
  pose proof Hfiles as Hsame.
  apply call_returned in Hget as (Hfound & _ & _ & _ & Hc0).
  apply call_returned in Hlist as (Hlisted & _ & _ & _ & Hc1).
  apply info_files_trace in Hfiles as (_ & _ & Hc2 & Hnull).
  apply call_returned in Hfinal as (Hanswer & _ & _ & _ & Hc3).
  split; [ exact Hfound | ]. split; [ exact Hlisted | ]. split; [ exact Hanswer | ]. split.
  { rewrite Hc3, Hc2, Hc1, Hc0, <- !app_assoc. reflexivity. }
  split; [ reflexivity | ]. split; [ | repeat split ].
  intros Hlacks. split; [ | apply (Hnull Hlacks) ].
  clear - Hsame Hlacks. revert Hsame. generalize (@nil json) at 1. generalize (firstn 50 file_entries).
  intros entries. induction entries as [ | entry rest IH ]; intros acc;
    cbn [get_dataset_info_files].
  - intros [= _ <-]. reflexivity.
  - rewrite Hlacks. intros (size & st3 & [= _ <-] & H)%bind_returned. eapply IH, H.
Qed.

(** ** Looking a dataset up *)

Lemma call_first {A B} allowed (c : sdk_call) (op : S -> reply S A) (k : A -> M B)
    (st : state) :
  (forall a, only_calls allowed (k a)) ->
  exists rest, calls (snd ((call c op ≫= k) st)) = calls st ++ c :: rest.
Proof.
  intros Hk. rewrite bind_run, call_run.
  destruct (r_result (op (sdk_state st))) as [ e | a ]; [ exists []; reflexivity | ].
  destruct (k a _) as [r st'] eqn:Hrun.
  apply Hk in Hrun as (_ & rest & Hcalls & _). exists rest. cbn [snd calls] in *.
  rewrite Hcalls, <- app_assoc. reflexivity.
Qed.

(** X10: version, download and info look the dataset up by its id when
    one is given, whatever the name and the project; by name and project
    when no id (or an empty one) is given; and this lookup is the first
    operation they invoke. *)
Theorem lookup_prefers_the_id :
  forall id name project lookup (st : state),
    (exists i, id = Some i /\ i <> "" /\ lookup = ById i)
    \/ ((id = None \/ id = Some "")
        /\ exists n, name = Some n /\ n <> "" /\ lookup = ByName n project) ->
    (forall input_paths tags descr,
        exists rest,
          calls (snd (create_version id name project input_paths tags descr st))
          = calls st ++ CallGet lookup :: rest)
    /\ (forall output_path,
           exists rest,
             calls (snd (download_dataset id name project output_path st))
             = calls st ++ CallGet lookup :: rest)
    /\ (exists rest,
           calls (snd (get_dataset_info id name project st))
           = calls st ++ CallGet lookup :: rest).
Proof.
  intros id name project lookup st Hgiven.
  assert (Hlookup : lookup_kwargs id name project = Some lookup).
  { unfold lookup_kwargs.
    destruct Hgiven as [ (i & -> & Hi & ->) | (Hid & n & -> & Hn & ->) ].
    - apply String.eqb_neq in Hi. cbn. rewrite Hi. reflexivity.
    - apply String.eqb_neq in Hn. destruct Hid as [ -> | -> ]; cbn; rewrite Hn; reflexivity. }
  split; [ | split ].
  - intros input_paths tags descr. unfold create_version. rewrite try_except_snd.
    unfold create_version_body. rewrite Hlookup.
    apply (call_first (fun _ => true)). intros found.
    repeat only_calls_step; try apply version_stage_only_calls; reflexivity.
  - intros output_path. unfold download_dataset. rewrite try_except_snd.
    unfold download_dataset_body, download_target. rewrite Hlookup.
    apply (call_first (fun _ => true)). intros found.
    repeat only_calls_step; apply download_walk_only_calls.
  - unfold get_dataset_info. rewrite try_except_snd.
    unfold get_dataset_info_body. rewrite Hlookup.
    apply (call_first (fun _ => true)). intros found.
    repeat only_calls_step. apply info_files_only_calls. reflexivity.
Qed.

(** X11: when the lookup finds no dataset ([Dataset.get] returns [None]),
    version returns the failure envelope [Parent dataset not found],
    download and info return [Dataset not found]; the lookup is the only
    operation invoked, so nothing is created, copied or listed. *)
Theorem unknown_dataset_is_reported :
  forall id name project lookup (st : state),
    lookup_kwargs id name project = Some lookup ->
    r_result (Dataset_get lookup (sdk_state st)) = inr None ->
    let st' := {| sdk_state := r_next (Dataset_get lookup (sdk_state st));
                  fs := fs st;
                  environ := environ st;
                  stdout := stdout st ++ r_log (Dataset_get lookup (sdk_state st));
                  calls := calls st ++ [CallGet lookup] |} in
    (forall input_paths tags descr,
        create_version id name project input_paths tags descr st
        = (Returned (error_envelope "Parent dataset not found"), st'))
    /\ (forall output_path,
           download_dataset id name project output_path st
           = (Returned (error_envelope "Dataset not found"), st'))
    /\ get_dataset_info id name project st
       = (Returned (error_envelope "Dataset not found"), st').
Proof.
  intros id name project lookup st Hlookup Hnone st'. split; [ | split ]; intros.
  - unfold create_version. rewrite try_except_run. unfold create_version_body.
    rewrite Hlookup, bind_run, call_run, Hnone. reflexivity.
  - unfold download_dataset. rewrite try_except_run. unfold download_dataset_body.
    rewrite Hlookup, bind_run, call_run, Hnone. reflexivity.
  - unfold get_dataset_info. rewrite try_except_run. unfold get_dataset_info_body.
    rewrite Hlookup, bind_run, call_run, Hnone. reflexivity.
Qed.

(** ** The shape of the envelopes *)

Lemma well_shaped_error msg : returns_well_shaped (mret (error_envelope msg)).
Proof. intros st v st' [= <- _]. left. eauto. Qed.

Lemma well_shaped_success fields :
  assoc_get "error" fields = None ->
  returns_well_shaped (mret (JDict (("success", JBool true) :: fields))).
Proof. intros Hfields st v st' [= <- _]. right. split; [ reflexivity | exact Hfields ]. Qed.

Lemma well_shaped_bind {A} (m : M A) (k : A -> M json) :
  (forall a st st1, m st = (Returned a, st1) -> returns_well_shaped (k a)) ->
  returns_well_shaped (m ≫= k).
Proof.
  intros Hk st v st' (a & st1 & Hm & Hrun)%bind_returned. eapply Hk; eassumption.
Qed.

Lemma well_shaped_try body : returns_well_shaped body -> returns_well_shaped (try_except body).
Proof.
  intros Hbody st v st'. rewrite try_except_run.
  destruct (body st) as [[v' | e] st1] eqn:Hrun.
  - intros [= <- _]. eapply Hbody, Hrun.
  - destruct (exn_is_Exception e); [ | discriminate ]. intros [= <- _]. left. eauto.
Qed.

Ltac well_shaped_step :=
  match goal with
  | |- returns_well_shaped (mret (error_envelope _)) => apply well_shaped_error
  | |- returns_well_shaped (mret (JDict _)) => apply well_shaped_success; reflexivity
  | |- returns_well_shaped (_ ≫= _) => apply well_shaped_bind; intros ? ? ? ?
  | |- returns_well_shaped (match ?x with Some _ => _ | None => _ end) => destruct x
  | |- returns_well_shaped (if ?b then _ else _) => destruct b
  end.

Lemma create_dataset_body_well_shaped name project input_paths tags descr output :
  returns_well_shaped (create_dataset_body name project input_paths tags descr output).
Proof.
  unfold create_dataset_body. do 2 well_shaped_step.
  match goal with H : create_dataset_stage _ _ _ = (Returned ?x, _) |- _ =>
    destruct x as [ early | [files_added total_size] ];
      [ apply stage_early_error in H as (p & _ & ->) | ] end;
    repeat well_shaped_step.
Qed.

Lemma create_version_body_well_shaped parent_id parent_name parent_project input_paths
    tags descr :
  returns_well_shaped
    (create_version_body parent_id parent_name parent_project input_paths tags descr).
Proof.
  unfold create_version_body. do 5 well_shaped_step.
  match goal with H : create_version_stage _ _ _ = (Returned ?x, _) |- _ =>
    rewrite stage_eq in H;
    destruct x as [ early | [files_added total_size] ];
      [ apply stage_early_error in H as (p & _ & ->) | ] end;
    repeat well_shaped_step.
Qed.

Lemma execute_action_well_shaped args : returns_well_shaped (execute_action args).
Proof.
  unfold execute_action.
  repeat match goal with |- returns_well_shaped (if ?b then _ else _) => destruct b end;
    try apply well_shaped_error; apply well_shaped_try.
  - apply create_dataset_body_well_shaped.
  - apply create_version_body_well_shaped.
  - unfold download_dataset_body. repeat well_shaped_step.
  - unfold list_datasets_body. repeat well_shaped_step.
  - unfold get_dataset_info_body. repeat well_shaped_step.
Qed.

Lemma execute_action_propagates args (st st' : state) e :
  execute_action args st = (Raised e, st') -> exn_is_Exception e = false.
Proof.
  unfold execute_action.
  repeat match goal with |- (if ?b then _ else _) _ = _ -> _ => destruct b end;
    try discriminate; apply try_except_propagates.
Qed.

(** X12: whatever the arguments, the result of the dispatch is either the
    failure envelope [{success: false, error: msg}], with these two keys
    and no other, or an envelope whose [success] is [true] and which
    holds no [error].  The exit code computed from it is 0 exactly for
    the second and 1 exactly for the first.  An exception that leaves the
    dispatch does not derive from [Exception]. *)
Theorem results_are_well_shaped :
  forall args (st : state),
    match fst (execute_action args st) with
    | Returned result =>
        well_shaped result
        /\ (exit_code result = 0 <->
            dict_get "success" result = Some (JBool true) /\ dict_get "error" result = None)
        /\ (exit_code result = 1 <-> exists msg, result = error_envelope msg)
    | Raised e => exn_is_Exception e = false
    end.
Proof.
  intros args st. destruct (execute_action args st) as [[result | e] st'] eqn:Hrun; cbn [fst].
  - pose proof (execute_action_well_shaped _ _ _ _ Hrun) as Hshape.
    split; [ exact Hshape | ].
    destruct Hshape as [ [msg ->] | [Hok Hno] ].
    + split; split; try discriminate; eauto. intros [[=] _].
    + unfold exit_code. rewrite Hok. cbn [truthy].
      split; split; try discriminate; auto.
      intros [msg ->]. discriminate.
  - eapply execute_action_propagates, Hrun.
Qed.

End MoreRuns.

(** ** What the parser makes of a command line *)

(** A field of the namespace follows the arguments one by one. *)
Lemma parse_from_field {A} (f : parsing -> A) (g : argparse.Namespace -> A)
    (upd : A -> arg -> A) :
  (forall p args, finish p = ParseOk args -> g args = f p) ->
  (forall p a p', parse_arg p a = Continue p' -> f p' = upd (f p) a) ->
  forall argv p args, parse_from p argv = ParseOk args -> g args = fold_left upd argv (f p).
Proof.
  intros Hfinish Hstep. induction argv as [ | a argv IH ]; intros p args; cbn [parse_from].
  - apply Hfinish.
  - destruct (parse_arg p a) as [ p' | | ] eqn:Harg; try discriminate.
    intros Hparse. cbn [fold_left]. rewrite <- (Hstep _ _ _ Harg). apply IH, Hparse.
Qed.

Lemma finish_fields p args :
  finish p = ParseOk args ->
  p_action p = Some (argparse.action args)
  /\ p_unrecognized p = []
  /\ p_access_key p = Some (argparse.access_key args)
  /\ p_secret_key p = Some (argparse.secret_key args)
  /\ argparse.api_host args = p_api_host p
  /\ argparse.web_host args = p_web_host p
  /\ argparse.files_host args = p_files_host p
  /\ argparse.dataset_id args = p_dataset_id p
  /\ argparse.dataset_name args = p_dataset_name p
  /\ argparse.dataset_project args = p_dataset_project p
  /\ argparse.input_paths args = p_input_paths p
  /\ argparse.tags args = p_tags p
  /\ argparse.description args = p_description p
  /\ argparse.output_uri args = p_output_uri p
  /\ argparse.output_path args = p_output_path p.
Proof.
  unfold finish.
  destruct (p_action p), (p_access_key p), (p_secret_key p), (p_unrecognized p);
    try discriminate.
  intros [= <-]. cbn. repeat split.
Qed.

Lemma values_of_cons o a argv :
  values_of o (a :: argv)
  = match given o a with
    | Some v => v :: values_of o argv
    | None => values_of o argv
    end.
Proof. reflexivity. Qed.

Lemma fold_keep_last o argv : forall old,
  fold_left (keep_last o) argv old
  = match last (values_of o argv) with Some v => Some v | None => old end.
Proof.
  induction argv as [ | a argv IH ]; intros old; [ reflexivity | ].
  cbn [fold_left]. rewrite IH, values_of_cons. unfold keep_last.
  destruct (given o a) as [ v | ]; [ | reflexivity ].
  clear IH. generalize (values_of o argv). intros [ | w l ]; [ reflexivity | ].
  rewrite (last_cons v). destruct (last (w :: l)); reflexivity.
Qed.



(** One argument and the fields. *)
Lemma parse_arg_fields p a p' :
  parse_arg p a = Continue p' ->
  p_api_host p' = keep_last_or "--api-host" (p_api_host p) a
  /\ p_web_host p' = keep_last_or "--web-host" (p_web_host p) a
  /\ p_files_host p' = keep_last_or "--files-host" (p_files_host p) a
  /\ p_access_key p' = keep_last "--access-key" (p_access_key p) a
  /\ p_secret_key p' = keep_last "--secret-key" (p_secret_key p) a
  /\ p_dataset_id p' = keep_last "--dataset-id" (p_dataset_id p) a
  /\ p_dataset_name p' = keep_last "--dataset-name" (p_dataset_name p) a
  /\ p_dataset_project p' = keep_last "--dataset-project" (p_dataset_project p) a
  /\ p_input_paths p' = keep_all "--input-path" (p_input_paths p) a
  /\ p_tags p' = keep_all "--tags" (p_tags p) a
  /\ p_description p' = keep_last "--description" (p_description p) a
  /\ p_output_uri p' = keep_last "--output-uri" (p_output_uri p) a
  /\ p_output_path p' = keep_last "--output-path" (p_output_path p) a.
Proof.
  unfold keep_last, keep_last_or, keep_all, given.
  destruct a as [ v | name | name v ]; cbn [parse_arg].
  - destruct (p_action p); [ | destruct (mem v action_choices) ]; intros [= <-];
      repeat split.
  - destruct (resolve name) as [ o | | ]; try discriminate.
    + destruct (is_help o); [ discriminate | ].
      destruct (is_store_true o); intros [= <-]; repeat split.
    + intros [= <-]. repeat split.
  - destruct (resolve name) as [ o | | ]; try discriminate.
    + destruct (is_help o || is_store_true o); [ discriminate | ].
      intros [= <-]. cbn [store p_api_host p_web_host p_files_host p_access_key p_secret_key
        p_dataset_id p_dataset_name p_dataset_project p_input_paths p_tags p_description
        p_output_uri p_output_path].
      repeat split;
        match goal with |- context [String.eqb o ?s] => destruct (String.eqb o s) end;
        reflexivity.
    + intros [= <-]. repeat split.
Qed.


Lemma seen_fold argv : forall o u a,
  fold_left seen argv (o, u) = (Some a, []) ->
  u = [] /\ unknown_options argv = []
  /\ match o with
     | None => positionals argv = [a]
     | Some a' => a' = a /\ positionals argv = []
     end.
Proof.
  induction argv as [ | x argv IH ]; intros o u a; cbn [fold_left].
  - intros [= -> ->]. auto.
  - unfold seen at 2. cbn [fst snd].
    destruct x as [ v | name | name v ].
    + destruct o as [ a' | ]; intros (Hu & Hunknown & Hpos)%IH.
      * destruct u; discriminate.
      * destruct Hpos as [-> Hpos]. unfold positionals in *. cbn. rewrite Hpos. auto.
    + unfold unknown_options, positionals in *. cbn.
      destruct (resolve name); intros (Hu & Hunknown & Hpos)%IH; auto.
      destruct u; discriminate.
    + unfold unknown_options, positionals in *. cbn.
      destruct (resolve name); intros (Hu & Hunknown & Hpos)%IH; auto.
      destruct u; discriminate.
Qed.

Lemma parse_arg_seen p a p' :
  parse_arg p a = Continue p' ->
  (p_action p', p_unrecognized p') = seen (p_action p, p_unrecognized p) a.
Proof.
  unfold seen. cbn [fst snd]. destruct a as [ v | name | name v ]; cbn [parse_arg].
  - destruct (p_action p) eqn:Haction; [ | destruct (mem v action_choices) ]; intros [= <-];
      cbn; rewrite ?Haction; reflexivity.
  - destruct (resolve name) as [ o | | ]; try discriminate.
    + destruct (is_help o); [ discriminate | ].
      destruct (is_store_true o); intros [= <-]; reflexivity.
    + intros [= <-]. reflexivity.
  - destruct (resolve name) as [ o | | ]; try discriminate.
    + destruct (is_help o || is_store_true o); [ discriminate | ]. intros [= <-]. reflexivity.
    + intros [= <-]. reflexivity.
Qed.

Lemma parse_from_choice argv : forall p args,
  parse_from p argv = ParseOk args ->
  (forall a, p_action p = Some a -> mem a action_choices = true) ->
  mem (argparse.action args) action_choices = true.
Proof.
  induction argv as [ | x argv IH ]; intros p args; cbn [parse_from].
  - intros (Haction & _)%finish_fields Hp. apply Hp, Haction.
  - destruct (parse_arg p x) as [ p' | | ] eqn:Harg; try discriminate.
    intros Hparse Hp. apply (IH _ _ Hparse). intros a.
    destruct x as [ v | name | name v ]; cbn [parse_arg] in Harg.
    + destruct (p_action p) eqn:Haction.
      * injection Harg as <-. cbn. rewrite Haction. apply Hp.
      * destruct (mem v action_choices) eqn:Hv; [ | discriminate ].
        injection Harg as <-. cbn. intros [= <-]. exact Hv.
    + destruct (resolve name) as [ o | | ]; try discriminate.
      * destruct (is_help o); [ discriminate | ].
        destruct (is_store_true o); [ | discriminate ]. injection Harg as <-. apply Hp.
      * injection Harg as <-. apply Hp.
    + destruct (resolve name) as [ o | | ]; try discriminate.
      * destruct (is_help o || is_store_true o); [ discriminate | ].
        injection Harg as <-. apply Hp.
      * injection Harg as <-. apply Hp.
Qed.

(** X14: a command line is accepted only if it names one of the five
    actions as its one positional argument, gives [--access-key] and
    [--secret-key] a value (the last one given counts) and holds no option
    the parser does not know. *)
Theorem accepted_command_line_has_the_required_arguments :
  forall argv args,
    parse_args argv = ParseOk args ->
    In (argparse.action args) ["create"; "version"; "download"; "list"; "info"]
    /\ positionals argv = [argparse.action args]
    /\ last (values_of "--access-key" argv) = Some (argparse.access_key args)
    /\ last (values_of "--secret-key" argv) = Some (argparse.secret_key args)
    /\ unknown_options argv = [].
Proof.
  intros argv args Hparse. unfold parse_args in Hparse.
  pose proof (fun A f g upd Hf Hs => @parse_from_field A f g upd Hf Hs _ _ _ Hparse) as Hfield.
  assert (Hseen : (Some (argparse.action args), @nil string)
                  = fold_left seen argv (None, [])).
  { apply (Hfield _ (fun p => (p_action p, p_unrecognized p))
             (fun args => (Some (argparse.action args), []))).
    - intros p a (-> & -> & _)%finish_fields. reflexivity.
    - intros p a p'. apply parse_arg_seen. }
  symmetry in Hseen. apply seen_fold in Hseen as (_ & Hunknown & Hpos).
  split.
  { pose proof (parse_from_choice _ _ _ Hparse) as Hchoice.
    unfold mem in Hchoice. rewrite existsb_exists in Hchoice.
    destruct Hchoice as (choice & Hin & ->%String.eqb_eq); [ discriminate | exact Hin ]. }
  split; [ exact Hpos | ]. split; [ | split; [ | exact Hunknown ] ].
  - pose proof (Hfield _ p_access_key (fun args => Some (argparse.access_key args))
                  (keep_last "--access-key")) as Hkey.
    rewrite fold_keep_last in Hkey. cbn [parser_defaults p_access_key] in Hkey.
    destruct (last _).
    + symmetry. apply Hkey.
      * intros p a H. apply finish_fields in H. symmetry. tauto.
      * intros p a p' H. apply parse_arg_fields in H. tauto.
    + discriminate Hkey.
      * intros p a H. apply finish_fields in H. symmetry. tauto.
      * intros p a p' H. apply parse_arg_fields in H. tauto.
  - pose proof (Hfield _ p_secret_key (fun args => Some (argparse.secret_key args))
                  (keep_last "--secret-key")) as Hkey.
    rewrite fold_keep_last in Hkey. cbn [parser_defaults p_secret_key] in Hkey.
    destruct (last _).
    + symmetry. apply Hkey.
      * intros p a H. apply finish_fields in H. symmetry. tauto.
      * intros p a p' H. apply parse_arg_fields in H. tauto.
    + discriminate Hkey.
      * intros p a H. apply finish_fields in H. symmetry. tauto.
      * intros p a p' H. apply parse_arg_fields in H. tauto.
Qed.

(** ** The test suite *)

Section Suite.

Import TestSuite.

#[local] Existing Instance T_ret.
#[local] Existing Instance T_bind.

Lemma suite_bind_run {A B} (m : T A) (k : A -> T B) out :
  (m ≫= k) out = match m out with
                 | (Ok a, out') => k a out'
                 | (Throws e, out') => (Throws e, out')
                 end.
Proof. reflexivity. Qed.

Lemma say_bind {B} text (k : unit -> T B) out : (say text ≫= k) out = k tt (out ++ lines text).
Proof. reflexivity. Qed.

Lemma import_fst w out :
  fst (test_clearml_import w out)
  = match import_clearml w with
    | None => Ok true
    | Some e => match raised_class e with ImportError => Ok false | _ => Throws e end
    end.
Proof.
  unfold test_clearml_import. destruct (import_clearml w) as [ e | ]; [ | reflexivity ].
  destruct (raised_class e); reflexivity.
Qed.

Lemma syntax_handlers_fst e out :
  fst (syntax_handlers e out)
  = match raised_class e with
    | SyntaxError | FileNotFoundError => Ok false
    | _ => Throws e
    end.
Proof. unfold syntax_handlers. destruct (raised_class e); reflexivity. Qed.

Lemma syntax_fst w out :
  fst (test_wrapper_syntax w out)
  = match read_source w with
    | inl e =>
        match raised_class e with
        | SyntaxError | FileNotFoundError => Ok false
        | _ => Throws e
        end
    | inr source =>
        match ast_parse w source with
        | Some e =>
            match raised_class e with
            | SyntaxError | FileNotFoundError => Ok false
            | _ => Throws e
            end
        | None => Ok true
        end
    end.
Proof.
  unfold test_wrapper_syntax. destruct (read_source w) as [ e | source ];
    [ apply syntax_handlers_fst | ].
  destruct (ast_parse w source); [ apply syntax_handlers_fst | reflexivity ].
Qed.

Lemma help_fst w out :
  fst (test_wrapper_help w out)
  = match run_help w with
    | inr text => Ok (contains TITLE text)
    | inl e => if is_Exception e then Ok false else Throws e
    end.
Proof.
  unfold test_wrapper_help. destruct (run_help w) as [ e | text ].
  - destruct (is_Exception e); reflexivity.
  - destruct (contains TITLE text); reflexivity.
Qed.

(** What [main] returns, from what the three tests return. *)
Lemma suite_main_fst w out :
  fst (main w out)
  = match fst (test_clearml_import w []) with
    | Throws e => Throws e
    | Ok imported =>
        match fst (test_wrapper_syntax w []) with
        | Throws e => Throws e
        | Ok valid =>
            if imported then
              match fst (test_wrapper_help w []) with
              | Throws e => Throws e
              | Ok shown => Ok (if valid && shown then 0 else 1)
              end
            else Ok 1
        end
    end.
Proof.
  unfold main. rewrite !say_bind, suite_bind_run.
  rewrite (import_fst w []), (syntax_fst w []), (help_fst w []).
  destruct (test_clearml_import w _) as [[imported | e] out1] eqn:H1;
    apply (f_equal fst) in H1; rewrite import_fst in H1; cbn [fst] in H1; rewrite H1;
    [ | reflexivity ].
  rewrite say_bind, suite_bind_run.
  destruct (test_wrapper_syntax w _) as [[valid | e] out2] eqn:H2;
    apply (f_equal fst) in H2; rewrite syntax_fst in H2; cbn [fst] in H2; rewrite H2;
    [ | reflexivity ].
  rewrite say_bind, suite_bind_run. destruct imported.
  - rewrite suite_bind_run.
    destruct (test_wrapper_help w _) as [[shown | e] out3] eqn:H3;
      apply (f_equal fst) in H3; rewrite help_fst in H3; cbn [fst] in H3; rewrite H3;
      [ | reflexivity ].
    rewrite say_bind. destruct valid, shown; reflexivity.
  - destruct valid; reflexivity.
Qed.

(** X15: when the suite returns, it returns 0 or 1, and 0 exactly when
    all three tests pass: the SDK imports, the source of the wrapper is
    read and parses, and the wrapper run with [--help] returns an output
    that contains [ClearML Dataset Wrapper]. *)
Theorem suite_returns_0_iff_every_test_passes :
  forall w out code,
    fst (main w out) = Ok code ->
    (code = 0 \/ code = 1)
    /\ (code = 0 <->
        import_clearml w = None
        /\ (exists source, read_source w = inr source /\ ast_parse w source = None)
        /\ (exists text, run_help w = inr text /\ contains TITLE text = true)).
Proof.
  intros w out code.
  rewrite suite_main_fst, import_fst, syntax_fst, help_fst.
  destruct (import_clearml w) as [ e | ].
  { destruct (raised_class e); try discriminate.
    destruct (read_source w) as [ e' | source ].
    - destruct (raised_class e'); try discriminate;
        intros [= <-]; (split; [ auto | ]); split; try discriminate; intros [[=] _].
    - destruct (ast_parse w source) as [ e' | ];
        [ destruct (raised_class e'); try discriminate | ];
        intros [= <-]; (split; [ auto | ]); split; try discriminate; intros [[=] _]. }
  destruct (read_source w) as [ e' | source ].
  { destruct (raised_class e'); try discriminate;
      (destruct (run_help w) as [ e | text ];
       [ destruct (is_Exception e); try discriminate | ]);
      intros [= <-]; (split; [ auto | ]); split; try discriminate;
      intros (_ & (source & [=] & _) & _). }
  destruct (ast_parse w source) as [ e' | ] eqn:Hparse.
  { destruct (raised_class e'); try discriminate;
      (destruct (run_help w) as [ e | text ];
       [ destruct (is_Exception e); try discriminate | ]);
      intros [= <-]; (split; [ auto | ]); split; try discriminate;
      intros (_ & (source' & [= <-] & Hnone) & _); congruence. }
  destruct (run_help w) as [ e | text ].
  { destruct (is_Exception e); try discriminate.
    intros [= <-]. split; [ auto | ]. split; try discriminate.
    intros (_ & _ & (text & [=] & _)). }
  cbn [andb]. destruct (contains TITLE text) eqn:Htitle; intros [= <-].
  - split; [ auto | ]. split; [ intros _ | reflexivity ]. eauto 8.
  - split; [ auto | ]. split; [ discriminate | ].
    intros (_ & _ & (text' & [= <-] & Htitle')). congruence.
Qed.

Lemma syntax_raises_iff w out e :
  fst (test_wrapper_syntax w out) = Throws e <->
  (read_source w = inl e
   \/ exists source, read_source w = inr source /\ ast_parse w source = Some e)
  /\ raised_class e <> SyntaxError
  /\ raised_class e <> FileNotFoundError.
Proof.
  rewrite syntax_fst. split.
  - destruct (read_source w) as [ e2 | source ] eqn:Hread.
    + destruct (raised_class e2) eqn:Hclass; try discriminate; intros [= <-];
        (split; [ left; reflexivity | rewrite Hclass; split; discriminate ]).
    + destruct (ast_parse w source) as [ e2 | ] eqn:Hparse; [ | discriminate ].
      destruct (raised_class e2) eqn:Hclass; try discriminate; intros [= <-];
        (split; [ right; eauto | rewrite Hclass; split; discriminate ]).
  - intros [[Hread | (source & Hread & Hparse)] [Hs Hf]]; rewrite Hread; [ | rewrite Hparse ];
      destruct (raised_class e); congruence.
Qed.

(** X16: the suite ends with an exception, and without a summary, exactly
    when the import of the SDK raises something that is not an
    [ImportError]; or, the import test having returned, reading or
    parsing the wrapper raises something that is neither a [SyntaxError]
    nor a [FileNotFoundError]; or, the SDK being there and the syntax test
    having returned, running the wrapper raises an exception outside
    [Exception]. *)
Theorem suite_lets_other_exceptions_through :
  forall w out e,
    let import_returns :=
      match import_clearml w with
      | None => true
      | Some e' => match raised_class e' with ImportError => true | _ => false end
      end in
    let syntax_raises e' :=
      (read_source w = inl e'
       \/ exists source, read_source w = inr source /\ ast_parse w source = Some e')
      /\ raised_class e' <> SyntaxError
      /\ raised_class e' <> FileNotFoundError in
    fst (main w out) = Throws e <->
    (import_clearml w = Some e /\ raised_class e <> ImportError)
    \/ (import_returns = true /\ syntax_raises e)
    \/ (import_clearml w = None
        /\ (forall e', ~ syntax_raises e')
        /\ run_help w = inl e /\ is_Exception e = false).
Proof.
  intros w out e import_returns syntax_raises. subst import_returns.
  assert (Hsyntax : forall e', fst (test_wrapper_syntax w []) = Throws e' <-> syntax_raises e')
    by (intros e'; apply syntax_raises_iff).
  clearbody syntax_raises.
  rewrite suite_main_fst, import_fst, help_fst.
  destruct (fst (test_wrapper_syntax w [])) as [ valid | e2 ].
  - assert (Hnone : forall e', ~ syntax_raises e')
      by (intros e' H; apply Hsyntax in H; discriminate).
    destruct (import_clearml w) as [ e1 | ];
      [ destruct (raised_class e1) eqn:Hclass
      | destruct (run_help w) as [ e3 | text ];
        [ destruct (is_Exception e3) eqn:Hexn | ] ];
      (split;
       [ try discriminate; intros [= <-];
         first [ left; split; [ reflexivity | rewrite Hclass; discriminate ]
               | right; right; auto ]
       | intros [ [H1 H2] | [ [H1 H2] | (H1 & H2 & H3 & H4) ] ];
         try discriminate; try (destruct (Hnone _ H2); fail);
         try (injection H1 as <-); try (injection H3 as <-);
         first [ reflexivity | congruence ] ]).
  - assert (Hraises : syntax_raises e2) by (apply Hsyntax; reflexivity).
    destruct (import_clearml w) as [ e1 | ]; [ destruct (raised_class e1) eqn:Hclass | ];
      (split;
       [ intros [= <-];
         first [ left; split; [ reflexivity | rewrite Hclass; discriminate ]
               | right; left; split; [ reflexivity | exact Hraises ] ]
       | intros [ [H1 H2] | [ [H1 H2] | (H1 & H2 & H3 & H4) ] ];
         try discriminate; try (destruct (H2 _ Hraises); fail);
         try (apply Hsyntax in H2; injection H2 as <-);
         try (injection H1 as <-);
         first [ reflexivity | congruence ] ]).
Qed.

(** X17: when the SDK is not installed (its import raises an
    [ImportError]), the suite does not run the wrapper: what
    [subprocess.run] would give changes nothing.  The suite never returns
    0 then; when it returns, it returns 1 and its summary counts the tests
    passed out of 2, not 3. *)
Theorem suite_skips_the_help_test_without_the_sdk :
  forall w out e,
    import_clearml w = Some e ->
    raised_class e = ImportError ->
    (forall help,
        main w out
        = main {| import_clearml := import_clearml w; read_source := read_source w;
                  ast_parse := ast_parse w; run_help := help |} out)
    /\ fst (main w out) <> Ok 0
    /\ (forall code,
           fst (main w out) = Ok code ->
           code = 1
           /\ exists passed,
                (passed <= 1)%nat
                /\ In ("Passed: " +:+ dec (Z.of_nat passed) +:+ "/2") (snd (main w out))).
Proof.
  intros w out e Himport Hclass. split; [ | split ].
  - intros help. unfold main, test_clearml_import, test_wrapper_syntax.
    cbn [import_clearml read_source ast_parse run_help]. rewrite Himport, Hclass.
    reflexivity.
  - rewrite suite_main_fst, import_fst, Himport, Hclass.
    destruct (fst (test_wrapper_syntax w [])); discriminate.
  - intros code. unfold main, test_clearml_import, test_wrapper_syntax, syntax_handlers.
    rewrite Himport, Hclass.
    destruct (read_source w) as [ e2 | source ];
      [ | destruct (ast_parse w source) as [ e2 | ] ];
      try (destruct (raised_class e2); try discriminate);
      intros [= <-]; (split; [ reflexivity | ]);
      first [ exists 0%nat; split; [ lia | ];
              lazy -[lines In]; rewrite !in_app_iff; left; left; left; right;
              vm_compute; auto; fail
            | exists 1%nat; split; [ lia | ];
              lazy -[lines In]; rewrite !in_app_iff; left; left; left; right;
              vm_compute; auto ].
Qed.

End Suite.

(** ** The suite and the wrapper *)

(** Reading back the lines of a text gives the text and a line break. *)
Lemma captured_text_lines s : captured_text (lines s) = s +:+ nls.
Proof.
  induction s as [ | c rest IH ]; [ reflexivity | ].
  cbn [lines]. destruct (Ascii.eqb c nl) eqn:Hc.
  - apply Ascii.eqb_eq in Hc. subst c. cbn [captured_text fold_right].
    change (fold_right _ "" (lines rest)) with (captured_text (lines rest)).
    rewrite IH. reflexivity.
  - destruct (lines rest) as [ | l ls ] eqn:Hlines; [ destruct (lines_nonempty _ Hlines) | ].
    cbn [captured_text fold_right] in *.
    change (String c l +:+ nls +:+ fold_right (fun line text => line +:+ nls +:+ text) "" ls)
      with (String c (l +:+ nls +:+ fold_right (fun line text => line +:+ nls +:+ text) "" ls)).
    rewrite IH. reflexivity.
Qed.

Lemma prefix_append sub s t : String.prefix sub s = true -> String.prefix sub (s +:+ t) = true.
Proof.
  revert s. induction sub as [ | c sub IH ]; intros s.
  - intros _. destruct s, t; reflexivity.
  - destruct s as [ | d s ]; [ discriminate | ].
    change (String d s +:+ t) with (String d (s +:+ t)). cbn [String.prefix].
    destruct (ascii_dec c d); [ apply IH | discriminate ].
Qed.

Lemma contains_append sub s t : contains sub s = true -> contains sub (s +:+ t) = true.
Proof.
  induction s as [ | c s IH ].
  - cbn [contains]. rewrite orb_false_r. intros H.
    destruct sub; [ destruct t; reflexivity | discriminate ].
  - intros H. change (String c s +:+ t) with (String c (s +:+ t)).
    cbn [contains] in H |- *. apply orb_true_iff in H as [ H | H ].
    + apply (prefix_append _ _ t) in H.
      change (String c s +:+ t) with (String c (s +:+ t)) in H. rewrite H. reflexivity.
    + rewrite (IH H). apply orb_true_r.
Qed.

Section SuiteAndWrapper.

Context {S F P : Type} {FS : FileSystem F P} {Sdk : SDK S F}.

(** X18: the help test of the suite runs the wrapper with [--help].
    With the SDK importable the wrapper prints the help of its parser and
    exits with 0, and the test passes as soon as this help holds the
    description [ClearML Dataset Wrapper].  Without the SDK the wrapper
    prints its one-line failure envelope before it reads the command line
    and exits with 1, and the test fails whatever the help says: this is
    why the suite runs it only after the import test has passed. *)
Theorem help_test_needs_the_sdk :
  forall help (st : state S F) w out,
    stdout st = [] ->
    let wrapper imported := main help imported [Flag "--help"] st in
    fst (wrapper Imported) = Exit 0
    /\ fst (wrapper ImportErrorRaised) = Exit 1
    /\ (TestSuite.run_help w = inr (captured_text (stdout (snd (wrapper Imported)))) ->
        contains TestSuite.TITLE help = true ->
        fst (TestSuite.test_wrapper_help w out) = TestSuite.Ok true)
    /\ (TestSuite.run_help w
        = inr (captured_text (stdout (snd (wrapper ImportErrorRaised)))) ->
        fst (TestSuite.test_wrapper_help w out) = TestSuite.Ok false).
Proof.
  intros help st w out Hempty wrapper. subst wrapper. cbv beta.
  split; [ reflexivity | ]. split; [ reflexivity | ].
  unfold main. cbn [CLEARML_AVAILABLE negb].
  change (parse_args [Flag "--help"]) with ParseHelp. cbv iota.
  unfold print. cbn [snd stdout]. rewrite Hempty. cbn [app].
  split.
  - intros Hrun Htitle. rewrite help_fst, Hrun, captured_text_lines.
    rewrite (contains_append _ _ _ Htitle). reflexivity.
  - intros Hrun. rewrite help_fst, Hrun. vm_compute. reflexivity.
Qed.

End SuiteAndWrapper.

(** ** The further properties on the small world *)

(** [create] of [a.txt] and [data]: five calls. *)
Lemma create_protocol_witness :
  dict_get "success" (Toy.returned Toy.created) = Some (JBool true)
  /\ exists dataset,
       calls (snd Toy.created)
       = [CallCreate {| kw_dataset_name := "x"; kw_dataset_project := "datasets";
                        kw_parent_datasets := None; kw_dataset_tags := [];
                        kw_description := "Created by ClearPipe"; kw_output_uri := None |};
          CallAddFiles dataset "a.txt"; CallAddFiles dataset "data";
          CallUpload dataset; CallFinalize dataset]
       /\ dict_get "datasetId" (Toy.returned Toy.created) = Some (JStr (ds_id dataset)).
Proof.
  assert (Hok : dict_get "success" (Toy.returned Toy.created) = Some (JBool true))
    by (vm_compute; reflexivity).
  assert (Hrun : create_dataset "x" None (Some ["a.txt"; "data"]) None None None
                   (Toy.start Toy.friendly)
                 = (Returned (Toy.returned Toy.created), snd Toy.created))
    by (vm_compute; reflexivity).
  split; [ exact Hok | ].
  destruct (create_success_protocol (FS := Toy.toy_fs) (Sdk := Toy.toy_sdk)
              "x" None (Some ["a.txt"; "data"]) None None None
              (Toy.start Toy.friendly) (snd Toy.created) (Toy.returned Toy.created) Hrun Hok)
    as (dataset & _ & Hcalls & _ & Hid & _).
  exists dataset. split; [ | exact Hid ].
  rewrite Hcalls. vm_compute. reflexivity.
Defined.

(** A version of [d1] with [a.txt]: the parent is looked up first, and
    the file goes to the handle [d2] that [Dataset.create] returned. *)
Lemma version_protocol_witness :
  dict_get "success" (Toy.returned Toy.versioned) = Some (JBool true)
  /\ calls (snd Toy.versioned)
     = [CallGet (ById "d1");
        CallCreate {| kw_dataset_name := "images"; kw_dataset_project := "datasets";
                      kw_parent_datasets := Some ["d1"]; kw_dataset_tags := [];
                      kw_description := "New version created by ClearPipe";
                      kw_output_uri := None |};
        CallAddFiles Toy.a_version "a.txt";
        CallUpload Toy.a_version; CallFinalize Toy.a_version]
  /\ dict_get "parentId" (Toy.returned Toy.versioned) = Some (JStr "d1")
  /\ dict_get "datasetId" (Toy.returned Toy.versioned) = Some (JStr "d2").
Proof.
  assert (Hok : dict_get "success" (Toy.returned Toy.versioned) = Some (JBool true))
    by (vm_compute; reflexivity).
  assert (Hrun : create_version (Some "d1") None None (Some ["a.txt"]) None None
                   (Toy.start Toy.versioning)
                 = (Returned (Toy.returned Toy.versioned), snd Toy.versioned))
    by (vm_compute; reflexivity).
  split; [ exact Hok | ].
  destruct (version_success_protocol (FS := Toy.toy_fs) (Sdk := Toy.toy_sdk)
              (Some "d1") None None (Some ["a.txt"]) None None
              (Toy.start Toy.versioning) (snd Toy.versioned) (Toy.returned Toy.versioned)
              Hrun Hok)
    as (lookup & parent & new_dataset & Hlookup & Hparent & Hnew & Hcalls & Hpid & Hdid & _).
  vm_compute in Hlookup. injection Hlookup as <-.
  vm_compute in Hparent. injection Hparent as <-.
  vm_compute in Hnew. injection Hnew as <-.
  split; [ | split; [ exact Hpid | exact Hdid ] ].
  rewrite Hcalls. vm_compute. reflexivity.
Defined.

(** [create] of [a.txt] and [data]: [finalize] is invoked, and the upload
    before it has returned. *)
Lemma finalize_witness :
  exists new (st2 : state Toy.script Toy.node),
    calls (snd Toy.created) = calls (Toy.start Toy.friendly) ++ new
    /\ existsb is_finalize new = true
    /\ r_result (upload Toy.a_dataset (sdk_state st2)) = inr tt
    /\ calls (snd Toy.created)
       = calls st2 ++ [CallUpload Toy.a_dataset; CallFinalize Toy.a_dataset].
Proof.
  destruct (finalize_only_follows_upload (FS := Toy.toy_fs) (Sdk := Toy.toy_sdk)
              (Some ["a.txt"; "data"]) None None (Toy.start Toy.friendly)) as [Hcreate _].
  destruct (Hcreate "x" None None) as (_ & new & Hcalls & _ & Hreached).
  assert (Hfinalize : existsb is_finalize new = true).
  { change (calls (Toy.start Toy.friendly)) with (@nil sdk_call) in Hcalls.
    cbn [app] in Hcalls. rewrite <- Hcalls. vm_compute. reflexivity. }
  destruct (Hreached Hfinalize) as (dataset & st1 & staged & st2 & Hcreated & _ & Hupload & Hend).
  vm_compute in Hcreated. injection Hcreated as <- _.
  exists new, st2. split; [ exact Hcalls | ]. split; [ exact Hfinalize | ].
  split; [ exact Hupload | exact Hend ].
Defined.

(** [create] of [a.txt] and [data]: three records. *)
Lemma files_witness :
  dict_get "success" (Toy.returned Toy.created) = Some (JBool true)
  /\ reports_staged_files Toy.tree ["a.txt"; "data"] (Toy.returned Toy.created).
Proof.
  assert (Hok : dict_get "success" (Toy.returned Toy.created) = Some (JBool true))
    by (vm_compute; reflexivity).
  assert (Hrun : create_dataset "x" None (Some ["a.txt"; "data"]) None None None
                   (Toy.start Toy.friendly)
                 = (Returned (Toy.returned Toy.created), snd Toy.created))
    by (vm_compute; reflexivity).
  split; [ exact Hok | ].
  exact (files_hold_the_first_20_records (FS := Toy.toy_fs) (Sdk := Toy.toy_sdk)
           (Some ["a.txt"; "data"]) None None (Toy.start Toy.friendly) (snd Toy.created)
           (Toy.returned Toy.created)
           (or_introl (ex_intro _ "x" (ex_intro _ None (ex_intro _ None Hrun)))) Hok).
Defined.


(** The [webUrl] of [create_two]. *)
Lemma web_url_witness :
  dict_get "success" (Toy.returned Toy.dispatched) = Some (JBool true)
  /\ dict_get "webUrl" (Toy.returned Toy.dispatched)
     = Some (JStr "https://app.clear.ml/datasets/d1").
Proof.
  assert (Hok : dict_get "success" (Toy.returned Toy.dispatched) = Some (JBool true))
    by (vm_compute; reflexivity).
  assert (Hrun : execute_action (Toy.parsed Toy.create_two)
                   (setup_credentials (argparse.api_host (Toy.parsed Toy.create_two))
                      (argparse.web_host (Toy.parsed Toy.create_two))
                      (argparse.files_host (Toy.parsed Toy.create_two))
                      (argparse.access_key (Toy.parsed Toy.create_two))
                      (argparse.secret_key (Toy.parsed Toy.create_two))
                      (Toy.start Toy.friendly))
                 = (Returned (Toy.returned Toy.dispatched), snd Toy.dispatched))
    by (vm_compute; reflexivity).
  split; [ exact Hok | ].
  destruct (web_url_is_built_from_the_web_host (FS := Toy.toy_fs) (Sdk := Toy.toy_sdk)
              (Toy.parsed Toy.create_two) (Toy.start Toy.friendly) (snd Toy.dispatched)
              (Toy.returned Toy.dispatched) Hrun Hok)
    as [ (_ & id & Hid & Hurl) | (Hin & _) ].
  - assert (Hd1 : dict_get "datasetId" (Toy.returned Toy.dispatched) = Some (JStr "d1"))
      by (vm_compute; reflexivity).
    rewrite Hd1 in Hid. injection Hid as <-. exact Hurl.
  - exfalso. cbn [In] in Hin.
    destruct Hin as [ H | [ H | [] ] ]; vm_compute in H; discriminate H.
Defined.

(** [download] of [d1] into [data]: two files. *)
Lemma download_witness :
  dict_get "success" (Toy.returned Toy.downloaded) = Some (JBool true)
  /\ exists lookup dataset records,
       calls (snd Toy.downloaded) = [CallGet lookup; CallGetLocalCopy dataset "data"]
       /\ dict_get "localPath" (Toy.returned Toy.downloaded) = Some (JStr "data")
       /\ dict_get "filesDownloaded" (Toy.returned Toy.downloaded)
          = Some (JInt (Z.of_nat (length records)))
       /\ List.map (dict_get "path") records
          = [Some (JStr "data/b.txt"); Some (JStr "data/sub/c.txt")].
Proof.
  assert (Hok : dict_get "success" (Toy.returned Toy.downloaded) = Some (JBool true))
    by (vm_compute; reflexivity).
  assert (Hrun : download_dataset (Some "d1") None None (Some "data") (Toy.start Toy.friendly)
                 = (Returned (Toy.returned Toy.downloaded), snd Toy.downloaded))
    by (vm_compute; reflexivity).
  split; [ exact Hok | ].
  destruct (download_reports_the_local_copy (FS := Toy.toy_fs) (Sdk := Toy.toy_sdk)
              (Some "d1") None None (Some "data") (Toy.start Toy.friendly)
              (snd Toy.downloaded) (Toy.returned Toy.downloaded) Hrun Hok)
    as (lookup & dataset & target_folder & local_path & records
        & _ & Hcalls & Htarget & _ & _ & _ & Hlocal & Hpaths & Hcount & _).
  assert (target_folder = "data") as ->.
  { destruct Htarget as [ [_ [= <-]] | [[=] _] ]. reflexivity. }
  assert (Hdata : dict_get "localPath" (Toy.returned Toy.downloaded) = Some (JStr "data"))
    by (vm_compute; reflexivity).
  rewrite Hdata in Hlocal. injection Hlocal as <-.
  exists lookup, dataset, records.
  split; [ exact Hcalls | ]. split; [ exact Hdata | ]. split; [ exact Hcount | ].
  rewrite Hpaths. vm_compute. reflexivity.
Defined.

(** [info] on [d1], whose handle has no [get_file_size]: three calls, and
    the envelope carries what [list_files] and [is_final] answered. *)
Lemma info_protocol_witness :
  dict_get "success" (Toy.returned Toy.informed) = Some (JBool true)
  /\ calls (snd Toy.informed)
     = [CallGet (ById "d1"); CallListFiles Toy.a_dataset; CallIsFinal Toy.a_dataset]
  /\ dict_get "fileCount" (Toy.returned Toy.informed) = Some (JInt 2)
  /\ dict_get "isFinalized" (Toy.returned Toy.informed) = Some (JBool true).
Proof.
  assert (Hok : dict_get "success" (Toy.returned Toy.informed) = Some (JBool true))
    by (vm_compute; reflexivity).
  assert (Hrun : get_dataset_info (Some "d1") None None (Toy.start Toy.friendly)
                 = (Returned (Toy.returned Toy.informed), snd Toy.informed))
    by (vm_compute; reflexivity).
  split; [ exact Hok | ].
  destruct (info_asks_the_size_of_the_listed_files (Sdk := Toy.toy_sdk)
              (Some "d1") None None (Toy.start Toy.friendly) (snd Toy.informed)
              (Toy.returned Toy.informed) Hrun Hok)
    as (lookup & dataset & file_entries & files & final & st0 & st1 & st2
        & Hlookup & Hget & _ & _ & _ & Hfound & Hlisted & Hanswer & Hcalls & _ & _
        & Hcount & _ & _ & _ & _ & Hfinal).
  vm_compute in Hlookup. injection Hlookup as <-.
  vm_compute in Hfound. injection Hfound as <-.
  vm_compute in Hget. injection Hget as <-.
  vm_compute in Hlisted. injection Hlisted as <-.
  vm_compute in Hanswer. injection Hanswer as <-.
  split; [ rewrite Hcalls; reflexivity | ]. split; [ exact Hcount | exact Hfinal ].
Defined.

(** An id and a name: the id is looked up. *)
Lemma lookup_witness :
  "d1" <> ""
  /\ exists rest,
       calls (snd (get_dataset_info (Some "d1") (Some "images") (Some "examples")
                     (Toy.start Toy.friendly)))
       = CallGet (ById "d1") :: rest.
Proof.
  assert (Hid : "d1" <> "") by discriminate.
  split; [ exact Hid | ].
  destruct (lookup_prefers_the_id (FS := Toy.toy_fs) (Sdk := Toy.toy_sdk)
              (Some "d1") (Some "images") (Some "examples") (ById "d1")
              (Toy.start Toy.friendly)
              (or_introl (ex_intro _ "d1" (conj eq_refl (conj Hid eq_refl)))))
    as (_ & _ & rest & Hcalls).
  exists rest. exact Hcalls.
Defined.

(** A service that knows no dataset. *)
Lemma unknown_dataset_witness :
  lookup_kwargs (Some "d9") None None = Some (ById "d9")
  /\ r_result (Dataset_get (ById "d9") (sdk_state (Toy.start Toy.empty_service))) = inr None
  /\ fst (get_dataset_info (Some "d9") None None (Toy.start Toy.empty_service))
     = Returned (error_envelope "Dataset not found")
  /\ fst (create_version (Some "d9") None None (Some ["a.txt"]) None None
            (Toy.start Toy.empty_service))
     = Returned (error_envelope "Parent dataset not found")
  /\ calls (snd (create_version (Some "d9") None None (Some ["a.txt"]) None None
                   (Toy.start Toy.empty_service)))
     = [CallGet (ById "d9")].
Proof.
  assert (Hlookup : lookup_kwargs (Some "d9") None None = Some (ById "d9")) by reflexivity.
  assert (Hnone : r_result (Dataset_get (ById "d9") (sdk_state (Toy.start Toy.empty_service)))
                  = inr None) by reflexivity.
  split; [ exact Hlookup | ]. split; [ exact Hnone | ].
  destruct (unknown_dataset_is_reported (FS := Toy.toy_fs) (Sdk := Toy.toy_sdk)
              (Some "d9") None None (ById "d9") (Toy.start Toy.empty_service) Hlookup Hnone)
    as (Hversion & _ & Hinfo).
  rewrite Hinfo, (Hversion (Some ["a.txt"]) None None). repeat split.
Defined.


(** [create_two] names its action once. *)
Lemma accepted_witness :
  parse_args Toy.create_two = ParseOk (Toy.parsed Toy.create_two)
  /\ positionals Toy.create_two = ["create"]
  /\ last (values_of "--secret-key" Toy.create_two) = Some "SK".
Proof.
  assert (Hparse : parse_args Toy.create_two = ParseOk (Toy.parsed Toy.create_two))
    by (vm_compute; reflexivity).
  split; [ exact Hparse | ].
  destruct (accepted_command_line_has_the_required_arguments Toy.create_two
              (Toy.parsed Toy.create_two) Hparse)
    as (_ & Hpos & _ & Hsecret & _).
  split; [ exact Hpos | exact Hsecret ].
Defined.

(** Everything is there: the suite returns 0. *)
Lemma suite_passes_witness :
  fst (TestSuite.main TestSuite.all_fine []) = TestSuite.Ok 0
  /\ TestSuite.import_clearml TestSuite.all_fine = None
  /\ exists text,
       TestSuite.run_help TestSuite.all_fine = inr text
       /\ contains TestSuite.TITLE text = true.
Proof.
  assert (Hrun : fst (TestSuite.main TestSuite.all_fine []) = TestSuite.Ok 0)
    by (vm_compute; reflexivity).
  split; [ exact Hrun | ].
  destruct (suite_returns_0_iff_every_test_passes TestSuite.all_fine [] 0 Hrun)
    as [_ [Hall _]].
  destruct (Hall eq_refl) as (Himport & _ & Hhelp).
  split; [ exact Himport | exact Hhelp ].
Defined.

(** Without the SDK: one test passed out of two. *)
Lemma suite_skips_witness :
  TestSuite.import_clearml TestSuite.no_sdk
  = Some (TestSuite.Raise TestSuite.ImportError "No module named 'clearml'")
  /\ fst (TestSuite.main TestSuite.no_sdk []) = TestSuite.Ok 1
  /\ exists passed,
       (passed <= 1)%nat
       /\ In ("Passed: " +:+ dec (Z.of_nat passed) +:+ "/2")
            (snd (TestSuite.main TestSuite.no_sdk [])).
Proof.
  assert (Himport : TestSuite.import_clearml TestSuite.no_sdk
                    = Some (TestSuite.Raise TestSuite.ImportError "No module named 'clearml'"))
    by reflexivity.
  assert (Hrun : fst (TestSuite.main TestSuite.no_sdk []) = TestSuite.Ok 1)
    by (vm_compute; reflexivity).
  split; [ exact Himport | ]. split; [ exact Hrun | ].
  destruct (suite_skips_the_help_test_without_the_sdk TestSuite.no_sdk []
              (TestSuite.Raise TestSuite.ImportError "No module named 'clearml'")
              Himport eq_refl) as (_ & _ & Hsummary).
  destruct (Hsummary 1 Hrun) as (_ & Hpassed). exact Hpassed.
Defined.

(** The wrapper asked for its help, with and without the SDK. *)
Lemma help_test_witness :
  stdout (Toy.start Toy.friendly) = []
  /\ TestSuite.run_help TestSuite.all_fine
     = inr (captured_text
              (stdout (snd (main TestSuite.help_output Imported [Flag "--help"]
                              (Toy.start Toy.friendly)))))
  /\ contains TestSuite.TITLE TestSuite.help_output = true
  /\ fst (main TestSuite.help_output Imported [Flag "--help"] (Toy.start Toy.friendly))
     = Exit 0
  /\ fst (TestSuite.test_wrapper_help TestSuite.all_fine []) = TestSuite.Ok true.
Proof.
  assert (Hempty : stdout (Toy.start Toy.friendly) = []) by reflexivity.
  assert (Hhelp : TestSuite.run_help TestSuite.all_fine
                  = inr (captured_text
                           (stdout (snd (main TestSuite.help_output Imported [Flag "--help"]
                                           (Toy.start Toy.friendly))))))
    by (vm_compute; reflexivity).
  assert (Htitle : contains TestSuite.TITLE TestSuite.help_output = true)
    by (vm_compute; reflexivity).
  split; [ exact Hempty | ]. split; [ exact Hhelp | ]. split; [ exact Htitle | ].
  destruct (help_test_needs_the_sdk (FS := Toy.toy_fs) (Sdk := Toy.toy_sdk)
              TestSuite.help_output (Toy.start Toy.friendly) TestSuite.all_fine []
              Hempty) as (Hexit & _ & Hpasses & _).
  split; [ exact Hexit | exact (Hpasses Hhelp Htitle) ].
Defined.
